(** * moonraker/components/filaman.py: the filament-manager register protocol

    A shallow embedding of the [FilaMan] component: the register catalog
    [BUS_REGISTERS], the [struct] and UTF-8 codecs it relies on, the SMBus
    primitives it calls, and the methods of the class as computations in a
    state-and-exception monad over the component's attributes. *)

From Stdlib Require Import ZArith List Lia Bool.
From Stdlib Require Import Floats.SpecFloat.
From stdpp Require Import gmap strings list fin_maps.

Open Scope Z_scope.

(** ** Python values and exceptions *)

(** A Python [str] is a sequence of code points (not of bytes), each in
    [0 .. 0x10FFFF]. *)
Abbreviation pystr := (list Z) (only parsing).

(** A Python [float] is an IEEE-754 binary64 datum: a [spec_float] in the
    canonical form of precision 53 and [emax = 1024]. *)
Abbreviation pyfloat := spec_float (only parsing).

(** The scalar values that a JSON request body or a register read can put in
    a field mapping. *)
Inductive value :=
  | VNone
  | VBool (b : bool)
  | VInt (z : Z)
  | VFloat (f : pyfloat)
  | VStr (s : pystr).

(** The exceptions that the component, [struct], [str.encode],
    [bytes.decode] and the bus can raise. [ServerError] is
    [self.server.error(msg)]; [OSError] is a failed bus transfer. *)
Inductive exn :=
  | KeyError (k : string)
  | TypeError
  | ValueError
  | StructError
  | OverflowError
  | AttributeError (attr : string)
  | UnicodeEncodeError
  | UnicodeDecodeError
  | OSError
  | ServerError (msg : string).

Inductive result (A : Type) :=
  | Ok (a : A)
  | Raise (e : exn).
Arguments Ok {A} a.
Arguments Raise {A} e.

(** Truth value of a Python object, as tested by [if] and [and]. *)
Definition truthy (v : value) : bool :=
  match v with
  | VNone => false
  | VBool b => b
  | VInt z => negb (z =? 0)
  | VFloat (S754_zero _) => false
  | VFloat _ => true
  | VStr s => match s with [] => false | _ => true end
  end.

(** ** [struct.pack] / [struct.unpack] for the formats ['<i'] and ['<f'] *)
Module Struct.

(** [n] little-endian bytes of [z] (two's complement for negative [z]). *)
Fixpoint le_bytes (n : nat) (z : Z) : list Z :=
  match n with
  | O => []
  | S k => z mod 256 :: le_bytes k (z / 256)
  end.

Fixpoint le_decode (bs : list Z) : Z :=
  match bs with
  | [] => 0
  | b :: r => b + 256 * le_decode r
  end.

Definition is_byte (b : Z) : bool := (0 <=? b) && (b <? 256).

(** [bytearray(buf)] / [bytes(buf)] on a list of integers. *)
Definition bytearray (buf : list Z) : result (list Z) :=
  if forallb is_byte buf then Ok buf else Raise ValueError.

(** [struct.pack('<i', v)]: needs an integer ([bool] is one) in the
    signed 32-bit range. *)
Definition pack_i (v : value) : result (list Z) :=
  match v with
  | VInt z =>
      if (-2147483648 <=? z) && (z <=? 2147483647)
      then Ok (le_bytes 4 z) else Raise StructError
  | VBool b => Ok (le_bytes 4 (Z.b2z b))
  | _ => Raise StructError
  end.

(** [struct.unpack('<i', b)[0]]: exactly four bytes, read as a signed
    little-endian integer. *)
Definition unpack_i (b : list Z) : result Z :=
  if (length b =? 4)%nat then
    let u := le_decode b in
    Ok (if u <? 2147483648 then u else u - 4294967296)
  else Raise StructError.

(** *** binary32 *)

Definition prec32 := 24.
Definition emax32 := 128.
Definition prec64 := 53.
Definition emax64 := 1024.

(** The 32-bit pattern of a canonical binary32 datum. Not-a-number is
    packed as the quiet pattern [0x7FC00000]. *)
Definition join32 (s : bool) (biased frac : Z) : Z :=
  Z.b2z s * 2147483648 + biased * 8388608 + frac.

Definition bits_of_b32 (x : spec_float) : Z :=
  match x with
  | S754_zero s => join32 s 0 0
  | S754_infinity s => join32 s 255 0
  | S754_nan => join32 false 255 4194304
  | S754_finite s m e =>
      if 8388608 <=? Z.pos m
      then join32 s (e + 150) (Z.pos m - 8388608)
      else join32 s 0 (Z.pos m)
  end.

Definition b32_of_bits (w : Z) : spec_float :=
  let s := negb (w / 2147483648 =? 0) in
  let biased := (w / 8388608) mod 256 in
  let frac := w mod 8388608 in
  if biased =? 0 then
    match frac with
    | Z.pos m => S754_finite s m (-149)
    | _ => S754_zero s
    end
  else if biased =? 255 then
    (if frac =? 0 then S754_infinity s else S754_nan)
  else
    match frac + 8388608 with
    | Z.pos m => S754_finite s m (biased - 150)
    | _ => S754_nan
    end.

(** The C conversion [(float)x]: round a binary64 datum to the nearest
    binary32 one, ties to even. *)
Definition narrow (x : pyfloat) : spec_float :=
  match x with
  | S754_finite s m e =>
      binary_normalize prec32 emax32 (cond_Zopp s (Z.pos m)) e s
  | _ => x
  end.

(** The C conversion [(double)y]: the binary64 datum of the same value,
    its mantissa shifted to the canonical exponent. *)
Definition widen (y : spec_float) : pyfloat :=
  match y with
  | S754_finite s m e =>
      let '(m', e') :=
        shl_align m e (fexp prec64 emax64 (Z.pos (digits2_pos m) + e)) in
      S754_finite s m' e'
  | _ => y
  end.

(** [float(z)] for a Python integer. *)
Definition float_of_int (z : Z) : result pyfloat :=
  match binary_normalize prec64 emax64 z 0 false with
  | S754_infinity _ => Raise OverflowError
  | f => Ok f
  end.

Definition pack_f32 (x : pyfloat) : result (list Z) :=
  match x, narrow x with
  | S754_finite _ _ _, S754_infinity _ => Raise OverflowError
  | _, y => Ok (le_bytes 4 (bits_of_b32 y))
  end.

(** [struct.pack('<f', v)]: a float, or a number converted with
    [float(v)]; a finite value too large for binary32 overflows, which
    [struct] reports as its own error when the argument was an integer. *)
Definition pack_f (v : value) : result (list Z) :=
  match v with
  | VFloat x => pack_f32 x
  | VInt z =>
      match float_of_int z with
      | Ok x =>
          match pack_f32 x with
          | Ok b => Ok b
          | Raise _ => Raise StructError
          end
      | Raise _ => Raise StructError
      end
  | VBool b => pack_f32 (if b then S754_finite false 4503599627370496 (-52)
                         else S754_zero false)
  | _ => Raise StructError
  end.

(** [struct.unpack('<f', b)[0]]. *)
Definition unpack_f (b : list Z) : result pyfloat :=
  if (length b =? 4)%nat then Ok (widen (b32_of_bits (le_decode b)))
  else Raise StructError.

End Struct.

(** ** [str.encode('utf-8')] and [bytes.decode('utf-8')] *)
Module Utf8.

Definition cont (x : Z) : Z := Z.lor 128 (Z.land x 63).

(** One code point; surrogates cannot be encoded. *)
Definition encode_cp (c : Z) : result (list Z) :=
  if c <? 0 then Raise UnicodeEncodeError
  else if c <? 128 then Ok [c]
  else if c <? 2048 then Ok [Z.lor 192 (Z.shiftr c 6); cont c]
  else if c <? 65536 then
    if (55296 <=? c) && (c <=? 57343) then Raise UnicodeEncodeError
    else Ok [Z.lor 224 (Z.shiftr c 12); cont (Z.shiftr c 6); cont c]
  else if c <? 1114112 then
    Ok [Z.lor 240 (Z.shiftr c 18); cont (Z.shiftr c 12);
        cont (Z.shiftr c 6); cont c]
  else Raise UnicodeEncodeError.

Fixpoint encode (s : pystr) : result (list Z) :=
  match s with
  | [] => Ok []
  | c :: r =>
      match encode_cp c, encode r with
      | Ok b, Ok br => Ok (b ++ br)
      | Raise e, _ => Raise e
      | _, Raise e => Raise e
      end
  end.

Definition is_cont (b : Z) : bool := (128 <=? b) && (b <=? 191).

Definition payload (b : Z) : Z := Z.land b 63.

(** Strict decoding: truncated and overlong forms, surrogates, stray
    continuation bytes and code points above [0x10FFFF] are errors. *)
Fixpoint decode (bs : list Z) : result pystr :=
  let emit (ok : bool) (c : Z) (rest : result pystr) :=
    if ok then
      match rest with
      | Ok s => Ok (c :: s)
      | Raise e => Raise e
      end
    else Raise UnicodeDecodeError in
  match bs with
  | [] => Ok []
  | b0 :: r0 =>
      if (0 <=? b0) && (b0 <? 128) then emit true b0 (decode r0)
      else if (194 <=? b0) && (b0 <=? 223) then
        match r0 with
        | b1 :: r1 =>
            emit (is_cont b1)
                 (Z.lor (Z.shiftl (Z.land b0 31) 6) (payload b1))
                 (decode r1)
        | _ => Raise UnicodeDecodeError
        end
      else if (224 <=? b0) && (b0 <=? 239) then
        match r0 with
        | b1 :: b2 :: r2 =>
            let c := Z.lor (Z.shiftl (Z.land b0 15) 12)
                       (Z.lor (Z.shiftl (payload b1) 6) (payload b2)) in
            emit (is_cont b1 && is_cont b2 && (2048 <=? c)
                  && negb ((55296 <=? c) && (c <=? 57343)))
                 c (decode r2)
        | _ => Raise UnicodeDecodeError
        end
      else if (240 <=? b0) && (b0 <=? 244) then
        match r0 with
        | b1 :: b2 :: b3 :: r3 =>
            let c := Z.lor (Z.shiftl (Z.land b0 7) 18)
                       (Z.lor (Z.shiftl (payload b1) 12)
                          (Z.lor (Z.shiftl (payload b2) 6) (payload b3))) in
            emit (is_cont b1 && is_cont b2 && is_cont b3
                  && (65536 <=? c) && (c <? 1114112))
                 c (decode r3)
        | _ => Raise UnicodeDecodeError
        end
      else Raise UnicodeDecodeError
  end.

End Utf8.

(** ** The register catalog *)

Inductive BusType := BOOL | INT | FLOAT | STR | BYTE.

Inductive BusOp := COMMIT.

Definition BusOp_value (op : BusOp) : Z :=
  match op with COMMIT => 0 end.

(** One entry of the catalog: [{ 'reg': ..., 'type': ... }]. *)
Record reg_val := RegVal { reg : Z; type : BusType }.

(** [BUS_REGISTERS], in insertion order (the order in which [.items()]
    yields it). *)
Definition BUS_REGISTERS : list (string * reg_val) :=
  [ ("operation", RegVal 0x0F BYTE);
    ("present", RegVal 0x00 BOOL);
    ("nfc_valid", RegVal 0x01 BOOL);
    ("filament_id", RegVal 0x02 INT);
    ("filament_name_len", RegVal 0x03 INT);
    ("filament_name", RegVal 0x04 STR);
    ("spool_weight", RegVal 0x05 INT);
    ("total_weight", RegVal 0x06 INT);
    ("opt_bitmap", RegVal 0x07 BYTE);
    ("extr_multiplier", RegVal 0x08 FLOAT);
    ("pressure_advance", RegVal 0x09 FLOAT);
    ("extr_temp", RegVal 0x0A INT);
    ("bed_temp", RegVal 0x0B INT);
    ("regular_fan", RegVal 0x0C INT);
    ("bridge_fan", RegVal 0x0D INT) ]%string.

(** [d[k]] on the items of a dict literal. *)
Fixpoint items_get {A} (items : list (string * A)) (k : string) : result A :=
  match items with
  | [] => Raise (KeyError k)
  | (k', v) :: rest => if String.eqb k' k then Ok v else items_get rest k
  end.

(** [BUS_REGISTERS['opt_bitmap']['reg'] + 1] *)
Definition BUS_REG_OPT_START : Z :=
  match items_get BUS_REGISTERS "opt_bitmap" with
  | Ok r => reg r + 1
  | Raise _ => 0
  end.

Definition FILAMENT_CHANGED_NOTIF : string := "filaman:filament_changed".

(** ** The bus *)

(** The calls the component makes on its [SMBus] handle. Each takes the
    handle's state and returns the outcome and the new state. A byte write
    receives the Python object it was given. *)
Class SMBus (B : Type) := {
  read_byte_data : B -> Z -> Z -> result Z * B;
  write_byte_data : B -> Z -> Z -> value -> result unit * B;
  read_i2c_block_data : B -> Z -> Z -> Z -> result (list Z) * B;
  write_i2c_block_data : B -> Z -> Z -> list Z -> result unit * B
}.

(** A record of one call on the bus, with its arguments. *)
Inductive bus_call :=
  | ReadByteData (addr register : Z)
  | WriteByteData (addr register : Z) (v : value)
  | ReadBlock (addr register length : Z)
  | WriteBlock (addr register : Z) (data : list Z).

(** The register a call addresses, and whether it is a write. *)
Definition call_register (c : bus_call) : Z :=
  match c with
  | ReadByteData _ r | WriteByteData _ r _
  | ReadBlock _ r _ | WriteBlock _ r _ => r
  end.

Definition is_write (c : bus_call) : bool :=
  match c with
  | WriteByteData _ _ _ | WriteBlock _ _ _ => true
  | _ => false
  end.

Definition is_read (c : bus_call) : bool := negb (is_write c).

(** A faithful loopback device: a register file that stores what is written
    to a register and returns it on a read of that register. A byte write
    keeps the low eight bits of an integer and rejects other objects; a
    block read of [n] bytes returns the first [n] stored bytes, padded with
    zeros. *)
Definition Loopback := Z -> list Z.

Definition loopback_store (b : Loopback) (r : Z) (cell : list Z) : Loopback :=
  fun r' => if r' =? r then cell else b r'.

Definition loopback_empty : Loopback := fun _ => [].

#[export] Instance loopback_bus : SMBus Loopback := {|
  read_byte_data b _ r := (Ok (hd 0 (b r)), b);
  write_byte_data b _ r v :=
    match v with
    | VInt z => (Ok tt, loopback_store b r [z mod 256])
    | VBool x => (Ok tt, loopback_store b r [Z.b2z x])
    | _ => (Raise TypeError, b)
    end;
  read_i2c_block_data b _ r n :=
    (Ok (firstn (Z.to_nat n) (b r ++ repeat 0 (Z.to_nat n))), b);
  write_i2c_block_data b _ r data := (Ok tt, loopback_store b r data)
|}.

(** ** The component *)

(** The attributes of a [FilaMan] object that its methods use: the bus
    handle, the device address and the cached status dict. [sent] collects
    the events handed to [self.server.send_event] and [bus_log] the calls
    made on the bus, oldest first; the code reads neither. The object has
    no attribute named [system]. *)
Record FilaMan (B : Type) := MkFilaMan {
  bus : B;
  dev_addr : Z;
  status : gmap string value;
  sent : list (string * gmap string value);
  bus_log : list bus_call
}.
Arguments MkFilaMan {B}.
Arguments bus {B}.
Arguments dev_addr {B}.
Arguments status {B}.
Arguments sent {B}.
Arguments bus_log {B}.

(** A method body: it runs on the object, returns or raises, and leaves the
    object in a new state (also when it raises). *)
Definition M (B A : Type) : Type := FilaMan B -> result A * FilaMan B.

Definition ret {B A} (a : A) : M B A := fun self => (Ok a, self).

Definition raise {B A} (e : exn) : M B A := fun self => (Raise e, self).

Definition bind {B A C} (m : M B A) (k : A -> M B C) : M B C :=
  fun self =>
    match m self with
    | (Ok a, self') => k a self'
    | (Raise e, self') => (Raise e, self')
    end.

Definition lift {B A} (r : result A) : M B A := fun self => (r, self).

Declare Scope py_scope.
Delimit Scope py_scope with py.
Notation "'let!' x ':=' m 'in' k" := (bind m (fun x => k))
  (at level 10, x name, m at level 200, k at level 200, only parsing)
  : py_scope.
Open Scope py_scope.

(** [for x in items: body] with the loop-carried variables in [acc]. *)
Fixpoint for_items {B A S} (items : list A) (body : A -> S -> M B S) (acc : S)
  : M B S :=
  match items with
  | [] => ret acc
  | x :: rest => let! acc' := body x acc in for_items rest body acc'
  end.

(** [d[k]] on a dict: [KeyError] when the key is absent. *)
Definition getitem {B} (d : gmap string value) (k : string) : M B value :=
  match d !! k with
  | Some v => ret v
  | None => raise (KeyError k)
  end.

(** An integer operand of [>>], [&], [min]: [bool] is an integer, nothing
    else is. *)
Definition as_int {B} (v : value) : M B Z :=
  match v with
  | VInt z => ret z
  | VBool b => ret (Z.b2z b)
  | _ => raise TypeError
  end.

Section FilaMan.
Context {B : Type} `{SMBus B}.

(** *** Calls on [self.bus], always at [self.dev_addr] *)

Definition called (self : FilaMan B) (b : B) (c : bus_call) : FilaMan B :=
  MkFilaMan b (dev_addr self) (status self) (sent self)
            (bus_log self ++ [c]).

Definition bus_read_byte_data (register : Z) : M B Z := fun self =>
  let '(r, b) := read_byte_data (bus self) (dev_addr self) register in
  (r, called self b (ReadByteData (dev_addr self) register)).

Definition bus_write_byte_data (register : Z) (v : value) : M B unit :=
  fun self =>
    let '(r, b) := write_byte_data (bus self) (dev_addr self) register v in
    (r, called self b (WriteByteData (dev_addr self) register v)).

Definition bus_read_i2c_block_data (register length : Z) : M B (list Z) :=
  fun self =>
    let '(r, b) :=
      read_i2c_block_data (bus self) (dev_addr self) register length in
    (r, called self b (ReadBlock (dev_addr self) register length)).

Definition bus_write_i2c_block_data (register : Z) (data : list Z)
  : M B unit :=
  fun self =>
    let '(r, b) :=
      write_i2c_block_data (bus self) (dev_addr self) register data in
    (r, called self b (WriteBlock (dev_addr self) register data)).

(** *** [self.server] and [self.system] *)

Definition server_send_event (name : string) (info : gmap string value)
  : M B unit :=
  fun self =>
    (Ok tt, MkFilaMan (bus self) (dev_addr self) (status self)
              (sent self ++ [(name, info)]) (bus_log self)).

(** Reading [self.system]: the object has no such attribute. *)
Definition self_system : M B (string -> exn) :=
  raise (AttributeError "system").

(** *** The typed primitives *)

Definition _read_float (register : Z) : M B value :=
  let! buf := bus_read_i2c_block_data register 4 in
  let! b := lift (Struct.bytearray buf) in
  let! x := lift (Struct.unpack_f b) in
  ret (VFloat x).

Definition _write_float (register : Z) (value : value) : M B unit :=
  let! buf := lift (Struct.pack_f value) in
  bus_write_i2c_block_data register buf.

Definition _read_int (register : Z) : M B value :=
  let! buf := bus_read_i2c_block_data register 4 in
  let! b := lift (Struct.bytearray buf) in
  let! z := lift (Struct.unpack_i b) in
  ret (VInt z).

Definition _write_int (register : Z) (value : value) : M B unit :=
  let! buf := lift (Struct.pack_i value) in
  bus_write_i2c_block_data register buf.

Definition _read_bool (register : Z) : M B value :=
  let! val := bus_read_byte_data register in
  ret (VBool (negb (val =? 0))).

Definition _write_bool (register : Z) (value : value) : M B unit :=
  bus_write_byte_data register (VInt (if truthy value then 1 else 0)).

Definition _read_byte (register : Z) : M B value :=
  let! val := bus_read_byte_data register in
  ret (VInt val).

Definition _write_byte (register : Z) (value : value) : M B unit :=
  bus_write_byte_data register value.

(** [min(32, length)] bytes are requested; [length] is the integer read
    from the length register. *)
Definition _read_str (register : Z) (length : value) : M B value :=
  let! n := as_int length in
  let! buf := bus_read_i2c_block_data register (Z.min 32 n) in
  let! b := lift (Struct.bytearray buf) in
  let! s := lift (Utf8.decode b) in
  ret (VStr s).

(** [value[:32]] and [len(value)] count code points; only a [str] has
    both a length and an [encode] method. *)
Definition _write_str (register : Z) (value : value) (length_register : Z)
  : M B unit :=
  match value with
  | VStr s =>
      let value := if (32 <=? length s)%nat then firstn 32 s else s in
      let length := Z.of_nat (length value) in
      let! _ := _write_int length_register (VInt length) in
      let! b := lift (Utf8.encode value) in
      bus_write_i2c_block_data register b
  | _ => raise TypeError
  end.

Definition _read_register (reg_val : reg_val) : M B value :=
  match type reg_val with
  | INT => _read_int (reg reg_val)
  | FLOAT => _read_float (reg reg_val)
  | BOOL => _read_bool (reg reg_val)
  | BYTE => _read_byte (reg reg_val)
  | STR =>
      let! system := self_system in
      raise (system "Optional field cannot contain string value")
  end.

Definition _write_register (reg_val : reg_val) (val : value) : M B unit :=
  match type reg_val with
  | INT => _write_int (reg reg_val) val
  | FLOAT => _write_float (reg reg_val) val
  | BOOL => _write_bool (reg reg_val) val
  | BYTE => _write_byte (reg reg_val) val
  | STR =>
      let! system := self_system in
      raise (system "Optional field cannot contain string value")
  end.

Definition _write_operation (op : BusOp) : M B unit :=
  let! r := lift (items_get BUS_REGISTERS "operation") in
  _write_byte (reg r) (VInt (BusOp_value op)).

(** *** The optional-field bitmap *)

Definition _get_bit (value n : Z) : bool :=
  negb (Z.land (Z.shiftr value n) 0x01 =? 0x00).

Definition _set_bit (value n : Z) : Z :=
  Z.lor value (Z.shiftl 1 n).

Definition _get_bitmap_val (value identifier : Z) : bool :=
  _get_bit value (identifier - BUS_REG_OPT_START).

(** *** Status and record transactions *)

Definition set_status (k : string) (v : value) : M B unit := fun self =>
  (Ok tt, MkFilaMan (bus self) (dev_addr self) (<[k := v]> (status self))
            (sent self) (bus_log self)).

Definition get_status : M B (gmap string value) := fun self =>
  (Ok (status self), self).

Definition _read_status : M B (gmap string value) :=
  let! r := lift (items_get BUS_REGISTERS "present") in
  let! v := _read_register r in
  let! _ := set_status "present" v in
  let! r := lift (items_get BUS_REGISTERS "nfc_valid") in
  let! v := _read_register r in
  let! _ := set_status "nfc_valid" v in
  get_status.

(** The body of the loop of [_read_nfc]; [data] is the loop-carried
    dict. The [print] of the name length writes to standard output only
    and is left out. *)
Definition read_opt (opt_bitmap : Z) (item : string * reg_val)
    (data : gmap string value) : M B (gmap string value) :=
  let '(key, val) := item in
  if reg val <? BUS_REG_OPT_START then ret data
  else if _get_bitmap_val opt_bitmap (reg val) then
    let! v := _read_register val in
    ret (<[key := v]> data)
  else ret data.

Definition _read_nfc : M B (gmap string value) :=
  let data : gmap string value := ∅ in
  let! r := lift (items_get BUS_REGISTERS "filament_name_len") in
  let! name_len := _read_register r in
  let! r := lift (items_get BUS_REGISTERS "filament_id") in
  let! v := _read_register r in
  let data := <["id" := v]> data in
  let! r := lift (items_get BUS_REGISTERS "filament_name") in
  let! v := _read_str (reg r) name_len in
  let data := <["name" := v]> data in
  let! r := lift (items_get BUS_REGISTERS "spool_weight") in
  let! v := _read_register r in
  let data := <["spool_weight" := v]> data in
  let! r := lift (items_get BUS_REGISTERS "total_weight") in
  let! v := _read_register r in
  let data := <["total_weight" := v]> data in
  let! r := lift (items_get BUS_REGISTERS "opt_bitmap") in
  let! v := _read_register r in
  let! opt_bitmap := as_int v in
  for_items BUS_REGISTERS (read_opt opt_bitmap) data.

(** The body of the loop of [_write_nfc]; [opt_bitmap] is the
    loop-carried accumulator. *)
Definition write_opt (data : gmap string value) (item : string * reg_val)
    (opt_bitmap : Z) : M B Z :=
  let '(key, val) := item in
  if reg val <? BUS_REG_OPT_START then ret opt_bitmap
  else
    match data !! key with
    | Some v =>
        let opt_bitmap := _set_bit opt_bitmap (reg val - BUS_REG_OPT_START) in
        let! _ := _write_register val v in
        ret opt_bitmap
    | None => ret opt_bitmap
    end.

Definition _write_nfc (data : gmap string value) : M B unit :=
  let! r := lift (items_get BUS_REGISTERS "filament_id") in
  let! v := getitem data "id" in
  let! _ := _write_register r v in
  let! r := lift (items_get BUS_REGISTERS "filament_name") in
  let! v := getitem data "name" in
  let! rl := lift (items_get BUS_REGISTERS "filament_name_len") in
  let! _ := _write_str (reg r) v (reg rl) in
  let! r := lift (items_get BUS_REGISTERS "spool_weight") in
  let! v := getitem data "spool_weight" in
  let! _ := _write_register r v in
  let! r := lift (items_get BUS_REGISTERS "total_weight") in
  let! v := getitem data "total_weight" in
  let! _ := _write_register r v in
  let! opt_bitmap := for_items BUS_REGISTERS (write_opt data) 0x00 in
  let! r := lift (items_get BUS_REGISTERS "opt_bitmap") in
  let! _ := _write_register r (VInt opt_bitmap) in
  _write_operation COMMIT.

(** *** Notification and request handlers *)

Definition _notify_filament_changed : M B unit :=
  let! filament_info := get_status in
  let! present := getitem filament_info "present" in
  let! both :=
    (if truthy present then
       let! nfc_valid := getitem filament_info "nfc_valid" in
       ret (truthy nfc_valid)
     else ret false) in
  let! filament_info :=
    (if both : bool then
       let! nfc := _read_nfc in
       ret (nfc ∪ filament_info)
     else ret filament_info) in
  server_send_event FILAMENT_CHANGED_NOTIF filament_info.

Definition _on_int_event (eventtime elapsed_time : pyfloat) (pressed : Z)
  : M B unit :=
  _notify_filament_changed.

Definition _handle_status : M B (gmap string value) := _read_status.

Definition _handle_nfc_read : M B (gmap string value) := _read_nfc.

Definition _handle_nfc_write (args : gmap string value)
  : M B (gmap string value) :=
  let data := args in
  let! _ := _write_nfc data in
  ret {[ "status" := VStr [79; 75] ]}.

End FilaMan.

(** A freshly constructed component: no status has been read and nothing
    has been sent. *)
Definition FilaMan_init {B} (b : B) (addr : Z) : FilaMan B :=
  MkFilaMan b addr ∅ [] [].

(** ** Notions used in the statements *)

(** The values a register of a given type can hold: a [bool], a byte, a
    signed 32-bit integer, or the [float] of a binary32 datum. *)
Definition representable (t : BusType) (v : value) : Prop :=
  match t, v with
  | BOOL, VBool _ => True
  | BYTE, VInt z => 0 <= z < 256
  | INT, VInt z => -2147483648 <= z <= 2147483647
  | FLOAT, VFloat f =>
      exists x, valid_binary Struct.prec32 Struct.emax32 x = true
                /\ f = Struct.widen x
  | _, _ => False
  end.

(** The optional register set: the catalog entries at or above the
    bitmap start, in catalog order. *)
Definition optional_items : list (string * reg_val) :=
  List.filter (fun kr => BUS_REG_OPT_START <=? reg (snd kr)) BUS_REGISTERS.

Definition has_key (data : gmap string value) (k : string) : bool :=
  match data !! k with Some _ => true | None => false end.

(** The optional registers whose name is a key of [data]. *)
Definition present_items (data : gmap string value)
  : list (string * reg_val) :=
  List.filter (fun kr => has_key data (fst kr)) optional_items.

(** The bitmap with the bit of every present optional register set. *)
Definition bitmap_of (data : gmap string value) : Z :=
  fold_left (fun acc kr => Z.lor acc (Z.shiftl 1 (reg (snd kr) - 8)))
            (present_items data) 0.

Definition mandatory_keys : list string :=
  ["id"; "name"; "spool_weight"; "total_weight"]%string.

(** A name of at most 32 characters, all of them ASCII. *)
Definition short_ascii (v : value) : Prop :=
  exists s, v = VStr s /\ (length s <= 32)%nat
            /\ Forall (fun c => 0 <= c < 128) s.

(** A field mapping with the four mandatory fields and any of the six
    optional fields at [0x08 .. 0x0D], every value one that its register
    holds exactly. *)
Definition exact_record (data : gmap string value) : Prop :=
  (exists v, data !! "id" = Some v /\ representable INT v)
  /\ (exists v, data !! "name" = Some v /\ short_ascii v)
  /\ (exists v, data !! "spool_weight" = Some v /\ representable INT v)
  /\ (exists v, data !! "total_weight" = Some v /\ representable INT v)
  /\ (forall k v, data !! k = Some v ->
        In k mandatory_keys
        \/ exists r, In (k, r) BUS_REGISTERS /\ 0x08 <= reg r <= 0x0D
                     /\ representable (type r) v).

(** The new calls of a run: [after] extends [before] by [calls]. *)
Definition issued {B} (before after : FilaMan B) (calls : list bus_call)
  : Prop :=
  bus_log after = bus_log before ++ calls.

(** The [Commit] write. *)
Definition commit_call (addr : Z) : bus_call :=
  WriteByteData addr 0x0F (VInt (BusOp_value COMMIT)).

(** *** Example inputs *)

(** The double nearest to 0.045. *)
Definition f_0_045 : pyfloat := S754_finite false 6485183463413514 (-57).

(** [{id: 7, name: "PLA", spool_weight: 200, total_weight: 950,
      pressure_advance: 0.045}] *)
Definition pla_record : gmap string value :=
  {[ "id" := VInt 7; "name" := VStr [80; 76; 65];
     "spool_weight" := VInt 200; "total_weight" := VInt 950;
     "pressure_advance" := VFloat f_0_045 ]}.

(** The same spool with a float that binary32 holds exactly (0.5). *)
Definition pla_exact : gmap string value :=
  <[ "pressure_advance" := VFloat (S754_finite false 4503599627370496 (-53)) ]>
    pla_record.

(** Mandatory fields only, the name 33 letters [a]. *)
Definition long_name_record : gmap string value :=
  {[ "id" := VInt 7; "name" := VStr (repeat 97 33);
     "spool_weight" := VInt 200; "total_weight" := VInt 950 ]}.

(** Twenty times the letter e-acute (U+00E9): 40 bytes of UTF-8. *)
Definition name_40_bytes : value := VStr (repeat 233 20).

(** A loopback device on which a record was stored with only bit 7 of the
    bitmap set. *)
Definition device_bit7 : Loopback :=
  loopback_store
    (loopback_store
       (loopback_store
          (loopback_store
             (loopback_store
                (loopback_store loopback_empty 0x02 [7; 0; 0; 0])
                0x03 [3; 0; 0; 0])
             0x04 [80; 76; 65])
          0x05 [200; 0; 0; 0])
       0x06 [182; 3; 0; 0])
    0x07 [128].

(** *** What the loops compute *)

(** The bytes a loopback register holds once a value of its type was
    written to it. *)
Definition cell_of (t : BusType) (v : value) : list Z :=
  match t, v with
  | INT, VInt z => Struct.le_bytes 4 z
  | FLOAT, VFloat f => Struct.le_bytes 4 (Struct.bits_of_b32 (Struct.narrow f))
  | BOOL, VBool b => [Z.b2z b]
  | BYTE, VInt z => [z mod 256]
  | _, _ => []
  end.

(** One turn of the loop of [_write_nfc], on the bitmap and on the
    registers of a loopback device. *)
Definition opt_bit (data : gmap string value) (acc : Z)
    (item : string * reg_val) : Z :=
  if reg (snd item) <? BUS_REG_OPT_START then acc
  else if has_key data (fst item)
       then Z.lor acc (Z.shiftl 1 (reg (snd item) - BUS_REG_OPT_START))
       else acc.

Definition opt_store (data : gmap string value) (b : Loopback)
    (item : string * reg_val) : Loopback :=
  if reg (snd item) <? BUS_REG_OPT_START then b
  else match data !! fst item with
       | Some v => loopback_store b (reg (snd item)) (cell_of (type (snd item)) v)
       | None => b
       end.

(** The registers written for the mandatory fields accessed before the
    key [k], and the values those writes accept. *)
Definition registers_before (k : string) : list Z :=
  if String.eqb k "id" then []
  else if String.eqb k "name" then [0x02]
  else if String.eqb k "spool_weight" then [0x02; 0x03; 0x04]
  else [0x02; 0x03; 0x04; 0x05].

Definition keys_before (k : string) : list string :=
  if String.eqb k "id" then []
  else if String.eqb k "name" then ["id"]
  else if String.eqb k "spool_weight" then ["id"; "name"]
  else ["id"; "name"; "spool_weight"]%string.

Definition accepted (k : string) (v : value) : Prop :=
  if String.eqb k "name"
  then exists s b, v = VStr s /\ Utf8.encode (firstn 32 s) = Ok b
  else exists b, Struct.pack_i v = Ok b.

(** Reading back: the bitmap [bm] and the registers of the loopback device
    [b] agree with [data] on an optional item. *)
Definition stored (data : gmap string value) (bm : Z) (b : Loopback)
    (item : string * reg_val) : Prop :=
  BUS_REG_OPT_START <= reg (snd item) ->
  if _get_bitmap_val bm (reg (snd item))
  then exists v, data !! fst item = Some v
                 /\ representable (type (snd item)) v
                 /\ b (reg (snd item)) = cell_of (type (snd item)) v
  else data !! fst item = None.

(** Whether an item of the catalog sets bit [n] of the bitmap of [data]. *)
Definition sets_bit (data : gmap string value) (n : Z)
    (kr : string * reg_val) : bool :=
  (BUS_REG_OPT_START <=? reg (snd kr)) && has_key data (fst kr)
  && (reg (snd kr) - BUS_REG_OPT_START =? n).

(** A write to the register [r]. *)
Definition write_to (r : Z) (c : bus_call) : Prop :=
  is_write c = true /\ call_register c = r.

(** The bus accepts every block write. *)
Definition block_writes_succeed (B : Type) `{SMBus B} : Prop :=
  forall (b : B) (a r : Z) (d : list Z),
    fst (write_i2c_block_data b a r d) = Ok tt.

(** The fields accessed before [k] are present, with accepted values. *)
Definition earlier_accepted (data : gmap string value) (k : string) : Prop :=
  forall k', In k' (keys_before k) ->
             exists v, data !! k' = Some v /\ accepted k' v.

(** [bytes(buf).decode('utf-8')] as one function of the bytes read. *)
Definition bytes_decode (buf : list Z) : result value :=
  match Struct.bytearray buf with
  | Ok b =>
      match Utf8.decode b with
      | Ok s => Ok (VStr s)
      | Raise e => Raise e
      end
  | Raise e => Raise e
  end.

(** A mapping with the key [id] only. *)
Definition id_only_record : gmap string value := {[ "id" := VInt 7 ]}.

(** A mapping without [name] whose [id] is one above the largest signed
    32-bit integer. *)
Definition big_id_record : gmap string value :=
  {[ "id" := VInt 2147483648 ]}.

(** The spool of [pla_record] with one more key, [operation]. *)
Definition operation_record : gmap string value :=
  <[ "operation" := VInt 5 ]> pla_record.

(** A component on an empty loopback device at address [0x50]. *)
Definition fresh_loopback : FilaMan Loopback :=
  FilaMan_init loopback_empty 0x50.

(** ** Notions used in the further properties *)

(** The device address a call is sent to. *)
Definition call_addr (c : bus_call) : Z :=
  match c with
  | ReadByteData a _ | WriteByteData a _ _
  | ReadBlock a _ _ | WriteBlock a _ _ => a
  end.

(** A method body is confined to the calls [P]: whatever it returns or
    raises, it leaves the device address and the sent events as they were,
    also the status dict when [keep_status] is set, and every call it makes
    on the bus satisfies [P] and goes to the device address. *)
Definition confined {B A} (P : bus_call -> bool) (keep_status : bool)
    (m : M B A) : Prop :=
  forall self res self',
    m self = (res, self') ->
    dev_addr self' = dev_addr self
    /\ sent self' = sent self
    /\ (keep_status = true -> status self' = status self)
    /\ exists L, issued self self' L
                 /\ Forall (fun c => P c = true /\ call_addr c = dev_addr self) L.

(** The one call that the generic read path makes for a register. *)
Definition read_call (a : Z) (rv : reg_val) : bus_call :=
  match type rv with
  | INT | FLOAT => ReadBlock a (reg rv) 4
  | _ => ReadByteData a (reg rv)
  end.

(** The optional items whose bit is set in the bitmap [bm], in catalog
    order. *)
Definition selected_items (bm : Z) : list (string * reg_val) :=
  List.filter (fun kr => _get_bitmap_val bm (reg (snd kr))) optional_items.

(** A device that answers a given number of calls and then stops
    responding: every call on it fails with [OSError]. While it answers,
    reads return zeros and writes are accepted. *)
Definition Fading := nat.

Definition fading_call {A} (n : Fading) (a : A) : result A * Fading :=
  match n with
  | O => (Raise OSError, O)
  | S k => (Ok a, k)
  end.

Definition fading_bus : SMBus Fading := {|
  read_byte_data n _ _ := fading_call n 1;
  write_byte_data n _ _ _ := fading_call n tt;
  read_i2c_block_data n _ _ len := fading_call n (repeat 0 (Z.to_nat len));
  write_i2c_block_data n _ _ _ := fading_call n tt
|}.

(** A component whose last poll found a valid tag, on the device
    [device_bit7]. *)
Definition polled_valid : FilaMan Loopback :=
  MkFilaMan device_bit7 0x50
    {[ "present" := VBool true; "nfc_valid" := VBool true ]} [] [].

(** A fresh component on a loopback device whose registers [present] and
    [nfc_valid] hold 1. *)
Definition tag_present : FilaMan Loopback :=
  FilaMan_init
    (loopback_store (loopback_store loopback_empty 0x00 [1]) 0x01 [1]) 0x50.

(** The register contents that the typed primitives reproduce: one byte 0
    or 1 for a [bool], one byte for a byte, four bytes for an integer, and
    for a float four bytes that are not a not-a-number pattern other than
    the quiet one, [0x7FC00000]. *)
Definition canonical_cell (t : BusType) (cell : list Z) : Prop :=
  match t with
  | BOOL => cell = [0] \/ cell = [1]
  | BYTE => exists z, cell = [z] /\ 0 <= z < 256
  | INT => length cell = 4%nat /\ forallb Struct.is_byte cell = true
  | FLOAT =>
      length cell = 4%nat /\ forallb Struct.is_byte cell = true
      /\ (Struct.b32_of_bits (Struct.le_decode cell) = S754_nan ->
          Struct.le_decode cell = 0x7FC00000)
  | STR => False
  end.

(** The name of a record written and read back: the name part of
    [_write_nfc] followed by the name part of [_read_nfc]. *)
Definition name_roundtrip {B} `{SMBus B} (s : pystr) : M B value :=
  let! r := lift (items_get BUS_REGISTERS "filament_name") in
  let! rl := lift (items_get BUS_REGISTERS "filament_name_len") in
  let! _ := _write_str (reg r) (VStr s) (reg rl) in
  let! name_len := _read_register rl in
  _read_str (reg r) name_len.

(** The str [value[:32]] that [_write_str] sends, and its [len]. *)
Definition sliced (s : pystr) : pystr := firstn 32 s.

Definition sliced_len (s : pystr) : Z := Z.of_nat (length (sliced s)).

(** A str with one lone surrogate. *)
Definition lone_surrogate : pystr := [80; 0xD800; 65].

(** * Properties *)

(** ** binary32 *)
Module StructFacts.
Import Struct.

Lemma digits2_pos_size (m : positive) : digits2_pos m = Pos.size m.
Proof. induction m; simpl; congruence. Qed.

Lemma size_bounds (m : positive) :
  2 ^ (Z.pos (Pos.size m) - 1) <= Z.pos m < 2 ^ Z.pos (Pos.size m).
Proof.
  pose proof (Pos.size_gt m) as Hgt.
  pose proof (Pos.size_le m) as Hle.
  apply Pos2Z.pos_lt_pos in Hgt. apply Pos2Z.pos_le_pos in Hle.
  rewrite Pos2Z.inj_pow in Hgt, Hle.
  change (Z.pos m~0) with (2 * Z.pos m) in Hle.
  split; [|exact Hgt].
  assert (2 ^ Z.pos (Pos.size m) = 2 * 2 ^ (Z.pos (Pos.size m) - 1)) as E.
  { rewrite <- Z.pow_succ_r by lia. f_equal. lia. }
  lia.
Qed.

Lemma iter_pos_iter {A} (f : A -> A) (p : positive) (x : A) :
  SpecFloat.iter_pos f p x = Pos.iter f x p.
Proof.
  revert x. induction p as [p IH|p IH|]; intros x; simpl.
  - rewrite !IH, !Pos.iter_swap. reflexivity.
  - rewrite !IH. reflexivity.
  - reflexivity.
Qed.

Lemma digits2_pos_shl (m p : positive) :
  digits2_pos (Pos.iter xO m p) = (digits2_pos m + p)%positive.
Proof.
  induction p as [|p IH] using Pos.peano_ind.
  - simpl. lia.
  - rewrite Pos.iter_succ. simpl. rewrite IH. lia.
Qed.

Lemma shr_shl_exact (m p : positive) :
  SpecFloat.iter_pos shr_1 p (Build_shr_record (Z.pos (Pos.iter xO m p)) false false)
  = Build_shr_record (Z.pos m) false false.
Proof.
  rewrite iter_pos_iter.
  induction p as [|p IH] using Pos.peano_ind.
  - reflexivity.
  - rewrite Pos.iter_succ_r, Pos.iter_succ. simpl. exact IH.
Qed.

(** What [valid_binary] says of a finite binary32 datum. *)
Lemma bounded32 (m : positive) (e : Z) :
  bounded prec32 emax32 m e = true ->
  Z.pos (digits2_pos m) <= 24 /\ -149 <= e <= 104 /\
  fexp prec32 emax32 (Z.pos (digits2_pos m) + e) = e /\
  (Z.pos (digits2_pos m) = 24 \/ e = -149).
Proof.
  unfold bounded, canonical_mantissa, fexp, emin, prec32, emax32.
  intros Hb. apply andb_true_iff in Hb as [Hc He].
  apply Z.eqb_eq in Hc. apply Z.leb_le in He. lia.
Qed.

Lemma narrow_widen (x : spec_float) :
  valid_binary prec32 emax32 x = true -> narrow (widen x) = x.
Proof.
  destruct x as [s|s| |s m e]; try reflexivity.
  simpl. intros Hb.
  destruct (bounded32 m e Hb) as (Hd & He & Hfexp & _).
  set (d := Z.pos (digits2_pos m)) in *.
  assert (fexp prec64 emax64 (d + e) = d + e - 53) as ->.
  { unfold fexp, emin, prec64, emax64. lia. }
  unfold shl_align.
  destruct (d + e - 53 - e) as [|q|q] eqn:Hq; try lia.
  unfold narrow.
  assert (binary_round prec32 emax32 s (Pos.iter xO m q) (d + e - 53)
          = S754_finite s m e) as Hround.
  { unfold binary_round.
    rewrite digits2_pos_shl, Pos2Z.inj_add. fold d.
    replace (d + Z.pos q + (d + e - 53)) with (d + e) by lia.
    rewrite Hfexp. unfold shl_align.
    destruct (e - (d + e - 53)) as [|r|r] eqn:Hr; try lia.
    unfold binary_round_aux, shr_fexp. simpl Zdigits2.
    rewrite digits2_pos_shl, Pos2Z.inj_add. fold d.
    replace (d + Z.pos q + (d + e - 53)) with (d + e) by lia.
    rewrite Hfexp, Hr. simpl shr_record_of_loc. unfold shr at 1.
    assert (r = q) as -> by lia.
    rewrite shr_shl_exact. simpl.
    fold d.
    replace (d + e - 53 + Z.pos q) with e by lia.
    rewrite Hfexp, Z.sub_diag. simpl.
    unfold emax32, prec32.
    destruct (e <=? 128 - 24) eqn:Hle; [reflexivity|].
    apply Z.leb_gt in Hle. lia. }
  destruct s; simpl; exact Hround.
Qed.

(** *** Little-endian bytes *)

Lemma le_bytes_length (n : nat) (z : Z) : length (le_bytes n z) = n.
Proof. revert z. induction n; intros z; simpl; [|rewrite IHn]; reflexivity. Qed.

Lemma le_bytes_are_bytes (n : nat) (z : Z) :
  forallb is_byte (le_bytes n z) = true.
Proof.
  revert z. induction n as [|n IH]; intros z; simpl; [reflexivity|].
  rewrite IH, andb_true_r. unfold is_byte.
  pose proof (Z.mod_pos_bound z 256 eq_refl).
  apply andb_true_iff. split; [apply Z.leb_le|apply Z.ltb_lt]; lia.
Qed.

Lemma le_decode_bytes (n : nat) (z : Z) :
  le_decode (le_bytes n z) = z mod 256 ^ Z.of_nat n.
Proof.
  revert z. induction n as [|n IH]; intros z.
  - simpl. rewrite Z.mod_1_r. reflexivity.
  - cbn [le_bytes le_decode]. rewrite IH.
    rewrite Nat2Z.inj_succ, Z.pow_succ_r by lia.
    rewrite Z.rem_mul_r by lia. reflexivity.
Qed.

Lemma bytearray_le_bytes (n : nat) (z : Z) :
  bytearray (le_bytes n z) = Ok (le_bytes n z).
Proof. unfold bytearray. rewrite le_bytes_are_bytes. reflexivity. Qed.

(** *** Signed 32-bit integers *)

Lemma unpack_pack_i (z : Z) :
  -2147483648 <= z <= 2147483647 ->
  pack_i (VInt z) = Ok (le_bytes 4 z)
  /\ unpack_i (le_bytes 4 z) = Ok z.
Proof.
  intros Hz. unfold pack_i, unpack_i.
  assert ((-2147483648 <=? z) && (z <=? 2147483647) = true) as ->.
  { apply andb_true_iff. split; apply Z.leb_le; lia. }
  split; [reflexivity|].
  rewrite le_bytes_length, le_decode_bytes. simpl Nat.eqb. cbv iota.
  change (256 ^ Z.of_nat 4) with 4294967296.
  f_equal.
  destruct (Z.neg_nonneg_cases z) as [Hneg|Hpos].
  - assert (z mod 4294967296 = z + 4294967296) as ->.
    { symmetry. apply (Z.mod_unique _ _ (-1)); lia. }
    destruct (z + 4294967296 <? 2147483648) eqn:E;
      [apply Z.ltb_lt in E|]; lia.
  - rewrite Z.mod_small by lia.
    destruct (z <? 2147483648) eqn:E; [reflexivity|].
    apply Z.ltb_ge in E. lia.
Qed.

(** *** binary32 bit patterns *)

Lemma join32_fields (s : bool) (biased frac : Z) :
  0 <= biased < 256 -> 0 <= frac < 8388608 ->
  0 <= join32 s biased frac < 4294967296
  /\ join32 s biased frac / 2147483648 = Z.b2z s
  /\ (join32 s biased frac / 8388608) mod 256 = biased
  /\ join32 s biased frac mod 8388608 = frac.
Proof.
  intros Hb Hf. unfold join32.
  assert (Z.b2z s = 0 \/ Z.b2z s = 1) as Hs by (destruct s; simpl; lia).
  repeat split; try lia.
  - symmetry. apply (Z.div_unique _ _ _ (biased * 8388608 + frac)); lia.
  - assert ((Z.b2z s * 2147483648 + biased * 8388608 + frac) / 8388608
            = Z.b2z s * 256 + biased) as ->.
    { symmetry. apply (Z.div_unique _ _ _ frac); lia. }
    symmetry. apply (Z.mod_unique _ _ (Z.b2z s)); lia.
  - symmetry. apply (Z.mod_unique _ _ (Z.b2z s * 256 + biased)); lia.
Qed.

Lemma mantissa32 (m : positive) (e : Z) :
  bounded prec32 emax32 m e = true ->
  -149 <= e <= 104 /\
  ((8388608 <= Z.pos m < 16777216) \/ (Z.pos m < 8388608 /\ e = -149)).
Proof.
  intros Hb. destruct (bounded32 m e Hb) as (Hd & He & _ & Hc).
  rewrite digits2_pos_size in *.
  pose proof (size_bounds m) as [Hlo Hhi].
  split; [exact He|].
  destruct (Z.eq_dec (Z.pos (Pos.size m)) 24) as [E|NE].
  - left. rewrite E in Hlo, Hhi. simpl in Hlo, Hhi. lia.
  - right. split; [|lia].
    assert (2 ^ Z.pos (Pos.size m) <= 2 ^ 23) as Hp
      by (apply Z.pow_le_mono_r; lia).
    change (2 ^ 23) with 8388608 in Hp. lia.
Qed.

Lemma bits_of_b32_range (x : spec_float) :
  valid_binary prec32 emax32 x = true ->
  0 <= bits_of_b32 x < 4294967296.
Proof.
  destruct x as [s|s| |s m e]; simpl; intros Hv.
  - apply join32_fields; lia.
  - apply join32_fields; lia.
  - apply join32_fields; lia.
  - destruct (mantissa32 m e Hv) as (He & [Hn|[Hs ->]]).
    + destruct (8388608 <=? Z.pos m) eqn:E; [|apply Z.leb_gt in E; lia].
      apply join32_fields; lia.
    + destruct (8388608 <=? Z.pos m) eqn:E; [apply Z.leb_le in E; lia|].
      apply join32_fields; lia.
Qed.

Lemma b2z_sign (s : bool) : negb (Z.b2z s =? 0) = s.
Proof. destruct s; reflexivity. Qed.

Lemma b32_of_bits_of_b32 (x : spec_float) :
  valid_binary prec32 emax32 x = true ->
  b32_of_bits (bits_of_b32 x) = x.
Proof.
  destruct x as [s|s| |s m e]; simpl; intros Hv.
  - destruct s; reflexivity.
  - destruct s; reflexivity.
  - reflexivity.
  - destruct (mantissa32 m e Hv) as (He & [Hn|[Hs ->]]).
    + destruct (8388608 <=? Z.pos m) eqn:E; [|apply Z.leb_gt in E; lia].
      unfold b32_of_bits.
      destruct (join32_fields s (e + 150) (Z.pos m - 8388608))
        as (_ & -> & -> & ->); try lia.
      rewrite b2z_sign.
      destruct (e + 150 =? 0) eqn:E0; [apply Z.eqb_eq in E0; lia|].
      destruct (e + 150 =? 255) eqn:E1; [apply Z.eqb_eq in E1; lia|].
      replace (Z.pos m - 8388608 + 8388608) with (Z.pos m) by lia.
      f_equal. lia.
    + destruct (8388608 <=? Z.pos m) eqn:E; [apply Z.leb_le in E; lia|].
      unfold b32_of_bits.
      destruct (join32_fields s 0 (Z.pos m)) as (_ & -> & -> & ->); try lia.
      rewrite b2z_sign. reflexivity.
Qed.

(** *** binary32 floats *)

Lemma widen_finite (s : bool) (m : positive) (e : Z) :
  exists m' e', widen (S754_finite s m e) = S754_finite s m' e'.
Proof.
  unfold widen.
  destruct (shl_align m e _) as [m' e']. eauto.
Qed.

Lemma pack_f32_widen (x : spec_float) :
  valid_binary prec32 emax32 x = true ->
  pack_f32 (widen x) = Ok (le_bytes 4 (bits_of_b32 x)).
Proof.
  intros Hv. pose proof (narrow_widen x Hv) as Hn. unfold pack_f32.
  destruct x as [s|s| |s m e]; try reflexivity.
  destruct (widen_finite s m e) as (m' & e' & Hw).
  rewrite Hw in *. rewrite Hn. reflexivity.
Qed.

Lemma unpack_pack_f (x : spec_float) :
  valid_binary prec32 emax32 x = true ->
  pack_f (VFloat (widen x)) = Ok (le_bytes 4 (bits_of_b32 x))
  /\ unpack_f (le_bytes 4 (bits_of_b32 x)) = Ok (widen x).
Proof.
  intros Hv. split; [exact (pack_f32_widen x Hv)|].
  unfold unpack_f. rewrite le_bytes_length, le_decode_bytes.
  simpl Nat.eqb. cbv iota.
  change (256 ^ Z.of_nat 4) with 4294967296.
  rewrite Z.mod_small by (apply bits_of_b32_range; exact Hv).
  rewrite (b32_of_bits_of_b32 x Hv). reflexivity.
Qed.

End StructFacts.

(** ** UTF-8 on ASCII text *)
Module Utf8Facts.
Import Utf8.

Definition ascii (s : list Z) : Prop := Forall (fun c => 0 <= c < 128) s.

Lemma encode_ascii (s : list Z) : ascii s -> encode s = Ok s.
Proof.
  induction 1 as [|c s Hc _ IH]; [reflexivity|].
  cbn [encode]. rewrite IH. unfold encode_cp.
  destruct (c <? 0) eqn:E0; [apply Z.ltb_lt in E0; lia|].
  destruct (c <? 128) eqn:E1; [reflexivity|apply Z.ltb_ge in E1; lia].
Qed.

Lemma decode_ascii (s : list Z) : ascii s -> decode s = Ok s.
Proof.
  induction 1 as [|c s Hc _ IH]; [reflexivity|].
  cbn [decode]. rewrite IH.
  assert ((0 <=? c) && (c <? 128) = true) as ->; [|reflexivity].
  apply andb_true_iff. split; [apply Z.leb_le|apply Z.ltb_lt]; lia.
Qed.

Lemma bytearray_ascii (s : list Z) : ascii s -> Struct.bytearray s = Ok s.
Proof.
  intros Hs. unfold Struct.bytearray.
  assert (forallb Struct.is_byte s = true) as ->; [|reflexivity].
  apply forallb_forall. intros c Hc.
  apply Forall_forall with (x := c) in Hs; [|apply list_elem_of_In; exact Hc].
  unfold Struct.is_byte. apply andb_true_iff.
  split; [apply Z.leb_le|apply Z.ltb_lt]; lia.
Qed.

(** [value[:32] if len(value) >= 32 else value] is [value[:32]]. *)
Lemma slice_32 (s : list Z) :
  (if (32 <=? length s)%nat then firstn 32 s else s) = firstn 32 s.
Proof.
  destruct (32 <=? length s)%nat eqn:E; [reflexivity|].
  apply Nat.leb_gt in E. symmetry. apply firstn_all2. lia.
Qed.
End Utf8Facts.

(** ** Running method bodies *)

Lemma bind_ok {B A C} (m : M B A) (k : A -> M B C) self a self' :
  m self = (Ok a, self') -> bind m k self = k a self'.
Proof. intros E. unfold bind. rewrite E. reflexivity. Qed.

Lemma bind_raise {B A C} (m : M B A) (k : A -> M B C) self e self' :
  m self = (Raise e, self') -> bind m k self = (Raise e, self').
Proof. intros E. unfold bind. rewrite E. reflexivity. Qed.

Lemma bind_ok_inv {B A C} (m : M B A) (k : A -> M B C) self c self' :
  bind m k self = (Ok c, self') ->
  exists a self1, m self = (Ok a, self1) /\ k a self1 = (Ok c, self').
Proof.
  unfold bind. destruct (m self) as [[a|e] self1]; intros E.
  - eauto.
  - discriminate.
Qed.

Lemma lift_ok_inv {B A} (r : result A) (self : FilaMan B) a self' :
  lift r self = (Ok a, self') -> r = Ok a /\ self' = self.
Proof. unfold lift. intros E. inversion E. auto. Qed.

Lemma issued_refl {B} (self : FilaMan B) : issued self self [].
Proof. unfold issued. rewrite app_nil_r. reflexivity. Qed.

Lemma issued_trans {B} (s1 s2 s3 : FilaMan B) (l1 l2 : list bus_call) :
  issued s1 s2 l1 -> issued s2 s3 l2 -> issued s1 s3 (l1 ++ l2).
Proof. unfold issued. intros -> ->. rewrite app_assoc. reflexivity. Qed.

(** ** The primitives on a loopback device *)
Section Loopback.
Implicit Types self : FilaMan Loopback.

Lemma loopback_store_eq (b : Loopback) (r : Z) (cell : list Z) :
  loopback_store b r cell r = cell.
Proof. unfold loopback_store. rewrite Z.eqb_refl. reflexivity. Qed.

Lemma loopback_store_ne (b : Loopback) (r r' : Z) (cell : list Z) :
  r' <> r -> loopback_store b r cell r' = b r'.
Proof.
  intros Hne. unfold loopback_store.
  destruct (r' =? r) eqn:E; [apply Z.eqb_eq in E; contradiction|reflexivity].
Qed.

Lemma write_register_loopback (t : BusType) (v : value) (r : Z) self :
  representable t v ->
  exists c,
    _write_register (RegVal r t) v self
    = (Ok tt, called self (loopback_store (bus self) r (cell_of t v)) c).
Proof.
  intros Hrep. destruct t, v; simpl in Hrep; try contradiction.
  - (* BOOL *)
    destruct b; eexists; reflexivity.
  - (* INT *)
    destruct (StructFacts.unpack_pack_i z Hrep) as [Hp _].
    eexists. unfold _write_register, _write_int. simpl type. cbv iota.
    simpl reg. unfold bind, lift. rewrite Hp. reflexivity.
  - (* FLOAT *)
    destruct Hrep as (x & Hx & ->).
    destruct (StructFacts.unpack_pack_f x Hx) as [Hp _].
    eexists. unfold _write_register, _write_float. simpl type. cbv iota.
    simpl reg. unfold bind, lift. rewrite Hp.
    simpl cell_of. rewrite (StructFacts.narrow_widen x Hx). reflexivity.
  - (* BYTE *)
    eexists. reflexivity.
Qed.

Lemma read_block_loopback (r : Z) (n : nat) (cell : list Z) self :
  bus self r = cell -> length cell = n ->
  bus_read_i2c_block_data r (Z.of_nat n) self
  = (Ok cell, called self (bus self) (ReadBlock (dev_addr self) r (Z.of_nat n))).
Proof.
  intros Hcell Hlen. unfold bus_read_i2c_block_data.
  cbn [read_i2c_block_data loopback_bus]. rewrite Nat2Z.id, Hcell.
  rewrite firstn_app, <- Hlen, firstn_all, Nat.sub_diag.
  cbn [firstn]. rewrite app_nil_r. reflexivity.
Qed.

Lemma read_register_loopback (t : BusType) (v : value) (r : Z) self :
  representable t v -> bus self r = cell_of t v ->
  exists c, _read_register (RegVal r t) self = (Ok v, called self (bus self) c).
Proof.
  intros Hrep Hcell. destruct t, v; simpl in Hrep; try contradiction.
  - (* BOOL *)
    eexists. unfold _read_register, _read_bool, bus_read_byte_data, bind.
    simpl. rewrite Hcell. simpl. destruct b; reflexivity.
  - (* INT *)
    destruct (StructFacts.unpack_pack_i z Hrep) as [_ Hu].
    eexists. unfold _read_register, _read_int. cbn [type reg].
    erewrite bind_ok;
      [|apply (read_block_loopback r 4 _ self Hcell);
        apply StructFacts.le_bytes_length].
    unfold bind, lift. cbn [cell_of].
    rewrite StructFacts.bytearray_le_bytes, Hu. reflexivity.
  - (* FLOAT *)
    destruct Hrep as (x & Hx & ->).
    destruct (StructFacts.unpack_pack_f x Hx) as [_ Hu].
    cbn [cell_of] in Hcell. rewrite (StructFacts.narrow_widen x Hx) in Hcell.
    eexists. unfold _read_register, _read_float. cbn [type reg].
    erewrite bind_ok;
      [|apply (read_block_loopback r 4 _ self Hcell);
        apply StructFacts.le_bytes_length].
    unfold bind, lift.
    rewrite StructFacts.bytearray_le_bytes, Hu. reflexivity.
  - (* BYTE *)
    eexists. unfold _read_register, _read_byte, bus_read_byte_data, bind.
    simpl. rewrite Hcell. simpl. rewrite Z.mod_small by lia. reflexivity.
Qed.
End Loopback.

(** ** The catalog *)

Lemma BUS_REG_OPT_START_eq : BUS_REG_OPT_START = 0x08.
Proof. reflexivity. Qed.

Lemma catalog_lookup (k : string) (r : reg_val) :
  In (k, r) BUS_REGISTERS -> items_get BUS_REGISTERS k = Ok r.
Proof.
  intros Hin. unfold BUS_REGISTERS in Hin.
  repeat (destruct Hin as [Hin|Hin]; [inversion Hin; reflexivity|]).
  contradiction.
Qed.

Lemma catalog_unique (k : string) (r r' : reg_val) :
  In (k, r) BUS_REGISTERS -> In (k, r') BUS_REGISTERS -> r = r'.
Proof.
  intros H1 H2. apply catalog_lookup in H1, H2. congruence.
Qed.

(** ** The loops on a loopback device *)
Section LoopbackLoops.
Implicit Types self : FilaMan Loopback.
Variable data : gmap string value.

Lemma write_loop_loopback (items : list (string * reg_val)) :
  (forall k r v, In (k, r) items -> BUS_REG_OPT_START <= reg r ->
                 data !! k = Some v -> representable (type r) v) ->
  forall acc self, exists self',
    for_items items (write_opt data) acc self
    = (Ok (fold_left (opt_bit data) items acc), self')
    /\ bus self' = fold_left (opt_store data) items (bus self)
    /\ dev_addr self' = dev_addr self
    /\ status self' = status self.
Proof.
  induction items as [|[k [r t]] items IH]; intros Hty acc self.
  - exists self. repeat split; reflexivity.
  - assert (forall k r v, In (k, r) items -> BUS_REG_OPT_START <= reg r ->
              data !! k = Some v -> representable (type r) v) as Hty'.
    { intros k' r' v' Hin. apply Hty. right. exact Hin. }
    cbn [for_items fold_left].
    unfold write_opt at 1, opt_bit at 2, opt_store at 2, has_key.
    cbn [fst snd reg type].
    destruct (r <? BUS_REG_OPT_START) eqn:Hlow.
    + erewrite bind_ok by reflexivity. apply (IH Hty').
    + apply Z.ltb_ge in Hlow.
      destruct (data !! k) as [v|] eqn:Hk.
      * destruct (write_register_loopback t v r self) as [c Hw].
        { apply (Hty k (RegVal r t) v); [left; reflexivity|exact Hlow|exact Hk]. }
        erewrite bind_ok;
          [|erewrite bind_ok by exact Hw; reflexivity].
        destruct (IH Hty' (_set_bit acc (r - BUS_REG_OPT_START))
                     (called self (loopback_store (bus self) r (cell_of t v)) c))
          as (self' & Hrun & Hbus & Haddr & Hst).
        exists self'. repeat split; assumption.
      * erewrite bind_ok by reflexivity. apply (IH Hty').
Qed.

Lemma read_loop_loopback (bm : Z) (items : list (string * reg_val)) :
  forall (acc : gmap string value) self,
    Forall (stored data bm (bus self)) items ->
    acc ⊆ data ->
    exists acc' self',
      for_items items (read_opt bm) acc self = (Ok acc', self')
      /\ acc ⊆ acc' /\ acc' ⊆ data
      /\ (forall k r, In (k, r) items -> BUS_REG_OPT_START <= reg r ->
                      acc' !! k = data !! k).
Proof.
  induction items as [|[k [r t]] items IH]; intros acc self Hst Hsub.
  - exists acc, self. repeat split; done.
  - apply Forall_cons in Hst as [Hhd Htl].
    cbn [for_items]. unfold read_opt at 1. unfold stored in Hhd.
    cbn [fst snd reg type] in *.
    destruct (r <? BUS_REG_OPT_START) eqn:Hlow.
    + erewrite bind_ok by reflexivity.
      destruct (IH acc self Htl Hsub) as (acc' & self' & Hrun & H1 & H2 & H3).
      exists acc', self'. repeat split; try assumption.
      intros k' r' [Heq|Hin] Hge; [|apply (H3 k' r' Hin Hge)].
      inversion Heq; subst. cbn [reg] in Hge.
      apply Z.ltb_lt in Hlow. lia.
    + apply Z.ltb_ge in Hlow. specialize (Hhd Hlow).
      destruct (_get_bitmap_val bm r).
      * destruct Hhd as (v & Hk & Hrep & Hcell).
        destruct (read_register_loopback t v r self Hrep Hcell) as [c Hr].
        erewrite bind_ok;
          [|erewrite bind_ok by exact Hr; reflexivity].
        destruct (IH (<[k := v]> acc) (called self (bus self) c))
          as (acc' & self' & Hrun & H1 & H2 & H3).
        { exact Htl. }
        { apply insert_subseteq_l; assumption. }
        exists acc', self'. split; [exact Hrun|].
        assert (acc' !! k = Some v) as Hk'.
        { apply (lookup_weaken (<[k := v]> acc)); [|exact H1].
          apply lookup_insert_eq. }
        repeat split.
        -- apply map_subseteq_spec. intros i x Hi.
           apply (lookup_weaken (<[k := v]> acc)); [|exact H1].
           destruct (decide (k = i)) as [->|Hne].
           ++ assert (data !! i = Some x) as Hd
                by (apply (lookup_weaken acc); assumption).
              rewrite Hk in Hd. inversion Hd. apply lookup_insert_eq.
           ++ rewrite lookup_insert_ne by exact Hne. exact Hi.
        -- exact H2.
        -- intros k' r' [Heq|Hin] Hge; [|apply (H3 k' r' Hin Hge)].
           inversion Heq; subst. rewrite Hk', Hk. reflexivity.
      * erewrite bind_ok by reflexivity.
        destruct (IH acc self Htl Hsub) as (acc' & self' & Hrun & H1 & H2 & H3).
        exists acc', self'. repeat split; try assumption.
        intros k' r' [Heq|Hin] Hge; [|apply (H3 k' r' Hin Hge)].
        inversion Heq; subst. rewrite Hhd.
        destruct (acc' !! k') as [x|] eqn:E; [|reflexivity].
        apply (lookup_weaken _ data) in E; [|exact H2]. congruence.
Qed.
End LoopbackLoops.

Section LoopbackRecord.
Implicit Types self : FilaMan Loopback.
Variable data : gmap string value.

Lemma opt_store_fold_other (items : list (string * reg_val)) (r : Z) :
  (forall kr, In kr items -> BUS_REG_OPT_START <= reg (snd kr) ->
              reg (snd kr) <> r) ->
  forall b, fold_left (opt_store data) items b r = b r.
Proof.
  induction items as [|kr items IH]; intros Hne b; [reflexivity|].
  cbn [fold_left]. rewrite IH by (intros kr' Hin; apply Hne; right; exact Hin).
  unfold opt_store.
  destruct (reg (snd kr) <? BUS_REG_OPT_START) eqn:Hlow; [reflexivity|].
  apply Z.ltb_ge in Hlow.
  destruct (data !! fst kr); [|reflexivity].
  apply loopback_store_ne. intros ->.
  apply (Hne kr); [left; reflexivity|exact Hlow|reflexivity].
Qed.

Lemma opt_store_fold_In (items : list (string * reg_val)) :
  List.NoDup (map (fun kr => reg (snd kr)) items) ->
  forall k r v b,
    In (k, r) items -> BUS_REG_OPT_START <= reg r -> data !! k = Some v ->
    fold_left (opt_store data) items b (reg r) = cell_of (type r) v.
Proof.
  induction items as [|kr items IH]; intros Hnd k r v b Hin Hge Hk;
    [contradiction|].
  apply List.NoDup_cons_iff in Hnd as [Hnotin Hnd].
  cbn [fold_left]. destruct Hin as [->|Hin].
  - rewrite opt_store_fold_other.
    + unfold opt_store. cbn [fst snd]. rewrite Hk.
      destruct (reg r <? BUS_REG_OPT_START) eqn:Hlow;
        [apply Z.ltb_lt in Hlow; lia|].
      apply loopback_store_eq.
    + intros kr' Hin' _ Heq. apply Hnotin.
      cbn [snd]. rewrite <- Heq.
      apply (in_map (fun kr => reg (snd kr)) items kr' Hin').
  - apply (IH Hnd k r v _ Hin Hge Hk).
Qed.

Lemma catalog_registers_distinct :
  List.NoDup (map (fun kr => reg (snd kr)) BUS_REGISTERS).
Proof.
  cbv [BUS_REGISTERS map snd reg].
  repeat (apply List.NoDup_cons; [cbn [In]; lia|]).
  apply List.NoDup_nil.
Qed.

(** *** The bitmap *)

Lemma get_bit_testbit (x n : Z) : 0 <= n -> _get_bit x n = Z.testbit x n.
Proof.
  intros Hn. unfold _get_bit.
  change 1 with (Z.ones 1). rewrite Z.land_ones by lia.
  change (2 ^ 1) with 2. rewrite <- Z.bit0_mod, Z.shiftr_spec by lia.
  rewrite Z.add_0_l. destruct (Z.testbit x n); reflexivity.
Qed.

Lemma testbit_one_shifted (d n : Z) :
  0 <= d -> 0 <= n -> Z.testbit (Z.shiftl 1 d) n = (d =? n).
Proof.
  intros Hd Hn. rewrite Z.shiftl_spec by lia.
  destruct (d =? n) eqn:E.
  - apply Z.eqb_eq in E. subst. rewrite Z.sub_diag. reflexivity.
  - apply Z.eqb_neq in E.
    destruct (Z.lt_ge_cases (n - d) 0) as [Hlt|Hge].
    + apply Z.testbit_neg_r. exact Hlt.
    + apply (Z.bits_above_log2 1 (n - d)); simpl; lia.
Qed.

Lemma opt_bit_fold_testbit (items : list (string * reg_val)) :
  forall acc n, 0 <= n ->
    Z.testbit (fold_left (opt_bit data) items acc) n
    = Z.testbit acc n || existsb (sets_bit data n) items.
Proof.
  induction items as [|kr items IH]; intros acc n Hn.
  - simpl. rewrite orb_false_r. reflexivity.
  - cbn [fold_left existsb]. rewrite IH by exact Hn.
    rewrite orb_assoc. f_equal.
    unfold opt_bit, sets_bit.
    destruct (reg (snd kr) <? BUS_REG_OPT_START) eqn:Hlow.
    + apply Z.ltb_lt in Hlow.
      destruct (BUS_REG_OPT_START <=? reg (snd kr)) eqn:Hge;
        [apply Z.leb_le in Hge; lia|].
      rewrite orb_false_r. reflexivity.
    + apply Z.ltb_ge in Hlow.
      destruct (BUS_REG_OPT_START <=? reg (snd kr)) eqn:Hge;
        [|apply Z.leb_gt in Hge; lia].
      destruct (has_key data (fst kr)).
      * rewrite Z.lor_spec, testbit_one_shifted by lia. reflexivity.
      * rewrite orb_false_r. reflexivity.
Qed.

(** The bitmap byte read back has, for every optional item, the bit that
    says whether its key is in [data]. *)
Lemma bitmap_bits :
  Forall (fun kr => BUS_REG_OPT_START <= reg (snd kr) ->
                    _get_bitmap_val
                      (fold_left (opt_bit data) BUS_REGISTERS 0 mod 256)
                      (reg (snd kr))
                    = has_key data (fst kr))
         BUS_REGISTERS.
Proof.
  assert (forall r, 8 <= r < 16 ->
            _get_bitmap_val
              (fold_left (opt_bit data) BUS_REGISTERS 0 mod 256) r
            = existsb (sets_bit data (r - 8)) BUS_REGISTERS) as Hbit.
  { intros r Hr. unfold _get_bitmap_val. rewrite BUS_REG_OPT_START_eq.
    rewrite get_bit_testbit by lia.
    change 256 with (2 ^ 8). rewrite Z.mod_pow2_bits_low by lia.
    rewrite opt_bit_fold_testbit by lia. rewrite Z.bits_0. reflexivity. }
  unfold BUS_REGISTERS at 2.
  repeat apply List.Forall_cons; try apply List.Forall_nil;
    cbn [snd fst reg]; rewrite BUS_REG_OPT_START_eq; intros Hge;
    try (exfalso; lia);
    rewrite Hbit by lia;
    cbv [existsb BUS_REGISTERS sets_bit fst snd reg];
    rewrite BUS_REG_OPT_START_eq; simpl Z.sub; simpl Z.leb; simpl Z.eqb;
    repeat rewrite ?andb_false_r, ?orb_false_r, ?andb_true_r, ?orb_false_l;
    reflexivity.
Qed.
End LoopbackRecord.

(** ** Round trips *)

(** C6. For each of the value types Bool, Byte, Int32 and Float32 and
    every value [v] that the type represents, writing [v] to a register of
    that type and reading the register back, on a loopback device, returns
    [v]: the read primitive inverts the bytes of the write primitive. *)
Theorem primitive_roundtrip (t : BusType) (v : value) (r : Z)
    (self : FilaMan Loopback) :
  representable t v ->
  fst ((let! _ := _write_register (RegVal r t) v in
        _read_register (RegVal r t)) self)
  = Ok v.
Proof.
  intros Hrep.
  destruct (write_register_loopback t v r self Hrep) as [c Hw].
  erewrite bind_ok by exact Hw.
  edestruct (read_register_loopback t v r) as [c' Hr]; [exact Hrep| |].
  2: { rewrite Hr. reflexivity. }
  cbn [bus called]. apply loopback_store_eq.
Qed.

Lemma primitive_roundtrip_witness :
  let self := FilaMan_init loopback_empty 0x50 in
  let run t v :=
    fst ((let! _ := _write_register (RegVal 0x09 t) v in
          _read_register (RegVal 0x09 t)) self) in
  run BOOL (VBool true) = Ok (VBool true)
  /\ run BYTE (VInt 255) = Ok (VInt 255)
  /\ run INT (VInt (-2147483648)) = Ok (VInt (-2147483648))
  /\ run FLOAT (VFloat (Struct.widen (S754_finite false 12079596 (-28))))
     = Ok (VFloat (Struct.widen (S754_finite false 12079596 (-28)))).
Proof.
  intros self run. unfold run.
  split; [|split; [|split]].
  - apply (primitive_roundtrip BOOL). exact I.
  - apply (primitive_roundtrip BYTE). simpl. lia.
  - apply (primitive_roundtrip INT). simpl. lia.
  - apply (primitive_roundtrip FLOAT).
    exists (S754_finite false 12079596 (-28)). split; reflexivity.
Defined.

Section WriteThenRead.
Implicit Types self : FilaMan Loopback.
Variable data : gmap string value.
Hypothesis Hexact : exact_record data.

Lemma exact_optional_typed (k : string) (r : reg_val) (v : value) :
  In (k, r) BUS_REGISTERS -> BUS_REG_OPT_START <= reg r ->
  data !! k = Some v ->
  0x08 <= reg r <= 0x0D /\ representable (type r) v.
Proof.
  intros Hin Hge Hk.
  destruct Hexact as (_ & _ & _ & _ & Hopt).
  destruct (Hopt k v Hk) as [Hm|(r' & Hin' & Hrange & Hrep)].
  - exfalso. rewrite BUS_REG_OPT_START_eq in Hge.
    unfold mandatory_keys in Hm. unfold BUS_REGISTERS in Hin.
    repeat (destruct Hin as [Hin|Hin];
            [inversion Hin; subst; cbn [reg] in Hge; try lia;
             cbn [In] in Hm; intuition discriminate|]).
    contradiction.
  - rewrite (catalog_unique k r r' Hin Hin'). split; assumption.
Qed.

Lemma written_bus (b0 : Loopback) (bm : Z) (k : string) (r : reg_val)
    (v : value) :
  In (k, r) BUS_REGISTERS -> BUS_REG_OPT_START <= reg r ->
  data !! k = Some v ->
  loopback_store
    (loopback_store (fold_left (opt_store data) BUS_REGISTERS b0) 0x07 [bm])
    0x0F [0] (reg r)
  = cell_of (type r) v.
Proof.
  intros Hin Hge Hk.
  destruct (exact_optional_typed k r v Hin Hge Hk) as [Hrange _].
  rewrite !loopback_store_ne by lia.
  apply (opt_store_fold_In data _ catalog_registers_distinct k r v b0 Hin Hge Hk).
Qed.

Lemma written_low (b0 : Loopback) (bm : Z) (r : Z) :
  r < 0x07 ->
  loopback_store
    (loopback_store (fold_left (opt_store data) BUS_REGISTERS b0) 0x07 [bm])
    0x0F [0] r
  = b0 r.
Proof.
  intros Hr. rewrite !loopback_store_ne by lia.
  apply opt_store_fold_other.
  intros kr _ Hge. rewrite BUS_REG_OPT_START_eq in Hge. lia.
Qed.
End WriteThenRead.

Ltac step_refl := erewrite bind_ok by reflexivity; cbv beta.
Ltac step_with H := erewrite bind_ok by exact H; cbv beta.
Ltac on_state k :=
  match goal with
  | |- exists _, bind _ _ ?st = _ => k st
  end.

Section WriteThenRead2.
Implicit Types self : FilaMan Loopback.
Variable data : gmap string value.
Hypothesis Hexact : exact_record data.

Lemma getitem_some {B} (k : string) (v : value) (self : FilaMan B) :
  data !! k = Some v -> getitem data k self = (Ok v, self).
Proof. intros Hk. unfold getitem. rewrite Hk. reflexivity. Qed.

Lemma write_str_loopback (s : list Z) (r rl : Z) self :
  (length s <= 32)%nat -> Utf8Facts.ascii s ->
  exists c1 c2,
    _write_str r (VStr s) rl self
    = (Ok tt,
       called
         (called self
            (loopback_store (bus self) rl
               (Struct.le_bytes 4 (Z.of_nat (length s)))) c1)
         (loopback_store
            (loopback_store (bus self) rl
               (Struct.le_bytes 4 (Z.of_nat (length s)))) r s) c2).
Proof.
  intros Hlen Hasc. unfold _write_str.
  rewrite Utf8Facts.slice_32, firstn_all2 by lia.
  destruct (write_register_loopback INT (VInt (Z.of_nat (length s))) rl self)
    as [c1 Hw]; [simpl; lia|].
  change (_write_register (RegVal rl INT) (VInt (Z.of_nat (length s))))
    with (_write_int rl (VInt (Z.of_nat (length s)))) in Hw.
  step_with Hw.
  unfold lift at 1. rewrite (Utf8Facts.encode_ascii s Hasc).
  step_refl. eexists _, _. reflexivity.
Qed.

Lemma write_nfc_loopback self :
  exists self1 vid s vs vt,
    _write_nfc data self = (Ok tt, self1)
    /\ data !! "id" = Some vid /\ representable INT vid
    /\ data !! "name" = Some (VStr s) /\ (length s <= 32)%nat
    /\ Utf8Facts.ascii s
    /\ data !! "spool_weight" = Some vs /\ representable INT vs
    /\ data !! "total_weight" = Some vt /\ representable INT vt
    /\ dev_addr self1 = dev_addr self
    /\ bus self1
       = loopback_store
           (loopback_store
              (fold_left (opt_store data) BUS_REGISTERS
                 (loopback_store
                    (loopback_store
                       (loopback_store
                          (loopback_store
                             (loopback_store (bus self) 0x02 (cell_of INT vid))
                             0x03 (Struct.le_bytes 4 (Z.of_nat (length s))))
                          0x04 s)
                       0x05 (cell_of INT vs))
                    0x06 (cell_of INT vt)))
              0x07 [fold_left (opt_bit data) BUS_REGISTERS 0 mod 256])
           0x0F [0].
Proof.
  destruct Hexact as ((vid & Hid & Rid) & (vn & Hn & (s & -> & Hlen & Hasc))
                      & (vs & Hs & Rs) & (vt & Ht & Rt) & Hopt).
  unfold _write_nfc.
  step_refl. step_with (getitem_some "id" vid self Hid).
  destruct (write_register_loopback INT vid 0x02 self Rid) as [c1 Hw1].
  step_with Hw1.
  step_refl. erewrite bind_ok by (apply getitem_some; exact Hn). cbv beta.
  step_refl.
  edestruct (write_str_loopback s 0x04 0x03) as (c2 & c3 & Hw2);
    [exact Hlen|exact Hasc|].
  step_with Hw2.
  step_refl. erewrite bind_ok by (apply getitem_some; exact Hs). cbv beta.
  edestruct (write_register_loopback INT vs 0x05) as [c4 Hw4]; [exact Rs|].
  step_with Hw4.
  step_refl. erewrite bind_ok by (apply getitem_some; exact Ht). cbv beta.
  edestruct (write_register_loopback INT vt 0x06) as [c5 Hw5]; [exact Rt|].
  step_with Hw5.
  edestruct (write_loop_loopback data BUS_REGISTERS) as (s6 & Hloop & Hbus & Haddr & _).
  { intros k r v Hin Hge Hk.
    apply (exact_optional_typed data Hexact k r v Hin Hge Hk). }
  step_with Hloop.
  step_refl.
  eexists _, vid, s, vs, vt.
  split; [reflexivity|].
  repeat (split; [assumption|]).
  cbn [bus called]. rewrite Hbus. reflexivity.
Qed.
End WriteThenRead2.

Section WriteThenRead3.
Implicit Types self : FilaMan Loopback.
Variable data : gmap string value.
Hypothesis Hexact : exact_record data.

Lemma read_str_loopback (s : list Z) (r : Z) self :
  bus self r = s -> (length s <= 32)%nat -> Utf8Facts.ascii s ->
  exists c,
    _read_str r (VInt (Z.of_nat (length s))) self
    = (Ok (VStr s), called self (bus self) c).
Proof.
  intros Hcell Hlen Hasc. unfold _read_str.
  step_refl. rewrite Z.min_r by lia.
  erewrite bind_ok by (apply (read_block_loopback r (length s) s self Hcell);
                       reflexivity).
  cbv beta. unfold lift.
  rewrite (Utf8Facts.bytearray_ascii s Hasc). step_refl.
  rewrite (Utf8Facts.decode_ascii s Hasc). step_refl.
  eexists. reflexivity.
Qed.

Lemma stored_after_write (b0 : Loopback) :
  let bm := fold_left (opt_bit data) BUS_REGISTERS 0 mod 256 in
  Forall (stored data bm
            (loopback_store
               (loopback_store
                  (fold_left (opt_store data) BUS_REGISTERS b0) 0x07 [bm])
               0x0F [0]))
         BUS_REGISTERS.
Proof.
  intros bm. apply List.Forall_forall. intros [k r] Hin.
  pose proof (bitmap_bits data) as Hbits.
  rewrite List.Forall_forall in Hbits. specialize (Hbits (k, r) Hin).
  unfold stored. cbn [fst snd] in *. intros Hge.
  fold bm in Hbits. rewrite (Hbits Hge). unfold has_key.
  destruct (data !! k) as [v|] eqn:Hk; [|reflexivity].
  exists v. split; [reflexivity|]. split.
  - apply (exact_optional_typed data Hexact k r v Hin Hge Hk).
  - apply (written_bus data Hexact b0 bm k r v Hin Hge Hk).
Qed.

Lemma read_nfc_loopback self (b0 : Loopback) vid s vs vt :
  data !! "id" = Some vid -> representable INT vid ->
  data !! "name" = Some (VStr s) -> (length s <= 32)%nat ->
  Utf8Facts.ascii s ->
  data !! "spool_weight" = Some vs -> representable INT vs ->
  data !! "total_weight" = Some vt -> representable INT vt ->
  bus self
  = loopback_store
      (loopback_store
         (fold_left (opt_store data) BUS_REGISTERS
            (loopback_store
               (loopback_store
                  (loopback_store
                     (loopback_store
                        (loopback_store b0 0x02 (cell_of INT vid))
                        0x03 (Struct.le_bytes 4 (Z.of_nat (length s))))
                     0x04 s)
                  0x05 (cell_of INT vs))
               0x06 (cell_of INT vt)))
         0x07 [fold_left (opt_bit data) BUS_REGISTERS 0 mod 256])
      0x0F [0] ->
  exists self2, _read_nfc self = (Ok data, self2).
Proof.
  intros Hid Rid Hn Hlen Hasc Hs Rs Ht Rt Hbus.
  set (bm := fold_left (opt_bit data) BUS_REGISTERS 0 mod 256) in *.
  unfold _read_nfc.
  (* name length *)
  step_refl.
  edestruct (read_register_loopback INT (VInt (Z.of_nat (length s))) 0x03 self)
    as [c1 H1]; [simpl; lia| |].
  { rewrite Hbus, (written_low data) by lia.
    rewrite !loopback_store_ne by lia. apply loopback_store_eq. }
  step_with H1.
  (* id *)
  step_refl.
  on_state ltac:(fun st =>
    destruct (read_register_loopback INT vid 0x02 st) as [c2 H2];
      [exact Rid| |]).
  { cbn [bus called]. rewrite Hbus, (written_low data) by lia.
    rewrite !loopback_store_ne by lia. apply loopback_store_eq. }
  step_with H2.
  (* name *)
  step_refl. cbn [reg].
  on_state ltac:(fun st =>
    destruct (read_str_loopback s 0x04 st) as [c3 H3];
      [|exact Hlen|exact Hasc|]).
  { cbn [bus called]. rewrite Hbus, (written_low data) by lia.
    rewrite !loopback_store_ne by lia. apply loopback_store_eq. }
  step_with H3.
  (* spool_weight *)
  step_refl.
  on_state ltac:(fun st =>
    destruct (read_register_loopback INT vs 0x05 st) as [c4 H4];
      [exact Rs| |]).
  { cbn [bus called]. rewrite Hbus, (written_low data) by lia.
    rewrite !loopback_store_ne by lia. apply loopback_store_eq. }
  step_with H4.
  (* total_weight *)
  step_refl.
  on_state ltac:(fun st =>
    destruct (read_register_loopback INT vt 0x06 st) as [c5 H5];
      [exact Rt| |]).
  { cbn [bus called]. rewrite Hbus, (written_low data) by lia.
    apply loopback_store_eq. }
  step_with H5.
  (* bitmap *)
  step_refl.
  assert (0 <= bm < 256) as Hbm by (apply Z.mod_pos_bound; lia).
  on_state ltac:(fun st =>
    destruct (read_register_loopback BYTE (VInt bm) 0x07 st) as [c6 H6];
      [exact Hbm| |]).
  { cbn [bus called cell_of]. rewrite Hbus.
    rewrite loopback_store_ne by lia. rewrite loopback_store_eq.
    rewrite Z.mod_small by exact Hbm. reflexivity. }
  step_with H6. step_refl.
  (* optional fields *)
  match goal with
  | |- exists self2, for_items _ _ ?acc ?st = _ =>
      destruct (read_loop_loopback data bm BUS_REGISTERS acc st)
        as (acc' & self2 & Hrun & Hsub1 & Hsub2 & Hopt)
  end.
  { cbn [bus called]. rewrite Hbus. apply stored_after_write. }
  { repeat (apply insert_subseteq_l; [assumption|]).
    apply map_empty_subseteq. }
  exists self2. rewrite Hrun. f_equal. f_equal.
  apply map_eq. intros i.
  destruct (data !! i) as [v|] eqn:Hi.
  - destruct Hexact as (_ & _ & _ & _ & Hfields).
    destruct (Hfields i v Hi) as [Hm|(r & Hin & Hrange & _)].
    + apply (lookup_weaken _ _ i v) in Hsub1; [exact Hsub1|].
      unfold mandatory_keys in Hm. cbn [In] in Hm.
      destruct Hm as [<-|[<-|[<-|[<-|[]]]]];
        rewrite ?lookup_insert_eq, ?lookup_insert_ne by discriminate;
        rewrite ?lookup_insert_eq; congruence.
    + rewrite (Hopt i r Hin) by (rewrite BUS_REG_OPT_START_eq; lia).
      exact Hi.
  - destruct (acc' !! i) as [x|] eqn:E; [|reflexivity].
    apply (lookup_weaken _ data) in E; [|exact Hsub2]. congruence.
Qed.
End WriteThenRead3.

(** C1 (as amended). On a loopback device, for every field mapping that
    holds the four mandatory fields and any subset of the six optional
    fields, with integers in the signed 32-bit range, floats that binary32
    represents exactly and an ASCII name of at most 32 characters,
    [_write_nfc] succeeds and a following [_read_nfc] returns exactly that
    mapping: the same keys with the same values. *)
Theorem write_then_read_exact (data : gmap string value)
    (self : FilaMan Loopback) :
  exact_record data ->
  exists self1 self2,
    _write_nfc data self = (Ok tt, self1)
    /\ _read_nfc self1 = (Ok data, self2).
Proof.
  intros Hexact.
  destruct (write_nfc_loopback data Hexact self)
    as (self1 & vid & s & vs & vt & Hw & Hid & Rid & Hn & Hlen & Hasc
        & Hs & Rs & Ht & Rt & _ & Hbus).
  destruct (read_nfc_loopback data Hexact self1 (bus self) vid s vs vt
              Hid Rid Hn Hlen Hasc Hs Rs Ht Rt Hbus) as [self2 Hr].
  exists self1, self2. split; assumption.
Qed.

Lemma pla_exact_is_exact : exact_record pla_exact.
Proof.
  unfold exact_record.
  split; [exists (VInt 7); split; [reflexivity|simpl; lia]|].
  split; [exists (VStr [80; 76; 65]); split; [reflexivity|]|].
  { exists [80; 76; 65]. split; [reflexivity|]. split; [simpl; lia|].
    repeat constructor; lia. }
  split; [exists (VInt 200); split; [reflexivity|simpl; lia]|].
  split; [exists (VInt 950); split; [reflexivity|simpl; lia]|].
  intros k v Hk. unfold pla_exact, pla_record in Hk.
  apply lookup_insert_Some in Hk as [[<- <-]|[Hne Hk]].
  { right. exists (RegVal 0x09 FLOAT).
    split; [cbv [BUS_REGISTERS In]; tauto|]. split; [simpl; lia|].
    exists (S754_finite false 8388608 (-24)). split; reflexivity. }
  apply lookup_insert_Some in Hk as [[<- <-]|[_ Hk]];
    [left; cbv [mandatory_keys In]; tauto|].
  apply lookup_insert_Some in Hk as [[<- <-]|[_ Hk]];
    [left; cbv [mandatory_keys In]; tauto|].
  apply lookup_insert_Some in Hk as [[<- <-]|[_ Hk]];
    [left; cbv [mandatory_keys In]; tauto|].
  apply lookup_insert_Some in Hk as [[<- <-]|[_ Hk]];
    [left; cbv [mandatory_keys In]; tauto|].
  apply lookup_singleton_Some in Hk as [<- _]. contradiction.
Qed.

Lemma write_then_read_exact_witness :
  exact_record pla_exact
  /\ exists self1 self2,
       _write_nfc pla_exact (FilaMan_init loopback_empty 0x50) = (Ok tt, self1)
       /\ _read_nfc self1 = (Ok pla_exact, self2).
Proof.
  split; [exact pla_exact_is_exact|].
  apply (write_then_read_exact pla_exact (FilaMan_init loopback_empty 0x50)).
  exact pla_exact_is_exact.
Defined.

(** C1 (as stated) fails: a name of 33 letters comes back cut to 32, and
    the float 0.045 comes back as the nearest binary32 value. *)
Lemma write_then_read_counterexample :
  let run (data : gmap string value) :=
    fst ((let! _ := _write_nfc data in _read_nfc)
           (FilaMan_init loopback_empty 0x50)) in
  run long_name_record
  = Ok (<["name" := VStr (repeat 97 32)]> long_name_record)
  /\ run long_name_record <> Ok long_name_record
  /\ run pla_record
     = Ok (<["pressure_advance" :=
              VFloat (S754_finite false 6485183721111552 (-57))]> pla_record)
  /\ run pla_record <> Ok pla_record.
Proof.
  intros run.
  assert (run long_name_record
          = Ok (<["name" := VStr (repeat 97 32)]> long_name_record)) as E1
    by (vm_compute; reflexivity).
  assert (run pla_record
          = Ok (<["pressure_advance" :=
                   VFloat (S754_finite false 6485183721111552 (-57))]>
                  pla_record)) as E2
    by (vm_compute; reflexivity).
  split; [exact E1|]. split; [|split; [exact E2|]].
  - rewrite E1. intros H.
    apply (f_equal (fun r : result (gmap string value) =>
                      match r with Ok m => m !! "name" | Raise _ => None end))
      in H.
    vm_compute in H. discriminate.
  - rewrite E2. intros H.
    apply (f_equal (fun r : result (gmap string value) =>
                      match r with
                      | Ok m => m !! "pressure_advance"
                      | Raise _ => None
                      end)) in H.
    vm_compute in H. discriminate.
Qed.

(** ** The calls of a write transaction, on any bus *)
Section AnyBus.
Context {B : Type} `{SMBus B}.
Implicit Types self : FilaMan B.

Lemma bus_write_block_calls (r : Z) (d : list Z) self res self' :
  bus_write_i2c_block_data r d self = (res, self') ->
  dev_addr self' = dev_addr self
  /\ issued self self' [WriteBlock (dev_addr self) r d].
Proof.
  unfold bus_write_i2c_block_data.
  destruct (write_i2c_block_data _ _ _ _) as [res0 b].
  intros E. inversion E; subst. split; reflexivity.
Qed.

Lemma bus_write_byte_calls (r : Z) (v : value) self res self' :
  bus_write_byte_data r v self = (res, self') ->
  dev_addr self' = dev_addr self
  /\ issued self self' [WriteByteData (dev_addr self) r v].
Proof.
  unfold bus_write_byte_data.
  destruct (write_byte_data _ _ _ _) as [res0 b].
  intros E. inversion E; subst. split; reflexivity.
Qed.

Lemma packed_write_calls (p : result (list Z)) (r : Z) self res self' :
  bind (lift p) (fun buf => bus_write_i2c_block_data r buf) self
  = (res, self') ->
  dev_addr self' = dev_addr self
  /\ exists L, issued self self' L /\ Forall (write_to r) L
               /\ (res = Ok tt -> exists c, L = [c]).
Proof.
  unfold bind, lift. destruct p as [buf|e]; intros E.
  - apply bus_write_block_calls in E as [Ha Hi]. split; [exact Ha|].
    eexists. split; [exact Hi|]. split.
    + repeat constructor.
    + intros _. eauto.
  - inversion E; subst. split; [reflexivity|].
    exists []. split; [apply issued_refl|]. split; [constructor|].
    discriminate.
Qed.

Lemma write_register_calls (rv : reg_val) (v : value) self res self' :
  _write_register rv v self = (res, self') ->
  dev_addr self' = dev_addr self
  /\ exists L, issued self self' L /\ Forall (write_to (reg rv)) L
               /\ (res = Ok tt -> exists c, L = [c]).
Proof.
  destruct rv as [r t]. unfold _write_register. cbn [type reg].
  destruct t.
  - (* BOOL *)
    unfold _write_bool. intros E.
    apply bus_write_byte_calls in E as [Ha Hi]. split; [exact Ha|].
    eexists. split; [exact Hi|]. split; [repeat constructor|eauto].
  - apply packed_write_calls.
  - apply packed_write_calls.
  - (* STR *)
    intros E. inversion E; subst. split; [reflexivity|].
    exists []. split; [apply issued_refl|]. split; [constructor|].
    discriminate.
  - (* BYTE *)
    unfold _write_byte. intros E.
    apply bus_write_byte_calls in E as [Ha Hi]. split; [exact Ha|].
    eexists. split; [exact Hi|]. split; [repeat constructor|eauto].
Qed.

Lemma write_str_calls (r rl : Z) (v : value) self res self' :
  _write_str r v rl self = (res, self') ->
  dev_addr self' = dev_addr self
  /\ exists L, issued self self' L
               /\ Forall (fun c => write_to rl c \/ write_to r c) L
               /\ (res = Ok tt ->
                   exists c1 c2, L = [c1; c2] /\ write_to rl c1
                                 /\ write_to r c2).
Proof.
  destruct v as [| | | |s];
    try (intros E; inversion E; subst; split; [reflexivity|];
         exists []; split; [apply issued_refl|];
         split; [constructor|discriminate]).
  unfold _write_str. rewrite Utf8Facts.slice_32.
  unfold bind at 1.
  destruct (_write_int rl _ self) as [[[]|e] s1] eqn:E1.
  - apply (write_register_calls (RegVal rl INT)) in E1
      as (Ha1 & L1 & Hi1 & Hw1 & Hok1).
    destruct (Hok1 eq_refl) as [c1 ->].
    apply Forall_cons in Hw1 as [Hc1 _].
    unfold bind, lift. destruct (Utf8.encode (firstn 32 s)) as [b|e].
    + intros E2. apply bus_write_block_calls in E2 as [Ha2 Hi2].
      split; [congruence|].
      exists [c1; WriteBlock (dev_addr s1) r b].
      split; [apply (issued_trans _ _ _ [c1] [_] Hi1 Hi2)|].
      split.
      * apply List.Forall_cons; [left; exact Hc1|].
        apply List.Forall_cons; [right; split; reflexivity|].
        apply List.Forall_nil.
      * intros _. eexists _, _. split; [reflexivity|].
        split; [exact Hc1|split; reflexivity].
    + intros E2. inversion E2; subst. split; [exact Ha1|].
      exists [c1]. split; [exact Hi1|]. split.
      * apply List.Forall_cons; [left; exact Hc1|]. apply List.Forall_nil.
      * discriminate.
  - apply (write_register_calls (RegVal rl INT)) in E1
      as (Ha1 & L1 & Hi1 & Hw1 & _).
    intros E2. inversion E2; subst. split; [exact Ha1|].
    exists L1. split; [exact Hi1|]. split; [|discriminate].
    eapply Forall_impl; [exact Hw1|]. intros c Hc. left. exact Hc.
Qed.
End AnyBus.

Section AnyBusRecord.
Context {B : Type} `{SMBus B}.
Implicit Types self : FilaMan B.
Variable data : gmap string value.

(** The items of a list that the loop of [_write_nfc] writes. *)
Lemma write_loop_calls (items : list (string * reg_val)) :
  forall acc self res self',
    for_items items (write_opt data) acc self = (res, self') ->
    dev_addr self' = dev_addr self
    /\ exists L,
         issued self self' L
         /\ Forall (fun c => is_write c = true
                             /\ BUS_REG_OPT_START <= call_register c) L
         /\ (res = Ok (fold_left (opt_bit data) items acc)
             /\ map call_register L
                = map (fun kr => reg (snd kr))
                      (List.filter (fun kr => has_key data (fst kr))
                         (List.filter
                            (fun kr => BUS_REG_OPT_START <=? reg (snd kr))
                            items))
             \/ exists e, res = Raise e).
Proof.
  induction items as [|[k rv] items IH]; intros acc self res self' E.
  - inversion E; subst. split; [reflexivity|].
    exists []. split; [apply issued_refl|]. split; [constructor|].
    left. split; reflexivity.
  - cbn [for_items fold_left List.filter] in *.
    unfold write_opt at 1 in E. unfold opt_bit at 2.
    cbn [fst snd] in *.
    destruct (reg rv <? BUS_REG_OPT_START) eqn:Hlow.
    + assert ((BUS_REG_OPT_START <=? reg rv) = false) as ->
        by (apply Z.ltb_lt in Hlow; apply Z.leb_gt; lia).
      apply (IH acc self res self' E).
    + assert ((BUS_REG_OPT_START <=? reg rv) = true) as ->
        by (apply Z.ltb_ge in Hlow; apply Z.leb_le; lia).
      apply Z.ltb_ge in Hlow.
      cbn [List.filter fst].
      destruct (data !! k) as [v|] eqn:Hk.
      2: { assert (has_key data k = false) as ->
             by (unfold has_key; rewrite Hk; reflexivity).
           apply (IH acc self res self' E). }
      assert (has_key data k = true) as ->
        by (unfold has_key; rewrite Hk; reflexivity).
      unfold bind at 1 in E.
      destruct (bind (_write_register rv v) _ self) as [[a|e] s1] eqn:E1.
      * unfold bind in E1.
        destruct (_write_register rv v self) as [[[]|e] s0] eqn:E0;
          [|discriminate].
        inversion E1; subst a s1.
        apply write_register_calls in E0 as (Ha0 & L0 & Hi0 & Hw0 & Hok0).
        destruct (Hok0 eq_refl) as [c ->].
        apply Forall_cons in Hw0 as [[Hc1 Hc2] _].
        apply IH in E as (Ha & L & Hi & Hw & Hres).
        split; [congruence|].
        exists (c :: L). split; [apply (issued_trans _ _ _ [c] L Hi0 Hi)|].
        split; [apply List.Forall_cons; [split; [exact Hc1|lia]|exact Hw]|].
        destruct Hres as [[-> Hmap]|[e ->]]; [left|right; eauto].
        split; [reflexivity|]. cbn [map snd]. rewrite Hmap, Hc2. reflexivity.
      * inversion E; subst res self'.
        unfold bind in E1.
        destruct (_write_register rv v self) as [[[]|e0] s0] eqn:E0;
          [discriminate|].
        inversion E1; subst e0 s0.
        apply write_register_calls in E0 as (Ha0 & L0 & Hi0 & Hw0 & _).
        split; [exact Ha0|]. exists L0. split; [exact Hi0|].
        split; [|right; eauto].
        eapply Forall_impl; [exact Hw0|]. intros c [Hc1 Hc2].
        split; [exact Hc1|lia].
Qed.

Lemma opt_bit_fold_filter (items : list (string * reg_val)) (acc : Z) :
  fold_left (opt_bit data) items acc
  = fold_left (fun acc kr => Z.lor acc (Z.shiftl 1 (reg (snd kr) - 8)))
      (List.filter (fun kr => has_key data (fst kr))
         (List.filter (fun kr => BUS_REG_OPT_START <=? reg (snd kr)) items))
      acc.
Proof.
  revert acc. induction items as [|kr items IH]; intros acc; [reflexivity|].
  cbn [fold_left List.filter]. rewrite IH. unfold opt_bit at 1.
  destruct (reg (snd kr) <? BUS_REG_OPT_START) eqn:Hlow.
  - assert ((BUS_REG_OPT_START <=? reg (snd kr)) = false) as ->
      by (apply Z.ltb_lt in Hlow; apply Z.leb_gt; lia).
    reflexivity.
  - assert ((BUS_REG_OPT_START <=? reg (snd kr)) = true) as ->
      by (apply Z.ltb_ge in Hlow; apply Z.leb_le; lia).
    cbn [List.filter]. destruct (has_key data (fst kr)); reflexivity.
Qed.

Lemma bitmap_of_fold :
  fold_left (opt_bit data) BUS_REGISTERS 0 = bitmap_of data.
Proof. apply opt_bit_fold_filter. Qed.
End AnyBusRecord.

Lemma Ok_inj {A} (a b : A) : Ok a = Ok b -> a = b.
Proof. intros E. inversion E. reflexivity. Qed.

Ltac inv_lift E :=
  let a := fresh "a" in
  let s := fresh "s" in
  let E1 := fresh "E" in
  let Hr := fresh "Hr" in
  apply bind_ok_inv in E as (a & s & E1 & E);
  apply lift_ok_inv in E1 as [Hr ->];
  vm_compute in Hr; inversion Hr; subst a; clear Hr.

Lemma getitem_ok_inv {B} (d : gmap string value) (k : string)
    (self self' : FilaMan B) (v : value) :
  getitem d k self = (Ok v, self') -> d !! k = Some v /\ self' = self.
Proof.
  unfold getitem. destruct (d !! k); intros E; inversion E. auto.
Qed.

Ltac inv_getitem E Hk :=
  let a := fresh "v" in
  let s := fresh "s" in
  let E1 := fresh "E" in
  apply bind_ok_inv in E as (a & s & E1 & E);
  apply getitem_ok_inv in E1 as [Hk ->].

Section WriteOrder.
Context {B : Type} `{SMBus B}.
Implicit Types self : FilaMan B.

Lemma write_register_ok (rv : reg_val) (v : value) self self' :
  _write_register rv v self = (Ok tt, self') ->
  dev_addr self' = dev_addr self
  /\ exists c, issued self self' [c] /\ write_to (reg rv) c.
Proof.
  intros E. apply write_register_calls in E as (Ha & L & Hi & Hw & Hok).
  destruct (Hok eq_refl) as [c ->].
  apply Forall_cons in Hw as [Hc _]. eauto.
Qed.

(** C3 (as amended). Whenever [_write_nfc] returns, the calls it made on
    the bus are all writes, to the registers [filament_id],
    [filament_name_len], [filament_name], [spool_weight], [total_weight],
    then each optional register whose name is a key of the mapping, in
    catalog order, then the accumulated bitmap to [opt_bitmap], and last
    the Commit write to the operation register. *)
Theorem write_nfc_order (data : gmap string value) self self' :
  _write_nfc data self = (Ok tt, self') ->
  exists L,
    issued self self'
      (L ++ [WriteByteData (dev_addr self) 0x07 (VInt (bitmap_of data));
             commit_call (dev_addr self)])
    /\ Forall (fun c => is_write c = true) L
    /\ map call_register L
       = [0x02; 0x03; 0x04; 0x05; 0x06]
           ++ map (fun kr => reg (snd kr)) (present_items data).
Proof.
  intros E. unfold _write_nfc in E.
  inv_lift E. inv_getitem E Hid.
  apply bind_ok_inv in E as ([] & s1 & E1 & E).
  apply write_register_ok in E1 as (Ha1 & c1 & Hi1 & [Hw1 Hr1]).
  inv_lift E. inv_getitem E Hname. inv_lift E.
  apply bind_ok_inv in E as ([] & s2 & E2 & E).
  apply write_str_calls in E2 as (Ha2 & L2 & Hi2 & _ & Hok2).
  destruct (Hok2 eq_refl) as (c2 & c3 & -> & [Hw2 Hr2] & [Hw3 Hr3]).
  inv_lift E. inv_getitem E Hsw.
  apply bind_ok_inv in E as ([] & s3 & E3 & E).
  apply write_register_ok in E3 as (Ha3 & c4 & Hi3 & [Hw4 Hr4]).
  inv_lift E. inv_getitem E Htw.
  apply bind_ok_inv in E as ([] & s4 & E4 & E).
  apply write_register_ok in E4 as (Ha4 & c5 & Hi4 & [Hw5 Hr5]).
  apply bind_ok_inv in E as (bm & s5 & E5 & E).
  apply write_loop_calls in E5 as (Ha5 & L5 & Hi5 & Hw6 & Hres).
  destruct Hres as [[Hbm Hmap]|[e He]]; [|discriminate].
  apply Ok_inj in Hbm. subst bm. rewrite bitmap_of_fold in E.
  inv_lift E.
  apply bind_ok_inv in E as ([] & s6 & E6 & E).
  unfold _write_register, _write_byte in E6. cbn [type reg] in E6.
  apply bus_write_byte_calls in E6 as [Ha6 Hi6].
  unfold _write_operation in E. inv_lift E.
  unfold _write_byte in E. cbn [reg] in E.
  apply bus_write_byte_calls in E as [Ha7 Hi7].
  assert (dev_addr s5 = dev_addr self) as Hs5 by congruence.
  assert (dev_addr s6 = dev_addr self) as Hs6 by congruence.
  rewrite Hs5 in Hi6. rewrite Hs6 in Hi7.
  exists ([c1] ++ [c2; c3] ++ [c4] ++ [c5] ++ L5).
  split; [|split].
  - pose proof (issued_trans _ _ _ _ _ Hi1
                 (issued_trans _ _ _ _ _ Hi2
                    (issued_trans _ _ _ _ _ Hi3
                       (issued_trans _ _ _ _ _ Hi4
                          (issued_trans _ _ _ _ _ Hi5
                             (issued_trans _ _ _ _ _ Hi6 Hi7)))))) as Hall.
    unfold issued in *. rewrite Hall.
    rewrite <- !app_assoc. reflexivity.
  - cbn [app]. repeat (apply List.Forall_cons; [assumption|]).
    eapply Forall_impl; [exact Hw6|]. intros c [Hc _]. exact Hc.
  - cbn [app map]. rewrite Hr1, Hr2, Hr3, Hr4, Hr5, Hmap. reflexivity.
Qed.
End WriteOrder.

Section MissingKey.
Context {B : Type} `{SMBus B}.
Implicit Types self : FilaMan B.

Lemma bus_write_block_ok (r : Z) (d : list Z) self :
  block_writes_succeed B ->
  exists self', bus_write_i2c_block_data r d self = (Ok tt, self').
Proof.
  intros Hbus. unfold bus_write_i2c_block_data.
  unfold block_writes_succeed in Hbus.
  specialize (Hbus (bus self) (dev_addr self) r d).
  destruct (write_i2c_block_data _ _ _ _) as [res b].
  cbn [fst] in Hbus. subst res. eauto.
Qed.

Lemma write_int_accepted (r : Z) (v : value) self :
  (exists b, Struct.pack_i v = Ok b) -> block_writes_succeed B ->
  exists self', _write_register (RegVal r INT) v self = (Ok tt, self').
Proof.
  intros [b Hb] Hbus. unfold _write_register, _write_int. cbn [type reg].
  unfold bind, lift. rewrite Hb. apply bus_write_block_ok. exact Hbus.
Qed.

Lemma write_str_accepted (r rl : Z) (v : value) self :
  accepted "name" v -> block_writes_succeed B ->
  exists self', _write_str r v rl self = (Ok tt, self').
Proof.
  intros (s & b & -> & Hb) Hbus. unfold _write_str.
  rewrite Utf8Facts.slice_32.
  destruct (write_int_accepted rl (VInt (Z.of_nat (length (firstn 32 s)))) self)
    as [s1 Hw]; [|exact Hbus|].
  { unfold Struct.pack_i.
    pose proof (firstn_le_length 32 s).
    destruct ((-2147483648 <=? Z.of_nat (length (firstn 32 s)))
              && (Z.of_nat (length (firstn 32 s)) <=? 2147483647)) eqn:E;
      [eauto|].
    apply andb_false_iff in E as [E|E];
      [apply Z.leb_gt in E|apply Z.leb_gt in E]; lia. }
  change (_write_register (RegVal rl INT) ?x) with (_write_int rl x) in Hw.
  erewrite bind_ok by exact Hw. cbv beta.
  unfold bind, lift. rewrite Hb. apply bus_write_block_ok. exact Hbus.
Qed.
End MissingKey.

Section MissingKeyTheorem.
Context {B : Type} `{SMBus B}.
Implicit Types self : FilaMan B.
Variable data : gmap string value.

Lemma mandatory_cases (k : string) :
  In k mandatory_keys ->
  k = "id"%string \/ k = "name"%string \/ k = "spool_weight"%string
  \/ k = "total_weight"%string.
Proof.
  unfold mandatory_keys. cbn [In]. intros [<-|[<-|[<-|[<-|[]]]]]; auto.
Qed.

Lemma earlier_lookup (k k' : string) (v : value) :
  earlier_accepted data k -> In k' (keys_before k) -> data !! k' = Some v ->
  accepted k' v.
Proof.
  intros Hacc Hin Hk. destruct (Hacc k' Hin) as (v' & Hv' & Ha).
  congruence.
Qed.

Ltac key_cases Hin :=
  destruct (mandatory_cases _ Hin) as [-> | [-> | [-> | ->]]]; try congruence.

Ltac absent_earlier Hacc k' :=
  let v := fresh "v" in
  let Hv := fresh "Hv" in
  destruct (Hacc k') as (v & Hv & _); [cbn; tauto|congruence].

(** C10 (as amended). When a mandatory key is missing, [_write_nfc]
    raises, and the calls it made on the bus are writes to the registers
    [0x02 .. 0x06] only: no Commit is among them. When the fields
    accessed before the missing key [k] are present with values that
    their writes accept, and the bus accepts block writes, the exception
    is [KeyError k] and the bus has received exactly the writes of those
    earlier fields. *)
Theorem write_nfc_missing_key (k : string) self :
  In k mandatory_keys -> data !! k = None ->
  exists e self' L,
    _write_nfc data self = (Raise e, self')
    /\ issued self self' L
    /\ Forall (fun c => is_write c = true /\ 0x02 <= call_register c <= 0x06) L
    /\ (earlier_accepted data k -> block_writes_succeed B ->
        e = KeyError k /\ map call_register L = registers_before k).
Proof.
  intros Hin Hnone. unfold _write_nfc.
  (* id *)
  step_refl.
  destruct (data !! "id") as [vid|] eqn:Hid.
  2: { exists (KeyError "id"), self, [].
       split; [apply bind_raise; unfold getitem; rewrite Hid; reflexivity|].
       split; [apply issued_refl|]. split; [constructor|].
       intros Hacc _. key_cases Hin; try absent_earlier Hacc "id"%string.
       split; reflexivity. }
  step_with (getitem_some data "id" vid self Hid).
  destruct (_write_register (RegVal 0x02 INT) vid self) as [[[]|e1] s1] eqn:E1.
  2: { apply write_register_calls in E1 as Hc.
       destruct Hc as (_ & L1 & Hi1 & Hw1 & _).
       exists e1, s1, L1. split; [apply bind_raise; exact E1|].
       split; [exact Hi1|]. split.
       { eapply Forall_impl; [exact Hw1|]. cbn [reg].
         intros c [Hc1 Hc2]. split; [exact Hc1|lia]. }
       intros Hacc Hbus. exfalso. key_cases Hin;
         (destruct (write_int_accepted 0x02 vid self) as [s' Hs'];
          [apply (earlier_lookup _ "id" vid Hacc); [cbn; tauto|exact Hid]
          |exact Hbus|congruence]). }
  step_with E1.
  apply write_register_ok in E1 as (Ha1 & c1 & Hi1 & [Hw1 Hr1]).
  cbn [reg] in Hr1.
  (* name *)
  step_refl.
  destruct (data !! "name") as [vn|] eqn:Hn.
  2: { exists (KeyError "name"), s1, [c1].
       split; [apply bind_raise; unfold getitem; rewrite Hn; reflexivity|].
       split; [exact Hi1|]. split.
       { repeat constructor; [exact Hw1|lia|lia]. }
       intros Hacc _. key_cases Hin; try absent_earlier Hacc "name"%string.
       split; [reflexivity|]. cbn [map]. rewrite Hr1. reflexivity. }
  step_with (getitem_some data "name" vn s1 Hn).
  step_refl. cbn [reg].
  destruct (_write_str 0x04 vn 0x03 s1) as [[[]|e2] s2] eqn:E2.
  2: { apply write_str_calls in E2 as Hc.
       destruct Hc as (_ & L2 & Hi2 & Hw2 & _).
       exists e2, s2, ([c1] ++ L2). split; [apply bind_raise; exact E2|].
       split; [apply (issued_trans _ _ _ _ _ Hi1 Hi2)|]. split.
       { apply List.Forall_cons; [split; [exact Hw1|lia]|].
         eapply Forall_impl; [exact Hw2|].
         intros c [[Hc1 Hc2]|[Hc1 Hc2]]; (split; [exact Hc1|lia]). }
       intros Hacc Hbus. exfalso. key_cases Hin;
         (destruct (write_str_accepted 0x04 0x03 vn s1) as [s' Hs'];
          [apply (earlier_lookup _ "name" vn Hacc); [cbn; tauto|exact Hn]
          |exact Hbus|congruence]). }
  step_with E2.
  apply write_str_calls in E2 as (Ha2 & L2 & Hi2 & _ & Hok2).
  destruct (Hok2 eq_refl) as (c2 & c3 & -> & [Hw2 Hr2] & [Hw3 Hr3]).
  (* spool_weight *)
  step_refl.
  destruct (data !! "spool_weight") as [vs|] eqn:Hs.
  2: { exists (KeyError "spool_weight"), s2, ([c1] ++ [c2; c3]).
       split; [apply bind_raise; unfold getitem; rewrite Hs; reflexivity|].
       split; [apply (issued_trans _ _ _ _ _ Hi1 Hi2)|]. split.
       { repeat (apply List.Forall_cons; [split; [assumption|lia]|]).
         constructor. }
       intros Hacc _.
       key_cases Hin; try absent_earlier Hacc "spool_weight"%string.
       split; [reflexivity|]. cbn [map app]. rewrite Hr1, Hr2, Hr3.
       reflexivity. }
  step_with (getitem_some data "spool_weight" vs s2 Hs).
  destruct (_write_register (RegVal 0x05 INT) vs s2) as [[[]|e3] s3] eqn:E3.
  2: { apply write_register_calls in E3 as Hc.
       destruct Hc as (_ & L3 & Hi3 & Hw4 & _).
       exists e3, s3, ([c1] ++ [c2; c3] ++ L3).
       split; [apply bind_raise; exact E3|].
       split; [apply (issued_trans _ _ _ _ _ Hi1
                        (issued_trans _ _ _ _ _ Hi2 Hi3))|].
       split.
       { repeat (apply List.Forall_cons; [split; [assumption|lia]|]).
         eapply Forall_impl; [exact Hw4|]. cbn [reg].
         intros c [Hc1 Hc2]. split; [exact Hc1|lia]. }
       intros Hacc Hbus. exfalso. key_cases Hin;
         (destruct (write_int_accepted 0x05 vs s2) as [s' Hs'];
          [apply (earlier_lookup _ "spool_weight" vs Hacc);
           [cbn; tauto|exact Hs]
          |exact Hbus|congruence]). }
  step_with E3.
  apply write_register_ok in E3 as (Ha3 & c4 & Hi3 & [Hw4 Hr4]).
  cbn [reg] in Hr4.
  (* total_weight *)
  step_refl.
  destruct (data !! "total_weight") as [vt|] eqn:Ht.
  2: { exists (KeyError "total_weight"), s3, ([c1] ++ [c2; c3] ++ [c4]).
       split; [apply bind_raise; unfold getitem; rewrite Ht; reflexivity|].
       split; [apply (issued_trans _ _ _ _ _ Hi1
                        (issued_trans _ _ _ _ _ Hi2 Hi3))|].
       split.
       { repeat (apply List.Forall_cons; [split; [assumption|lia]|]).
         constructor. }
       intros Hacc _. key_cases Hin.
       split; [reflexivity|]. cbn [map app]. rewrite Hr1, Hr2, Hr3, Hr4.
       reflexivity. }
  exfalso. key_cases Hin.
Qed.
End MissingKeyTheorem.

(** C3 witness: the spool of the scenario, on a loopback device. *)
Lemma write_nfc_order_witness :
  exists self',
    _write_nfc pla_record fresh_loopback = (Ok tt, self')
    /\ exists L,
         issued fresh_loopback self'
           (L ++ [WriteByteData 0x50 0x07 (VInt (bitmap_of pla_record));
                  commit_call 0x50])
         /\ Forall (fun c => is_write c = true) L
         /\ map call_register L
            = [0x02; 0x03; 0x04; 0x05; 0x06]
                ++ map (fun kr => reg (snd kr)) (present_items pla_record).
Proof.
  eexists. split; [vm_compute; reflexivity|].
  apply (write_nfc_order pla_record fresh_loopback).
  vm_compute. reflexivity.
Defined.

(** C3 (as stated) fails: with a mapping that has the key [id] only, the
    transaction stops after the write of [filament_id]; its last bus write
    is not Commit. *)
Lemma write_nfc_order_counterexample :
  fst (_write_nfc id_only_record fresh_loopback) = Raise (KeyError "name")
  /\ bus_log (snd (_write_nfc id_only_record fresh_loopback))
     = [WriteBlock 0x50 0x02 [7; 0; 0; 0]]
  /\ last (bus_log (snd (_write_nfc id_only_record fresh_loopback)))
     <> Some (commit_call 0x50).
Proof.
  split; [vm_compute; reflexivity|].
  split; [vm_compute; reflexivity|].
  vm_compute. discriminate.
Qed.

Lemma loopback_block_writes_succeed : block_writes_succeed Loopback.
Proof. intros b a r d. reflexivity. Qed.

Lemma write_nfc_missing_key_witness :
  In "name"%string mandatory_keys
  /\ id_only_record !! "name" = None
  /\ exists e self' L,
       _write_nfc id_only_record fresh_loopback = (Raise e, self')
       /\ issued fresh_loopback self' L
       /\ e = KeyError "name"
       /\ map call_register L = [0x02].
Proof.
  assert (In "name"%string mandatory_keys) as Hin by (cbn; tauto).
  assert (id_only_record !! "name" = None) as Hnone by reflexivity.
  split; [exact Hin|]. split; [exact Hnone|].
  destruct (write_nfc_missing_key id_only_record "name" fresh_loopback
              Hin Hnone) as (e & self' & L & Hrun & Hi & _ & Hcond).
  exists e, self', L. split; [exact Hrun|]. split; [exact Hi|].
  apply Hcond; [|exact loopback_block_writes_succeed].
  intros k' Hk'. cbn in Hk'. destruct Hk' as [<-|[]].
  exists (VInt 7). split; [reflexivity|].
  exists [7; 0; 0; 0]. reflexivity.
Defined.

(** C10 (as stated) fails: a mapping without [name] whose [id] does not
    fit 32 bits makes the first write raise [struct.error]; no [KeyError]
    is raised. *)
Lemma write_nfc_missing_key_counterexample :
  big_id_record !! "name" = None
  /\ fst (_write_nfc big_id_record fresh_loopback) = Raise StructError
  /\ forall k, fst (_write_nfc big_id_record fresh_loopback)
               <> Raise (KeyError k).
Proof.
  split; [reflexivity|].
  assert (fst (_write_nfc big_id_record fresh_loopback) = Raise StructError)
    as E by (vm_compute; reflexivity).
  split; [exact E|]. intros k. rewrite E. discriminate.
Qed.

(** ** The scenario of the spool of PLA *)

(** C5 (as amended). Writing the record [{id: 7, name: "PLA",
    spool_weight: 200, total_weight: 950, pressure_advance: 0.045}] issues
    exactly seven register writes ([filament_id], [filament_name_len],
    [filament_name], [spool_weight], [total_weight], [pressure_advance],
    then [opt_bitmap] with the byte 2, that is exactly bit 1 set) followed
    by exactly one Commit write. *)
Theorem write_pla_calls (self : FilaMan Loopback) :
  let a := dev_addr self in
  fst (_write_nfc pla_record self) = Ok tt
  /\ issued self (snd (_write_nfc pla_record self))
       [WriteBlock a 0x02 [7; 0; 0; 0];
        WriteBlock a 0x03 [3; 0; 0; 0];
        WriteBlock a 0x04 [80; 76; 65];
        WriteBlock a 0x05 [200; 0; 0; 0];
        WriteBlock a 0x06 [182; 3; 0; 0];
        WriteBlock a 0x09 [236; 81; 56; 61];
        WriteByteData a 0x07 (VInt 2);
        commit_call a]
  /\ forall n, 0 <= n < 8 -> _get_bit 2 n = (n =? 1).
Proof.
  destruct self as [b a st sn lg]. cbn [dev_addr]. split; [|split].
  - vm_compute. reflexivity.
  - unfold issued.
    assert (bus_log (snd (_write_nfc pla_record (MkFilaMan b a st sn lg)))
            = (((((((lg ++ [WriteBlock a 0x02 [7; 0; 0; 0]])
                     ++ [WriteBlock a 0x03 [3; 0; 0; 0]])
                    ++ [WriteBlock a 0x04 [80; 76; 65]])
                   ++ [WriteBlock a 0x05 [200; 0; 0; 0]])
                  ++ [WriteBlock a 0x06 [182; 3; 0; 0]])
                 ++ [WriteBlock a 0x09 [236; 81; 56; 61]])
                ++ [WriteByteData a 0x07 (VInt 2)])
               ++ [commit_call a]) as ->
      by (vm_compute; reflexivity).
    cbn [bus_log]. rewrite <- !app_assoc. reflexivity.
  - intros n Hn.
    assert (n = 0 \/ n = 1 \/ n = 2 \/ n = 3 \/ n = 4 \/ n = 5 \/ n = 6
            \/ n = 7) as Hcases by lia.
    repeat (destruct Hcases as [->|Hcases]; [reflexivity|]).
    subst. reflexivity.
Qed.

(** C5 (as stated) fails: the calls before the Commit are seven, not six. *)
Lemma write_pla_counterexample :
  length (bus_log (snd (_write_nfc pla_record fresh_loopback))) = 8%nat
  /\ ~ exists ws,
         bus_log (snd (_write_nfc pla_record fresh_loopback))
         = ws ++ [commit_call 0x50]
         /\ length ws = 6%nat.
Proof.
  assert (length (bus_log (snd (_write_nfc pla_record fresh_loopback)))
          = 8%nat) as E by (vm_compute; reflexivity).
  split; [exact E|]. intros (ws & Hws & Hlen).
  rewrite Hws, length_app, Hlen in E. simpl in E. lia.
Qed.

(** ** String transfer *)

(** C2: the code at a name of twenty two-byte characters. The name is not
    cut (it has fewer than 32 code points), all of its 40 bytes are
    written, and the length register receives 20, the number of code
    points: neither the 32-byte limit nor the byte length of the claim. *)
Theorem write_str_40_bytes :
  Utf8.encode (repeat 233 20) = Ok (concat (repeat [195; 169] 20))
  /\ length (concat (repeat [195; 169] 20)) = 40%nat
  /\ fst (_write_str 0x04 name_40_bytes 0x03 fresh_loopback) = Ok tt
  /\ bus_log (snd (_write_str 0x04 name_40_bytes 0x03 fresh_loopback))
     = [WriteBlock 0x50 0x03 [20; 0; 0; 0];
        WriteBlock 0x50 0x04 (concat (repeat [195; 169] 20))].
Proof. repeat split; vm_compute; reflexivity. Qed.

(** C9. For every requested length [n], [_read_str] makes exactly one call
    on the bus, a block read of [min(32, n)] bytes at the given register,
    and returns the bytes read decoded as UTF-8 (or the error of the bus or
    of the decoder). *)
Theorem read_str_clamps {B : Type} `{SMBus B} (register n : Z)
    (self : FilaMan B) :
  issued self (snd (_read_str register (VInt n) self))
    [ReadBlock (dev_addr self) register (Z.min 32 n)]
  /\ fst (_read_str register (VInt n) self)
     = match fst (read_i2c_block_data (bus self) (dev_addr self) register
                    (Z.min 32 n)) with
       | Ok buf => bytes_decode buf
       | Raise e => Raise e
       end.
Proof.
  unfold _read_str, bytes_decode, bind, as_int, ret, lift,
    bus_read_i2c_block_data, issued.
  destruct (read_i2c_block_data _ _ _ _) as [[buf|e] b]; cbn [fst snd].
  - destruct (Struct.bytearray buf) as [bs|e]; [|split; reflexivity].
    destruct (Utf8.decode bs) as [s|e]; split; reflexivity.
  - split; reflexivity.
Qed.

(** ** The generic path on a string register *)

(** C8: the code at a register of type [STR]. Both generic paths raise
    [AttributeError] (the object has no attribute [system]), not the
    server error with the message about string values; no call is made on
    the bus. *)
Theorem string_register_generic_path {B : Type} `{SMBus B} (a : Z)
    (v : value) (self : FilaMan B) :
  _read_register (RegVal a STR) self = (Raise (AttributeError "system"), self)
  /\ _write_register (RegVal a STR) v self
     = (Raise (AttributeError "system"), self)
  /\ items_get BUS_REGISTERS "filament_name" = Ok (RegVal 0x04 STR).
Proof. repeat split; reflexivity. Qed.

(** ** The presence interrupt *)

(** C7: the code at the interrupt. On a freshly constructed component the
    handler raises [KeyError] for [present], makes no call on the bus and
    sends nothing. With a cached status whose [present] is false it sends
    that cached status, again without any call on the bus: the registers
    [present] and [nfc_valid] are not read. *)
Theorem interrupt_uses_cached_status {B : Type} `{SMBus B} (b : B) (addr : Z)
    (t1 t2 : spec_float) (pressed : Z) :
  _on_int_event t1 t2 pressed (FilaMan_init b addr)
  = (Raise (KeyError "present"), FilaMan_init b addr)
  /\ forall (nfc : value) (sn : list (string * gmap string value))
            (lg : list bus_call),
       let cached : gmap string value :=
         {[ "present" := VBool false; "nfc_valid" := nfc ]} in
       _on_int_event t1 t2 pressed (MkFilaMan b addr cached sn lg)
       = (Ok tt,
          MkFilaMan b addr cached (sn ++ [(FILAMENT_CHANGED_NOTIF, cached)]) lg).
Proof.
  split; [reflexivity|]. intros nfc sn lg cached. reflexivity.
Qed.

(** ** The optional bitmap and the operation register *)

(** C4: the code at a bitmap with bit 7 set, and at a mapping with the key
    [operation]. The operation register at [0x0F] passes the test of the
    loops: [_read_nfc] reads it under control of bit 7 and returns it as
    the field [operation]; [_write_nfc] sets bit 7 and writes the value of
    the key to the operation register before the optional fields. *)
Theorem operation_register_is_optional :
  (exists d,
     fst (_read_nfc (FilaMan_init device_bit7 0x50)) = Ok d
     /\ d !! "operation" = Some (VInt 0))
  /\ In (ReadByteData 0x50 0x0F)
        (bus_log (snd (_read_nfc (FilaMan_init device_bit7 0x50))))
  /\ bus_log (snd (_write_nfc operation_record fresh_loopback))
     = [WriteBlock 0x50 0x02 [7; 0; 0; 0];
        WriteBlock 0x50 0x03 [3; 0; 0; 0];
        WriteBlock 0x50 0x04 [80; 76; 65];
        WriteBlock 0x50 0x05 [200; 0; 0; 0];
        WriteBlock 0x50 0x06 [182; 3; 0; 0];
        WriteByteData 0x50 0x0F (VInt 5);
        WriteBlock 0x50 0x09 [236; 81; 56; 61];
        WriteByteData 0x50 0x07 (VInt 130);
        commit_call 0x50]
  /\ _get_bit 130 7 = true.
Proof.
  split; [|split; [|split]].
  - eexists. split; [vm_compute; reflexivity|]. vm_compute. reflexivity.
  - vm_compute. tauto.
  - vm_compute. reflexivity.
  - reflexivity.
Qed.

(** * Further properties *)

(** ** The bit operations *)

(** X1. Setting bit [n] of a bitmap and then testing bit [m] gives true
    exactly when [m] is [n] or bit [m] was set before: [_set_bit] sets its
    bit and leaves every other bit as it was. *)
Theorem get_bit_set_bit (value n m : Z) :
  0 <= n -> 0 <= m ->
  _get_bit (_set_bit value n) m = (n =? m) || _get_bit value m.
Proof.
  intros Hn Hm. rewrite !get_bit_testbit by exact Hm.
  unfold _set_bit. rewrite Z.lor_spec, testbit_one_shifted by assumption.
  apply orb_comm.
Qed.

Lemma get_bit_set_bit_witness :
  _get_bit (_set_bit 0 5) 5 = (5 =? 5) || _get_bit 0 5.
Proof. apply get_bit_set_bit; lia. Defined.

(** ** What a method may do to the object and to the bus *)
Section Confined.
Context {B : Type} `{SMBus B}.
Implicit Types self : FilaMan B.
Variable P : bus_call -> bool.
Variable keep : bool.

Lemma confined_pure {A} (r : result A) : confined P keep (lift r : M B A).
Proof.
  intros self res self' E. inversion E; subst.
  repeat split; try reflexivity.
  exists []. split; [apply issued_refl|constructor].
Qed.

Lemma confined_ret {A} (a : A) : confined P keep (ret a : M B A).
Proof. apply (confined_pure (Ok a)). Qed.

Lemma confined_raise {A} (e : exn) : confined P keep (raise e : M B A).
Proof. apply (confined_pure (Raise e)). Qed.

Lemma confined_bind {A C} (m : M B A) (k : A -> M B C) :
  confined P keep m -> (forall a, confined P keep (k a)) ->
  confined P keep (bind m k).
Proof.
  intros Hm Hk self res self' E. unfold bind in E.
  destruct (m self) as [[a|e] s1] eqn:E1.
  - destruct (Hm _ _ _ E1) as (Ha1 & Hs1 & Hst1 & L1 & Hi1 & Hf1).
    destruct (Hk a _ _ _ E) as (Ha2 & Hs2 & Hst2 & L2 & Hi2 & Hf2).
    split; [congruence|]. split; [congruence|].
    split; [intros Hkeep; rewrite (Hst2 Hkeep); exact (Hst1 Hkeep)|].
    exists (L1 ++ L2). split; [exact (issued_trans _ _ _ _ _ Hi1 Hi2)|].
    apply Forall_app. split; [exact Hf1|].
    rewrite Ha1 in Hf2. exact Hf2.
  - inversion E; subst. exact (Hm _ _ _ E1).
Qed.

Lemma confined_for_items {A S} (items : list A) (body : A -> S -> M B S) :
  (forall x acc, confined P keep (body x acc)) ->
  forall acc, confined P keep (for_items items body acc).
Proof.
  intros Hbody. induction items as [|x items IH]; intros acc.
  - apply confined_ret.
  - cbn [for_items]. apply confined_bind; [apply Hbody|exact IH].
Qed.

Lemma confined_getitem (d : gmap string value) (k : string) :
  confined P keep (getitem d k : M B value).
Proof.
  unfold getitem. destruct (d !! k); [apply confined_ret|apply confined_raise].
Qed.

Lemma confined_as_int (v : value) : confined P keep (as_int v : M B Z).
Proof.
  destruct v; first [apply confined_ret|apply confined_raise].
Qed.

Lemma confined_call (c : bus_call) self (b : B) :
  P c = true -> call_addr c = dev_addr self ->
  dev_addr (called self b c) = dev_addr self
  /\ sent (called self b c) = sent self
  /\ (keep = true -> status (called self b c) = status self)
  /\ exists L, issued self (called self b c) L
               /\ Forall (fun c => P c = true /\ call_addr c = dev_addr self) L.
Proof.
  intros Hp Ha. repeat split; try reflexivity.
  exists [c]. split; [reflexivity|]. repeat constructor; assumption.
Qed.
End Confined.

Section ConfinedBus.
Context {B : Type} `{SMBus B}.
Implicit Types self : FilaMan B.

Lemma confined_write_block (keep : bool) (r : Z) (d : list Z) :
  confined is_write keep (bus_write_i2c_block_data r d).
Proof.
  intros self res self' E. unfold bus_write_i2c_block_data in E.
  destruct (write_i2c_block_data _ _ _ _) as [res0 b].
  inversion E; subst. apply confined_call; reflexivity.
Qed.

Lemma confined_write_byte (keep : bool) (r : Z) (v : value) :
  confined is_write keep (bus_write_byte_data r v).
Proof.
  intros self res self' E. unfold bus_write_byte_data in E.
  destruct (write_byte_data _ _ _ _) as [res0 b].
  inversion E; subst. apply confined_call; reflexivity.
Qed.

Lemma confined_read_block (keep : bool) (r n : Z) :
  confined is_read keep (bus_read_i2c_block_data r n).
Proof.
  intros self res self' E. unfold bus_read_i2c_block_data in E.
  destruct (read_i2c_block_data _ _ _ _) as [res0 b].
  inversion E; subst. apply confined_call; reflexivity.
Qed.

Lemma confined_read_byte (keep : bool) (r : Z) :
  confined is_read keep (bus_read_byte_data r).
Proof.
  intros self res self' E. unfold bus_read_byte_data in E.
  destruct (read_byte_data _ _ _) as [res0 b].
  inversion E; subst. apply confined_call; reflexivity.
Qed.

End ConfinedBus.

Ltac confine_step :=
  match goal with
  | |- confined _ _ (for_items _ _ _) =>
      apply confined_for_items; intros [? ?] ?
  | |- confined _ _ (bind _ _) => apply confined_bind; [|intros ?]
  | |- confined _ _ (lift _) => apply confined_pure
  | |- confined _ _ (ret _) => apply confined_ret
  | |- confined _ _ (raise _) => apply confined_raise
  | |- confined _ _ (getitem _ _) => apply confined_getitem
  | |- confined _ _ (as_int _) => apply confined_as_int
  | |- confined _ _ (bus_write_i2c_block_data _ _) =>
      apply confined_write_block
  | |- confined _ _ (bus_write_byte_data _ _) => apply confined_write_byte
  | |- confined _ _ (bus_read_i2c_block_data _ _) =>
      apply confined_read_block
  | |- confined _ _ (bus_read_byte_data _) => apply confined_read_byte
  end.

Ltac confine := repeat confine_step.

Section ConfinedRegisters.
Context {B : Type} `{SMBus B}.
Implicit Types self : FilaMan B.

Lemma confined_write_register (keep : bool) (rv : reg_val) (v : value) :
  confined is_write keep (_write_register rv v).
Proof.
  unfold _write_register.
  destruct (type rv);
    unfold _write_int, _write_float, _write_bool, _write_byte, self_system;
    confine.
Qed.

Lemma confined_read_register (keep : bool) (rv : reg_val) :
  confined is_read keep (_read_register rv).
Proof.
  unfold _read_register.
  destruct (type rv);
    unfold _read_int, _read_float, _read_bool, _read_byte, self_system;
    confine.
Qed.

Lemma confined_write_str (keep : bool) (r rl : Z) (v : value) :
  confined is_write keep (_write_str r v rl).
Proof.
  unfold _write_str. destruct v; unfold _write_int; confine.
Qed.

Lemma confined_read_str (keep : bool) (r : Z) (v : value) :
  confined is_read keep (_read_str r v).
Proof. unfold _read_str. confine. Qed.

End ConfinedRegisters.

Ltac confine_methods :=
  repeat first
    [ confine_step
    | match goal with
      | |- confined _ _ (_write_register _ _) =>
          apply confined_write_register
      | |- confined _ _ (_read_register _) => apply confined_read_register
      | |- confined _ _ (_write_str _ _ _) => apply confined_write_str
      | |- confined _ _ (_read_str _ _) => apply confined_read_str
      end ].

Section ConfinedRecord.
Context {B : Type} `{SMBus B}.
Implicit Types self : FilaMan B.

Lemma confined_write_nfc (data : gmap string value) :
  confined is_write true (_write_nfc data).
Proof.
  unfold _write_nfc, _write_operation. confine_methods.
  - unfold write_opt.
    destruct (reg _ <? BUS_REG_OPT_START); [apply confined_ret|].
    destruct (data !! _); confine_methods.
  - unfold _write_byte. confine.
Qed.

Lemma confined_read_nfc : confined is_read true _read_nfc.
Proof.
  unfold _read_nfc. confine_methods.
  unfold read_opt.
  destruct (reg _ <? BUS_REG_OPT_START); [apply confined_ret|].
  destruct (_get_bitmap_val _ _); confine_methods.
Qed.

Lemma confined_snd {A} (P : bus_call -> bool) (m : M B A) self :
  confined P true m ->
  dev_addr (snd (m self)) = dev_addr self
  /\ sent (snd (m self)) = sent self
  /\ status (snd (m self)) = status self
  /\ exists L, bus_log (snd (m self)) = bus_log self ++ L
               /\ Forall (fun c => P c = true /\ call_addr c = dev_addr self) L.
Proof.
  intros Hc. destruct (m self) as [res self'] eqn:E.
  destruct (Hc _ _ _ E) as (Ha & Hs & Hst & L & Hi & Hf).
  cbn [snd]. split; [exact Ha|]. split; [exact Hs|].
  split; [exact (Hst eq_refl)|]. exists L. split; [exact Hi|exact Hf].
Qed.
End ConfinedRecord.

(** X2. Whatever the mapping, the bus and the outcome (return or raise),
    every call that [_write_nfc] makes on the bus is a write to the device
    address, and the object keeps its device address, its cached status and
    its sent events: a write transaction never reads a register. *)
Theorem write_nfc_only_writes {B : Type} `{SMBus B}
    (data : gmap string value) (self : FilaMan B) :
  dev_addr (snd (_write_nfc data self)) = dev_addr self
  /\ sent (snd (_write_nfc data self)) = sent self
  /\ status (snd (_write_nfc data self)) = status self
  /\ exists L, bus_log (snd (_write_nfc data self)) = bus_log self ++ L
               /\ Forall (fun c => is_write c = true
                                   /\ call_addr c = dev_addr self) L.
Proof. apply confined_snd, confined_write_nfc. Qed.

(** X3. Whatever the device and the outcome (return or raise), every call
    that [_read_nfc] makes on the bus is a read at the device address, and
    the object keeps its device address, its cached status and its sent
    events: reading a record never writes a register. *)
Theorem read_nfc_only_reads {B : Type} `{SMBus B} (self : FilaMan B) :
  dev_addr (snd (_read_nfc self)) = dev_addr self
  /\ sent (snd (_read_nfc self)) = sent self
  /\ status (snd (_read_nfc self)) = status self
  /\ exists L, bus_log (snd (_read_nfc self)) = bus_log self ++ L
               /\ Forall (fun c => is_read c = true
                                   /\ call_addr c = dev_addr self) L.
Proof. apply confined_snd, confined_read_nfc. Qed.

(** ** The reads of a record, on any bus *)
Section ReadCalls.
Context {B : Type} `{SMBus B}.
Implicit Types self : FilaMan B.

Lemma bus_read_block_calls (r n : Z) self res self' :
  bus_read_i2c_block_data r n self = (res, self') ->
  dev_addr self' = dev_addr self
  /\ issued self self' [ReadBlock (dev_addr self) r n].
Proof.
  unfold bus_read_i2c_block_data.
  destruct (read_i2c_block_data _ _ _ _) as [res0 b].
  intros E. inversion E; subst. split; reflexivity.
Qed.

Lemma bus_read_byte_calls (r : Z) self res self' :
  bus_read_byte_data r self = (res, self') ->
  dev_addr self' = dev_addr self
  /\ issued self self' [ReadByteData (dev_addr self) r].
Proof.
  unfold bus_read_byte_data.
  destruct (read_byte_data _ _ _) as [res0 b].
  intros E. inversion E; subst. split; reflexivity.
Qed.

Lemma read_then_decode_calls {C} (r n : Z) (k : list Z -> M B C)
    self res self' :
  (forall buf s r' s', k buf s = (r', s') -> s' = s) ->
  bind (bus_read_i2c_block_data r n) k self = (res, self') ->
  dev_addr self' = dev_addr self
  /\ issued self self' [ReadBlock (dev_addr self) r n].
Proof.
  intros Hk E. unfold bind in E.
  destruct (bus_read_i2c_block_data r n self) as [[buf|e] s1] eqn:E1.
  - apply Hk in E. subst s1. exact (bus_read_block_calls _ _ _ _ _ E1).
  - inversion E; subst. exact (bus_read_block_calls _ _ _ _ _ E1).
Qed.

Lemma lift2_state {A C} (f : list Z -> result A) (g : A -> result C)
    (w : C -> value) (buf : list Z) self r' s' :
  (let! b := lift (f buf) in let! x := lift (g b) in ret (w x)) self
  = (r', s') -> s' = self.
Proof.
  unfold bind, lift, ret. destruct (f buf) as [b|e]; [|intros E; inversion E; auto].
  destruct (g b); intros E; inversion E; auto.
Qed.

Lemma read_register_call (rv : reg_val) self res self' :
  type rv <> STR ->
  _read_register rv self = (res, self') ->
  dev_addr self' = dev_addr self
  /\ issued self self' [read_call (dev_addr self) rv].
Proof.
  intros Hty. unfold _read_register, read_call.
  destruct (type rv); try contradiction.
  - (* BOOL *)
    unfold _read_bool, bind. intros E.
    destruct (bus_read_byte_data (reg rv) self) as [[v|e] s1] eqn:E1;
      inversion E; subst; exact (bus_read_byte_calls _ _ _ _ E1).
  - (* INT *)
    unfold _read_int. intros E.
    apply read_then_decode_calls in E; [exact E|].
    intros buf s r' s' E'.
    exact (lift2_state Struct.bytearray Struct.unpack_i VInt buf s r' s' E').
  - (* FLOAT *)
    unfold _read_float. intros E.
    apply read_then_decode_calls in E; [exact E|].
    intros buf s r' s' E'.
    exact (lift2_state Struct.bytearray Struct.unpack_f VFloat buf s r' s' E').
  - (* BYTE *)
    unfold _read_byte, bind. intros E.
    destruct (bus_read_byte_data (reg rv) self) as [[v|e] s1] eqn:E1;
      inversion E; subst; exact (bus_read_byte_calls _ _ _ _ E1).
Qed.

Lemma le_decode_range (b : list Z) :
  forallb Struct.is_byte b = true ->
  0 <= Struct.le_decode b < 256 ^ Z.of_nat (length b).
Proof.
  induction b as [|x b IH]; intros Hb; [simpl; lia|].
  cbn [forallb] in Hb. apply andb_true_iff in Hb as [Hx Hb].
  unfold Struct.is_byte in Hx. apply andb_true_iff in Hx as [Hx1 Hx2].
  apply Z.leb_le in Hx1. apply Z.ltb_lt in Hx2.
  specialize (IH Hb). cbn [Struct.le_decode length].
  rewrite Nat2Z.inj_succ, Z.pow_succ_r by lia. lia.
Qed.

Lemma bytearray_ok_inv (buf b : list Z) :
  Struct.bytearray buf = Ok b -> b = buf /\ forallb Struct.is_byte b = true.
Proof.
  unfold Struct.bytearray. destruct (forallb Struct.is_byte buf) eqn:E;
    intros Hb; [inversion Hb; subst; auto|discriminate].
Qed.

Lemma unpack_i_range (b : list Z) (z : Z) :
  forallb Struct.is_byte b = true -> Struct.unpack_i b = Ok z ->
  -2147483648 <= z <= 2147483647.
Proof.
  intros Hb. unfold Struct.unpack_i.
  destruct (length b =? 4)%nat eqn:Hlen; [|discriminate].
  apply Nat.eqb_eq in Hlen. pose proof (le_decode_range b Hb) as Hr.
  rewrite Hlen in Hr. change (256 ^ Z.of_nat 4) with 4294967296 in Hr.
  intros E. apply Ok_inj in E. subst z.
  destruct (Struct.le_decode b <? 2147483648) eqn:Hlt;
    [apply Z.ltb_lt in Hlt|apply Z.ltb_ge in Hlt]; lia.
Qed.

(** What the generic read path returns for a register of each type. *)
Lemma read_register_value (rv : reg_val) self v self' :
  _read_register rv self = (Ok v, self') ->
  match type rv with
  | INT => exists z, v = VInt z /\ -2147483648 <= z <= 2147483647
  | FLOAT => exists f, v = VFloat f
  | BOOL => exists b, v = VBool b
  | BYTE => exists z, v = VInt z
  | STR => False
  end.
Proof.
  unfold _read_register. destruct (type rv).
  - unfold _read_bool. intros E.
    apply bind_ok_inv in E as (x & s1 & _ & E). inversion E. eauto.
  - unfold _read_int. intros E.
    apply bind_ok_inv in E as (buf & s1 & _ & E).
    apply bind_ok_inv in E as (b & s2 & E2 & E).
    apply lift_ok_inv in E2 as [E2 _].
    apply bytearray_ok_inv in E2 as [_ Hb].
    apply bind_ok_inv in E as (z & s3 & E3 & E).
    apply lift_ok_inv in E3 as [E3 _]. inversion E; subst.
    exists z. split; [reflexivity|]. exact (unpack_i_range b z Hb E3).
  - unfold _read_float. intros E.
    apply bind_ok_inv in E as (buf & s1 & _ & E).
    apply bind_ok_inv in E as (b & s2 & _ & E).
    apply bind_ok_inv in E as (x & s3 & _ & E). inversion E. eauto.
  - intros E. discriminate.
  - unfold _read_byte. intros E.
    apply bind_ok_inv in E as (x & s1 & _ & E). inversion E. eauto.
Qed.
End ReadCalls.

Section ReadOrder.
Context {B : Type} `{SMBus B}.
Implicit Types self : FilaMan B.

Lemma read_loop_calls (bm : Z) (items : list (string * reg_val)) :
  (forall kr, In kr items -> BUS_REG_OPT_START <= reg (snd kr) ->
              type (snd kr) <> STR) ->
  forall acc self acc' self',
    for_items items (read_opt bm) acc self = (Ok acc', self') ->
    let chosen :=
      List.filter (fun kr => _get_bitmap_val bm (reg (snd kr)))
        (List.filter (fun kr => BUS_REG_OPT_START <=? reg (snd kr)) items) in
    dev_addr self' = dev_addr self
    /\ issued self self' (map (fun kr => read_call (dev_addr self) (snd kr)) chosen)
    /\ forall k, is_Some (acc' !! k)
                 <-> is_Some (acc !! k) \/ In k (map fst chosen).
Proof.
  induction items as [|[k rv] items IH]; intros Hty acc self acc' self' E.
  - inversion E; subst. cbn. split; [reflexivity|].
    split; [apply issued_refl|]. intros k. tauto.
  - assert (forall kr, In kr items -> BUS_REG_OPT_START <= reg (snd kr) ->
              type (snd kr) <> STR) as Hty'
      by (intros kr Hin; apply Hty; right; exact Hin).
    cbn [for_items List.filter] in *. unfold read_opt at 1 in E.
    cbn [fst snd] in *.
    destruct (reg rv <? BUS_REG_OPT_START) eqn:Hlow.
    + assert ((BUS_REG_OPT_START <=? reg rv) = false) as ->
        by (apply Z.ltb_lt in Hlow; apply Z.leb_gt; lia).
      apply (IH Hty' acc self acc' self' E).
    + apply Z.ltb_ge in Hlow.
      assert ((BUS_REG_OPT_START <=? reg rv) = true) as ->
        by (apply Z.leb_le; lia).
      cbn [List.filter snd].
      destruct (_get_bitmap_val bm (reg rv)).
      * apply bind_ok_inv in E as (acc1 & s1 & E1 & E).
        apply bind_ok_inv in E1 as (v & s0 & E0 & E1).
        inversion E1; subst acc1 s1.
        apply read_register_call in E0 as [Ha0 Hi0];
          [|apply (Hty (k, rv)); [left; reflexivity|exact Hlow]].
        destruct (IH Hty' _ _ _ _ E) as (Ha & Hi & Hdom).
        split; [congruence|]. split.
        -- cbn [map]. rewrite Ha0 in Hi.
           exact (issued_trans _ _ _ [_] _ Hi0 Hi).
        -- intros k'. rewrite Hdom. cbn [map fst In].
           rewrite lookup_insert_is_Some. 
           destruct (decide (k = k')); intuition.
      * apply bind_ok_inv in E as (acc1 & s1 & E1 & E).
        inversion E1; subst acc1 s1.
        apply (IH Hty' acc self acc' self' E).
Qed.

Lemma catalog_optional_not_str (kr : string * reg_val) :
  In kr BUS_REGISTERS -> BUS_REG_OPT_START <= reg (snd kr) ->
  type (snd kr) <> STR.
Proof.
  intros Hin Hge. rewrite BUS_REG_OPT_START_eq in Hge.
  unfold BUS_REGISTERS in Hin.
  repeat (destruct Hin as [<-|Hin]; [cbn in *; first [lia|discriminate]|]).
  contradiction.
Qed.

Lemma read_nfc_calls self d self' :
  _read_nfc self = (Ok d, self') ->
  exists n bm,
    issued self self'
      ([ReadBlock (dev_addr self) 0x03 4;
        ReadBlock (dev_addr self) 0x02 4;
        ReadBlock (dev_addr self) 0x04 (Z.min 32 n);
        ReadBlock (dev_addr self) 0x05 4;
        ReadBlock (dev_addr self) 0x06 4;
        ReadByteData (dev_addr self) 0x07]
         ++ map (fun kr => read_call (dev_addr self) (snd kr))
              (selected_items bm))
    /\ (forall k, is_Some (d !! k)
                  <-> In k mandatory_keys
                      \/ In k (map fst (selected_items bm))).
Proof.
  intros E. unfold _read_nfc in E.
  inv_lift E. apply bind_ok_inv in E as (vlen & s1 & E1 & E).
  pose proof (read_register_value _ _ _ _ E1) as (n & -> & _).
  apply read_register_call in E1 as [Ha1 Hi1]; [|discriminate].
  inv_lift E. apply bind_ok_inv in E as (vid & s2 & E2 & E).
  apply read_register_call in E2 as [Ha2 Hi2]; [|discriminate].
  inv_lift E. apply bind_ok_inv in E as (vname & s3 & E3 & E).
  unfold _read_str in E3. cbn [reg] in E3.
  apply bind_ok_inv in E3 as (n' & s0 & E0 & E3).
  inversion E0; subst n' s0.
  apply read_then_decode_calls in E3 as [Ha3 Hi3].
  2: { intros buf s r' s' E'. unfold bind, lift, ret in E'.
       destruct (Struct.bytearray buf) as [bs|e]; [|inversion E'; auto].
       destruct (Utf8.decode bs); inversion E'; auto. }
  inv_lift E. apply bind_ok_inv in E as (vsw & s4 & E4 & E).
  apply read_register_call in E4 as [Ha4 Hi4]; [|discriminate].
  inv_lift E. apply bind_ok_inv in E as (vtw & s5 & E5 & E).
  apply read_register_call in E5 as [Ha5 Hi5]; [|discriminate].
  inv_lift E. apply bind_ok_inv in E as (vbm & s6 & E6 & E).
  pose proof (read_register_value _ _ _ _ E6) as (bm & ->).
  apply read_register_call in E6 as [Ha6 Hi6]; [|discriminate].
  apply bind_ok_inv in E as (bm' & s7 & E7 & E).
  inversion E7; subst bm' s7.
  apply read_loop_calls in E as (Ha7 & Hi7 & Hdom);
    [|exact catalog_optional_not_str].
  exists n, bm. split.
  - pose proof (issued_trans _ _ _ _ _ Hi1
                 (issued_trans _ _ _ _ _ Hi2
                    (issued_trans _ _ _ _ _ Hi3
                       (issued_trans _ _ _ _ _ Hi4
                          (issued_trans _ _ _ _ _ Hi5
                             (issued_trans _ _ _ _ _ Hi6 Hi7))))))
      as Hall.
    unfold read_call in Hall at 1 2 3 4 5. cbn [type reg] in Hall.
    rewrite Ha2, Ha1 in Hall at 1.
    replace (dev_addr s1) with (dev_addr self) in Hall by congruence.
    replace (dev_addr s2) with (dev_addr self) in Hall by congruence.
    replace (dev_addr s3) with (dev_addr self) in Hall by congruence.
    replace (dev_addr s4) with (dev_addr self) in Hall by congruence.
    replace (dev_addr s5) with (dev_addr self) in Hall by congruence.
    replace (dev_addr s6) with (dev_addr self) in Hall by congruence.
    exact Hall.
  - intros k. rewrite Hdom. fold optional_items. fold (selected_items bm).
    rewrite !lookup_insert_is_Some, lookup_empty.
    unfold mandatory_keys. cbn [In].
    split.
    + intros [Hm|Hs]; [left|right; exact Hs].
      destruct Hm as [?|[_ [?|[_ [?|[_ [?|[_ Hm]]]]]]]]; subst; auto.
      destruct Hm as [x Hx]. discriminate.
    + intros [Hm|Hs]; [left|right; exact Hs].
      destruct Hm as [<-|[<-|[<-|[<-|[]]]]].
      * right. split; [discriminate|]. right. split; [discriminate|].
        right. split; [discriminate|]. left. reflexivity.
      * right. split; [discriminate|]. right. split; [discriminate|].
        left. reflexivity.
      * right. split; [discriminate|]. left. reflexivity.
      * left. reflexivity.
Qed.
End ReadOrder.



(** ** The status poll *)
Section StatusPoll.
Context {B : Type} `{SMBus B}.
Implicit Types self : FilaMan B.

Lemma read_status_calls self st self' :
  _read_status self = (Ok st, self') ->
  exists p n : bool,
    st = <["nfc_valid" := VBool n]> (<["present" := VBool p]> (status self))
    /\ status self' = st
    /\ sent self' = sent self
    /\ dev_addr self' = dev_addr self
    /\ issued self self'
         [ReadByteData (dev_addr self) 0x00;
          ReadByteData (dev_addr self) 0x01].
Proof.
  intros E. unfold _read_status in E.
  inv_lift E. apply bind_ok_inv in E as (v1 & s1 & E1 & E).
  pose proof (read_register_value _ _ _ _ E1) as (p & ->).
  pose proof (confined_read_register true _ _ _ _ E1)
    as (_ & Hs1 & Hst1 & _).
  apply read_register_call in E1 as [Ha1 Hi1]; [|discriminate].
  apply bind_ok_inv in E as ([] & s2 & E2 & E).
  inversion E2; subst s2. clear E2.
  inv_lift E. apply bind_ok_inv in E as (v2 & s3 & E3 & E).
  pose proof (read_register_value _ _ _ _ E3) as (n & ->).
  pose proof (confined_read_register true _ _ _ _ E3)
    as (_ & Hs3 & Hst3 & _).
  apply read_register_call in E3 as [Ha3 Hi3]; [|discriminate].
  apply bind_ok_inv in E as ([] & s4 & E4 & E).
  inversion E4; subst s4. clear E4.
  inversion E; subst st self'. clear E.
  cbn [status sent dev_addr bus_log] in *.
  exists p, n. rewrite Hst3, Hst1 by reflexivity.
  split; [reflexivity|]. split; [reflexivity|].
  split; [congruence|]. split; [congruence|].
  unfold issued in *. cbn [bus_log dev_addr] in *.
  rewrite Hi3. cbn [bus_log]. rewrite Hi1, Ha1. unfold read_call.
  cbn [type reg]. rewrite <- app_assoc. reflexivity.
Qed.
End StatusPoll.

(** X5. Whenever [_read_status] returns, on any bus, it made exactly two
    calls, byte reads of the registers [present] and [nfc_valid] in that
    order, and the dict it returns is the cached status with those two
    keys set to booleans; that dict is also the new cached status, and the
    other keys of the cache are kept. *)
Theorem read_status_reads_both {B : Type} `{SMBus B} (self : FilaMan B)
    (st : gmap string value) (self' : FilaMan B) :
  _read_status self = (Ok st, self') ->
  exists p n : bool,
    st = <["nfc_valid" := VBool n]> (<["present" := VBool p]> (status self))
    /\ status self' = st
    /\ sent self' = sent self
    /\ dev_addr self' = dev_addr self
    /\ issued self self'
         [ReadByteData (dev_addr self) 0x00;
          ReadByteData (dev_addr self) 0x01].
Proof. apply read_status_calls. Qed.

Lemma read_status_reads_both_witness :
  exists st self' (p n : bool),
    _read_status fresh_loopback = (Ok st, self')
    /\ st = <["nfc_valid" := VBool n]>
              (<["present" := VBool p]> (status fresh_loopback))
    /\ status self' = st
    /\ issued fresh_loopback self'
         [ReadByteData 0x50 0x00; ReadByteData 0x50 0x01].
Proof.
  eexists _, _.
  assert (_read_status fresh_loopback
          = (Ok (<["nfc_valid" := VBool false]>
                   (<["present" := VBool false]> ∅)),
             snd (_read_status fresh_loopback))) as E
    by (vm_compute; reflexivity).
  destruct (read_status_reads_both _ _ _ E)
    as (p & n & Hst & Hs & _ & _ & Hi).
  exists p, n. split; [exact E|]. split; [exact Hst|].
  split; [exact Hs|exact Hi].
Defined.

(** X6. A status poll is not atomic: when the read of [present] succeeds
    and the read of [nfc_valid] fails, [_read_status] raises the error of
    the bus, but the cached status already holds the new value of
    [present] (true exactly when the byte read is not zero). *)
Theorem read_status_not_atomic {B : Type} `{SMBus B} (self : FilaMan B)
    (v : Z) (b1 b2 : B) (e : exn) :
  read_byte_data (bus self) (dev_addr self) 0x00 = (Ok v, b1) ->
  read_byte_data b1 (dev_addr self) 0x01 = (Raise e, b2) ->
  fst (_read_status self) = Raise e
  /\ status (snd (_read_status self))
     = <["present" := VBool (negb (v =? 0))]> (status self).
Proof.
  intros E1 E2.
  unfold _read_status, bind, lift, _read_register, _read_bool, bind,
    bus_read_byte_data, set_status.
  cbn [items_get BUS_REGISTERS String.eqb Ascii.eqb Bool.eqb type reg].
  rewrite E1. cbn [ret dev_addr called bus status]. rewrite E2.
  split; reflexivity.
Qed.

Lemma read_status_not_atomic_witness :
  let run := @_read_status Fading fading_bus (FilaMan_init 1%nat 0x50) in
  fst run = Raise OSError
  /\ status (snd run) = <["present" := VBool (negb (1 =? 0))]> ∅.
Proof.
  apply (@read_status_not_atomic Fading fading_bus
           (FilaMan_init 1%nat 0x50) 1 O O OSError); reflexivity.
Defined.

(** ** The presence interrupt *)
Section Interrupt.
Context {B : Type} `{SMBus B}.
Implicit Types self : FilaMan B.

Lemma selected_items_names (bm : Z) (k : string) :
  In k (map fst (selected_items bm)) ->
  In k ["operation"; "extr_multiplier"; "pressure_advance"; "extr_temp";
        "bed_temp"; "regular_fan"; "bridge_fan"]%string.
Proof.
  intros Hin. apply in_map_iff in Hin as (kr & <- & Hin).
  unfold selected_items in Hin. apply filter_In in Hin as [Hin _].
  apply (in_map fst) in Hin. exact Hin.
Qed.

Lemma read_nfc_no_status_keys self d self' :
  _read_nfc self = (Ok d, self') ->
  d !! "present" = None /\ d !! "nfc_valid" = None.
Proof.
  intros E. apply read_nfc_calls in E as (n & bm & _ & Hdom).
  split; apply eq_None_not_Some; rewrite Hdom;
    (intros [Hm|Hs];
     [unfold mandatory_keys in Hm; cbn [In] in Hm;
      intuition discriminate
     |apply selected_items_names in Hs; cbn [In] in Hs;
      intuition discriminate]).
Qed.

(** The handler with a cached status that says present and valid. *)
Lemma notify_merges self (p n : value) :
  status self !! "present" = Some p -> truthy p = true ->
  status self !! "nfc_valid" = Some n -> truthy n = true ->
  _notify_filament_changed self
  = match _read_nfc self with
    | (Ok d, s1) =>
        (Ok tt, MkFilaMan (bus s1) (dev_addr s1) (status s1)
                  (sent s1 ++ [(FILAMENT_CHANGED_NOTIF, d ∪ status self)])
                  (bus_log s1))
    | (Raise e, s1) => (Raise e, s1)
    end.
Proof.
  intros Hp Tp Hn Tn.
  unfold _notify_filament_changed, bind, get_status, getitem.
  rewrite Hp. cbn [ret]. rewrite Tp, Hn. cbn [ret]. rewrite Tn.
  destruct (_read_nfc self) as [[d|e] s1]; reflexivity.
Qed.

(** The handler with a cached status that does not say both. *)
Lemma notify_cached self (p : value) :
  status self !! "present" = Some p ->
  (truthy p = false
   \/ exists n, status self !! "nfc_valid" = Some n /\ truthy n = false) ->
  _notify_filament_changed self
  = (Ok tt, MkFilaMan (bus self) (dev_addr self) (status self)
              (sent self ++ [(FILAMENT_CHANGED_NOTIF, status self)])
              (bus_log self)).
Proof.
  intros Hp Hor.
  unfold _notify_filament_changed, bind, get_status, getitem.
  rewrite Hp. cbn [ret].
  destruct (truthy p) eqn:Tp.
  - destruct Hor as [?|(n & Hn & Tn)]; [discriminate|].
    rewrite Hn. cbn [ret]. rewrite Tn. reflexivity.
  - reflexivity.
Qed.
End Interrupt.

(** X7. Whatever the cached status, the device and the outcome, the
    interrupt handler keeps the cached status and the device address and
    makes only read calls, at the device address; when it returns it has
    sent exactly one event, whose [present] and [nfc_valid] are those of
    the cached status, and when it raises it has sent none. *)
Theorem interrupt_sends_once {B : Type} `{SMBus B} (self : FilaMan B)
    (t1 t2 : pyfloat) (pressed : Z) :
  let run := _on_int_event t1 t2 pressed self in
  status (snd run) = status self
  /\ dev_addr (snd run) = dev_addr self
  /\ (exists L, bus_log (snd run) = bus_log self ++ L
                /\ Forall (fun c => is_read c = true
                                    /\ call_addr c = dev_addr self) L)
  /\ match fst run with
     | Ok _ =>
         exists info,
           sent (snd run) = sent self ++ [(FILAMENT_CHANGED_NOTIF, info)]
           /\ info !! "present" = status self !! "present"
           /\ info !! "nfc_valid" = status self !! "nfc_valid"
     | Raise _ => sent (snd run) = sent self
     end.
Proof.
  unfold _on_int_event.
  assert (exists L : list bus_call,
            bus_log self = bus_log self ++ L
            /\ Forall (fun c => is_read c = true
                                /\ call_addr c = dev_addr self) L) as Hnil
    by (exists []; split; [symmetry; apply app_nil_r|constructor]).
  destruct (status self !! "present") as [p|] eqn:Hp.
  2: { unfold _notify_filament_changed, bind, get_status, getitem.
       rewrite Hp. cbn. auto. }
  destruct (truthy p) eqn:Tp.
  2: { cbv zeta. rewrite (notify_cached self p Hp) by (left; exact Tp).
       cbn [fst snd status dev_addr bus_log sent].
       repeat split; try exact Hnil. exists (status self). auto. }
  destruct (status self !! "nfc_valid") as [n|] eqn:Hn.
  2: { unfold _notify_filament_changed, bind, get_status, getitem.
       rewrite Hp. cbn [ret]. rewrite Tp, Hn. cbn. auto. }
  destruct (truthy n) eqn:Tn.
  2: { cbv zeta. rewrite (notify_cached self p Hp) by (right; eauto).
       cbn [fst snd status dev_addr bus_log sent].
       repeat split; try exact Hnil. exists (status self). auto. }
  cbv zeta. rewrite (notify_merges self p n Hp Tp Hn Tn).
  destruct (_read_nfc self) as [[d|e] s1] eqn:E.
  - destruct (confined_read_nfc _ _ _ E) as (Ha & Hs & Hst & L & Hi & Hf).
    destruct (read_nfc_no_status_keys _ _ _ E) as [Hdp Hdn].
    cbn [fst snd status dev_addr bus_log sent].
    split; [exact (Hst eq_refl)|]. split; [exact Ha|].
    split; [exists L; split; [exact Hi|exact Hf]|].
    exists (d ∪ status self). rewrite Hs. split; [reflexivity|].
    rewrite !lookup_union, Hdp, Hdn, Hp, Hn. split; reflexivity.
  - destruct (confined_read_nfc _ _ _ E) as (Ha & Hs & Hst & L & Hi & Hf).
    cbn [fst snd]. split; [exact (Hst eq_refl)|]. split; [exact Ha|].
    split; [exists L; split; [exact Hi|exact Hf]|exact Hs].
Qed.

(** X8. When the cached status says present and valid, the handler reads
    the record: if [_read_nfc] returns the record [d], the one event sent
    carries [d] merged over the cached status (every field of [d], and the
    keys of the status that [d] does not have), and the cached status is
    not changed by the merge; if [_read_nfc] raises, the handler raises the
    same error. *)
Theorem interrupt_merges_record {B : Type} `{SMBus B} (self : FilaMan B)
    (p n : value) (t1 t2 : pyfloat) (pressed : Z) :
  status self !! "present" = Some p -> truthy p = true ->
  status self !! "nfc_valid" = Some n -> truthy n = true ->
  match _read_nfc self with
  | (Ok d, s1) =>
      _on_int_event t1 t2 pressed self
      = (Ok tt, MkFilaMan (bus s1) (dev_addr self) (status self)
                  (sent self ++ [(FILAMENT_CHANGED_NOTIF, d ∪ status self)])
                  (bus_log s1))
      /\ (forall k v, d !! k = Some v -> (d ∪ status self) !! k = Some v)
      /\ (forall k, d !! k = None ->
                    (d ∪ status self) !! k = status self !! k)
  | (Raise e, s1) => _on_int_event t1 t2 pressed self = (Raise e, s1)
  end.
Proof.
  intros Hp Tp Hn Tn. unfold _on_int_event.
  rewrite (notify_merges self p n Hp Tp Hn Tn).
  destruct (_read_nfc self) as [[d|e] s1] eqn:E; [|reflexivity].
  destruct (confined_read_nfc _ _ _ E) as (Ha & Hs & Hst & _).
  rewrite Ha, Hs, (Hst eq_refl). split; [reflexivity|]. split.
  - intros k v Hk. apply lookup_union_Some_l. exact Hk.
  - intros k Hk. apply lookup_union_r. exact Hk.
Qed.

Lemma interrupt_merges_record_witness :
  match _read_nfc polled_valid with
  | (Ok d, s1) =>
      _on_int_event (S754_zero false) (S754_zero false) 1 polled_valid
      = (Ok tt, MkFilaMan (bus s1) (dev_addr polled_valid)
                  (status polled_valid)
                  (sent polled_valid
                   ++ [(FILAMENT_CHANGED_NOTIF, d ∪ status polled_valid)])
                  (bus_log s1))
      /\ (forall k v, d !! k = Some v ->
                      (d ∪ status polled_valid) !! k = Some v)
      /\ (forall k, d !! k = None ->
                    (d ∪ status polled_valid) !! k
                    = status polled_valid !! k)
  | (Raise e, s1) =>
      _on_int_event (S754_zero false) (S754_zero false) 1 polled_valid
      = (Raise e, s1)
  end.
Proof.
  apply (interrupt_merges_record polled_valid (VBool true) (VBool true));
    reflexivity.
Defined.

(** X9. A poll followed by the interrupt: when [_read_status] has returned
    a status in which [present] or [nfc_valid] is false, the handler makes
    no call on the bus and sends exactly that status as the event. *)
Theorem poll_then_interrupt {B : Type} `{SMBus B} (self : FilaMan B)
    (st : gmap string value) (s1 : FilaMan B) (t1 t2 : pyfloat)
    (pressed : Z) :
  _read_status self = (Ok st, s1) ->
  st !! "present" = Some (VBool false)
  \/ st !! "nfc_valid" = Some (VBool false) ->
  _on_int_event t1 t2 pressed s1
  = (Ok tt, MkFilaMan (bus s1) (dev_addr s1) st
              (sent self ++ [(FILAMENT_CHANGED_NOTIF, st)]) (bus_log s1)).
Proof.
  intros E Hor.
  apply read_status_calls in E as (p & n & Hst & Hs & Hsent & _ & _).
  assert (st !! "present" = Some (VBool p)) as Hp
    by (rewrite Hst, lookup_insert_ne by discriminate;
        apply lookup_insert_eq).
  assert (st !! "nfc_valid" = Some (VBool n)) as Hn
    by (rewrite Hst; apply lookup_insert_eq).
  unfold _on_int_event. rewrite <- Hs in Hp, Hn.
  rewrite (notify_cached s1 (VBool p) Hp).
  - rewrite Hs, Hsent. reflexivity.
  - rewrite Hs in Hp, Hn. destruct Hor as [Hf|Hf].
    + left. rewrite Hp in Hf. inversion Hf. reflexivity.
    + right. exists (VBool n). rewrite Hs. split; [exact Hn|].
      rewrite Hn in Hf. inversion Hf. reflexivity.
Qed.

Lemma poll_then_interrupt_witness :
  exists st s1,
    _read_status fresh_loopback = (Ok st, s1)
    /\ _on_int_event (S754_zero false) (S754_zero false) 1 s1
       = (Ok tt, MkFilaMan (bus s1) (dev_addr s1) st
                   (sent fresh_loopback ++ [(FILAMENT_CHANGED_NOTIF, st)])
                   (bus_log s1)).
Proof.
  assert (_read_status fresh_loopback
          = (Ok (<["nfc_valid" := VBool false]>
                   (<["present" := VBool false]> ∅)),
             snd (_read_status fresh_loopback))) as E
    by (vm_compute; reflexivity).
  eexists _, _. split; [exact E|].
  apply (poll_then_interrupt fresh_loopback _ _ _ _ 1 E).
  left. reflexivity.
Defined.

(** ** Write, poll, interrupt *)
Section EndToEnd.
Implicit Types self : FilaMan Loopback.

Lemma read_status_loopback self :
  let st := <["nfc_valid" := VBool (negb (hd 0 (bus self 0x01) =? 0))]>
              (<["present" := VBool (negb (hd 0 (bus self 0x00) =? 0))]>
                 (status self)) in
  _read_status self
  = (Ok st, MkFilaMan (bus self) (dev_addr self) st (sent self)
              ((bus_log self ++ [ReadByteData (dev_addr self) 0x00])
               ++ [ReadByteData (dev_addr self) 0x01])).
Proof. reflexivity. Qed.
End EndToEnd.

(** X10. The three entry points in sequence on a loopback device that
    reports a present and valid tag: for a field mapping that the registers
    hold exactly, the write request answers [{"status": "OK"}], the status
    request then returns the cached status with [present] and [nfc_valid]
    true, and the interrupt handler then sends one event, which carries
    the mapping that was written merged over that status. *)
Theorem write_poll_interrupt (data : gmap string value)
    (self : FilaMan Loopback) (t1 t2 : pyfloat) (pressed : Z) :
  exact_record data ->
  hd 0 (bus self 0x00) <> 0 -> hd 0 (bus self 0x01) <> 0 ->
  exists s1 s2 s3 st,
    st = <["nfc_valid" := VBool true]>
           (<["present" := VBool true]> (status self))
    /\ _handle_nfc_write data self = (Ok {[ "status" := VStr [79; 75] ]}, s1)
    /\ _handle_status s1 = (Ok st, s2)
    /\ _on_int_event t1 t2 pressed s2 = (Ok tt, s3)
    /\ sent s3 = sent self ++ [(FILAMENT_CHANGED_NOTIF, data ∪ st)].
Proof.
  intros Hexact Hp Hn.
  destruct (write_nfc_loopback data Hexact self)
    as (s1 & vid & s & vs & vt & Hw & Hid & Rid & Hnm & Hlen & Hasc
        & Hs & Rs & Ht & Rt & Ha & Hbus).
  destruct (confined_write_nfc data _ _ _ Hw) as (_ & Hsent & Hst & _).
  specialize (Hst eq_refl).
  assert (bus s1 0x00 = bus self 0x00) as Hb0
    by (rewrite Hbus, (written_low data) by lia;
        rewrite !loopback_store_ne by lia; reflexivity).
  assert (bus s1 0x01 = bus self 0x01) as Hb1
    by (rewrite Hbus, (written_low data) by lia;
        rewrite !loopback_store_ne by lia; reflexivity).
  pose proof (read_status_loopback s1) as Hpoll. cbv zeta in Hpoll.
  rewrite Hb0, Hb1, Hst in Hpoll.
  apply Z.eqb_neq in Hp, Hn. rewrite Hp, Hn in Hpoll. cbn [negb] in Hpoll.
  set (st := <["nfc_valid" := VBool true]>
               (<["present" := VBool true]> (status self))) in *.
  set (s2 := MkFilaMan (bus s1) (dev_addr s1) st (sent s1)
               ((bus_log s1 ++ [ReadByteData (dev_addr s1) 0x00])
                ++ [ReadByteData (dev_addr s1) 0x01])) in *.
  destruct (read_nfc_loopback data Hexact s2 (bus self) vid s vs vt
              Hid Rid Hnm Hlen Hasc Hs Rs Ht Rt Hbus) as [s3 Hr].
  destruct (confined_read_nfc _ _ _ Hr) as (_ & Hsent3 & _).
  eexists s1, s2, _, st. split; [reflexivity|].
  split; [unfold _handle_nfc_write, bind; rewrite Hw; reflexivity|].
  split; [exact Hpoll|].
  unfold _on_int_event.
  rewrite (notify_merges s2 (VBool true) (VBool true)), Hr.
  - split; [reflexivity|]. cbn [sent]. rewrite Hsent3. unfold s2.
    cbn [sent status]. rewrite Hsent. reflexivity.
  - change (status s2) with st. unfold st.
    rewrite lookup_insert_ne by discriminate. apply lookup_insert_eq.
  - reflexivity.
  - change (status s2) with st. unfold st. apply lookup_insert_eq.
  - reflexivity.
Qed.

Lemma write_poll_interrupt_witness :
  exists s1 s2 s3 st,
    st = <["nfc_valid" := VBool true]>
           (<["present" := VBool true]> (status tag_present))
    /\ _handle_nfc_write pla_exact tag_present
       = (Ok {[ "status" := VStr [79; 75] ]}, s1)
    /\ _handle_status s1 = (Ok st, s2)
    /\ _on_int_event (S754_zero false) (S754_zero false) 1 s2 = (Ok tt, s3)
    /\ sent s3
       = sent tag_present ++ [(FILAMENT_CHANGED_NOTIF, pla_exact ∪ st)].
Proof.
  apply (write_poll_interrupt pla_exact tag_present).
  - exact pla_exact_is_exact.
  - cbn. lia.
  - cbn. lia.
Defined.

(** ** The bitmap of a write transaction *)
Section WrittenBitmap.
Variable data : gmap string value.

Lemma catalog_registers_small (kr : string * reg_val) :
  In kr BUS_REGISTERS -> 0 <= reg (snd kr) < 16.
Proof.
  unfold BUS_REGISTERS. intros Hin.
  repeat (destruct Hin as [<-|Hin]; [cbn; lia|]). contradiction.
Qed.

Lemma bitmap_fold_small :
  0 <= fold_left (opt_bit data) BUS_REGISTERS 0 < 256.
Proof.
  assert (fold_left (opt_bit data) BUS_REGISTERS 0 mod 256
          = fold_left (opt_bit data) BUS_REGISTERS 0) as Hmod.
  { apply Z.bits_inj'. intros n Hn. change 256 with (2 ^ 8).
    destruct (Z.lt_ge_cases n 8) as [Hlt|Hge].
    - apply Z.mod_pow2_bits_low. exact Hlt.
    - rewrite Z.mod_pow2_bits_high by lia.
      rewrite opt_bit_fold_testbit, Z.testbit_0_l by exact Hn.
      cbn [orb]. symmetry. apply not_true_is_false. intros Hex.
      apply existsb_exists in Hex as (kr & Hin & Hset).
      unfold sets_bit in Hset.
      apply andb_true_iff in Hset as [_ Heq]. apply Z.eqb_eq in Heq.
      pose proof (catalog_registers_small kr Hin).
      rewrite BUS_REG_OPT_START_eq in Heq. lia. }
  rewrite <- Hmod. apply Z.mod_pos_bound. lia.
Qed.

Lemma bitmap_fold_selects :
  selected_items (fold_left (opt_bit data) BUS_REGISTERS 0)
  = present_items data.
Proof.
  unfold selected_items, present_items. apply List.filter_ext_in.
  intros kr Hin. unfold optional_items in Hin.
  apply filter_In in Hin as [Hin Hge]. apply Z.leb_le in Hge.
  pose proof (bitmap_bits data) as Hbits.
  rewrite List.Forall_forall in Hbits. specialize (Hbits kr Hin Hge).
  rewrite Z.mod_small in Hbits by exact bitmap_fold_small.
  exact Hbits.
Qed.
End WrittenBitmap.

(** X11. The bitmap that the loop of [_write_nfc] accumulates, on any bus
    and for any mapping for which the loop completes, is a byte, and the
    optional registers that the loop of [_read_nfc] selects under that
    bitmap are exactly the optional registers whose name is a key of the
    mapping, in catalog order. *)
Theorem written_bitmap_selects {B : Type} `{SMBus B}
    (data : gmap string value) (self : FilaMan B) (bm : Z)
    (self' : FilaMan B) :
  for_items BUS_REGISTERS (write_opt data) 0x00 self = (Ok bm, self') ->
  0 <= bm < 256
  /\ selected_items bm = present_items data
  /\ (forall k r, In (k, r) BUS_REGISTERS -> BUS_REG_OPT_START <= reg r ->
                  _get_bitmap_val bm (reg r) = has_key data k).
Proof.
  intros E.
  apply write_loop_calls in E as (_ & L & _ & _ & Hres).
  destruct Hres as [[Hbm _]|[e He]]; [|discriminate].
  apply Ok_inj in Hbm. subst bm.
  split; [apply bitmap_fold_small|]. split; [apply bitmap_fold_selects|].
  intros k r Hin Hge. pose proof (bitmap_bits data) as Hbits.
  rewrite List.Forall_forall in Hbits. specialize (Hbits (k, r) Hin Hge).
  rewrite Z.mod_small in Hbits by apply bitmap_fold_small. exact Hbits.
Qed.

Lemma written_bitmap_selects_witness :
  exists bm self',
    for_items BUS_REGISTERS (write_opt pla_exact) 0x00 fresh_loopback
    = (Ok bm, self')
    /\ 0 <= bm < 256
    /\ selected_items bm = present_items pla_exact
    /\ (forall k r, In (k, r) BUS_REGISTERS -> BUS_REG_OPT_START <= reg r ->
                    _get_bitmap_val bm (reg r) = has_key pla_exact k).
Proof.
  assert (for_items BUS_REGISTERS (write_opt pla_exact) 0x00 fresh_loopback
          = (Ok 2,
             snd (for_items BUS_REGISTERS (write_opt pla_exact) 0x00
                    fresh_loopback))) as E
    by (vm_compute; reflexivity).
  eexists _, _. split; [exact E|].
  exact (written_bitmap_selects pla_exact fresh_loopback _ _ E).
Defined.

(** ** Reading a register and writing the value back *)
Section ReadWriteBack.

Lemma le_bytes_shift (n : nat) (z k : Z) :
  Struct.le_bytes n (z + k * 256 ^ Z.of_nat n) = Struct.le_bytes n z.
Proof.
  revert z k. induction n as [|n IH]; intros z k; [reflexivity|].
  cbn [Struct.le_bytes]. rewrite Nat2Z.inj_succ, Z.pow_succ_r by lia.
  replace (z + k * (256 * 256 ^ Z.of_nat n))
    with (z + (k * 256 ^ Z.of_nat n) * 256) by ring.
  rewrite Z.mod_add, Z.div_add by lia. rewrite IH. reflexivity.
Qed.

Lemma le_bytes_le_decode (b : list Z) :
  forallb Struct.is_byte b = true ->
  Struct.le_bytes (length b) (Struct.le_decode b) = b.
Proof.
  induction b as [|x b IH]; intros Hb; [reflexivity|].
  cbn [forallb] in Hb. apply andb_true_iff in Hb as [Hx Hb].
  unfold Struct.is_byte in Hx. apply andb_true_iff in Hx as [Hx1 Hx2].
  apply Z.leb_le in Hx1. apply Z.ltb_lt in Hx2.
  cbn [length Struct.le_bytes Struct.le_decode].
  replace (x + 256 * Struct.le_decode b)
    with (x + Struct.le_decode b * 256) by ring.
  rewrite Z.mod_add, Z.div_add by lia.
  rewrite Z.mod_small, Z.div_small, Z.add_0_l by lia.
  rewrite (IH Hb). reflexivity.
Qed.

Lemma size_of_normal (m : positive) :
  8388608 <= Z.pos m < 16777216 -> Z.pos (digits2_pos m) = 24.
Proof.
  intros Hm. rewrite StructFacts.digits2_pos_size.
  pose proof (StructFacts.size_bounds m) as [Hlo Hhi].
  destruct (Z.lt_trichotomy (Z.pos (Pos.size m)) 24) as [Hlt|[Heq|Hgt]];
    [|exact Heq|].
  - assert (2 ^ Z.pos (Pos.size m) <= 2 ^ 23)
      by (apply Z.pow_le_mono_r; lia).
    change (2 ^ 23) with 8388608 in *. lia.
  - assert (2 ^ 24 <= 2 ^ (Z.pos (Pos.size m) - 1))
      by (apply Z.pow_le_mono_r; lia).
    change (2 ^ 24) with 16777216 in *. lia.
Qed.

Lemma size_of_subnormal (m : positive) :
  Z.pos m < 8388608 -> Z.pos (digits2_pos m) <= 23.
Proof.
  intros Hm. rewrite StructFacts.digits2_pos_size.
  pose proof (StructFacts.size_bounds m) as [Hlo Hhi].
  destruct (Z.le_gt_cases (Z.pos (Pos.size m)) 23) as [Hle|Hgt];
    [exact Hle|].
  assert (2 ^ 23 <= 2 ^ (Z.pos (Pos.size m) - 1))
    by (apply Z.pow_le_mono_r; lia).
  change (2 ^ 23) with 8388608 in *. lia.
Qed.

Lemma split32 (w : Z) :
  0 <= w < 4294967296 ->
  exists s biased frac,
    w = Struct.join32 s biased frac
    /\ 0 <= biased < 256 /\ 0 <= frac < 8388608.
Proof.
  intros Hw.
  exists (negb (w / 2147483648 =? 0)), ((w / 8388608) mod 256),
    (w mod 8388608).
  unfold Struct.join32.
  assert (w / 2147483648 = 0 \/ w / 2147483648 = 1) as [E|E]
    by (pose proof (Z.div_pos w 2147483648);
        assert (w / 2147483648 < 2)
          by (apply Z.div_lt_upper_bound; lia); lia);
    rewrite E; cbn [Z.eqb negb Z.b2z];
    (split; [|split; [apply Z.mod_pos_bound; lia
                     |apply Z.mod_pos_bound; lia]]);
    pose proof (Z.div_mod w 8388608 ltac:(lia));
    pose proof (Z.div_mod (w / 8388608) 256 ltac:(lia));
    pose proof (Z.mod_pos_bound w 8388608 ltac:(lia));
    pose proof (Z.mod_pos_bound (w / 8388608) 256 ltac:(lia));
    assert (w / 8388608 / 256 = w / 2147483648)
      by (rewrite Z.div_div by lia; reflexivity);
    lia.
Qed.

(** Every 32-bit pattern decodes to a binary32 datum. *)
Lemma b32_of_bits_valid (w : Z) :
  0 <= w < 4294967296 ->
  valid_binary Struct.prec32 Struct.emax32 (Struct.b32_of_bits w) = true.
Proof.
  intros Hw.
  destruct (split32 w Hw) as (s & biased & frac & Hj & Hb & Hf).
  destruct (StructFacts.join32_fields s biased frac Hb Hf)
    as (_ & Hs & Hbi & Hfr).
  rewrite <- Hj in Hs, Hbi, Hfr.
  unfold Struct.b32_of_bits. rewrite Hs, Hbi, Hfr.
  destruct (biased =? 0) eqn:E0.
  - destruct frac as [|m|m]; [reflexivity| |lia].
    cbn [valid_binary]. unfold bounded, canonical_mantissa, fexp, emin,
      Struct.prec32, Struct.emax32.
    pose proof (size_of_subnormal m ltac:(lia)).
    apply andb_true_iff. split; [apply Z.eqb_eq|apply Z.leb_le]; lia.
  - apply Z.eqb_neq in E0.
    destruct (biased =? 255) eqn:E1.
    + destruct (frac =? 0); reflexivity.
    + apply Z.eqb_neq in E1.
      destruct (frac + 8388608) as [|m|m] eqn:Em; [lia| |lia].
      cbn [valid_binary]. unfold bounded, canonical_mantissa, fexp, emin,
        Struct.prec32, Struct.emax32.
      rewrite (size_of_normal m) by lia.
      apply andb_true_iff. split; [apply Z.eqb_eq|apply Z.leb_le]; lia.
Qed.

(** Every 32-bit pattern other than the not-a-number patterns with a
    payload is the pattern of the datum it decodes to. *)
Lemma bits_of_b32_of_bits (w : Z) :
  0 <= w < 4294967296 ->
  (Struct.b32_of_bits w = S754_nan -> w = 0x7FC00000) ->
  valid_binary Struct.prec32 Struct.emax32 (Struct.b32_of_bits w) = true
  /\ Struct.bits_of_b32 (Struct.b32_of_bits w) = w.
Proof.
  intros Hw Hnan. split; [exact (b32_of_bits_valid w Hw)|].
  destruct (split32 w Hw) as (s & biased & frac & Hj & Hb & Hf).
  destruct (StructFacts.join32_fields s biased frac Hb Hf)
    as (_ & Hs & Hbi & Hfr).
  rewrite <- Hj in Hs, Hbi, Hfr.
  unfold Struct.b32_of_bits in *. rewrite Hs, Hbi, Hfr in *.
  rewrite StructFacts.b2z_sign in *.
  destruct (biased =? 0) eqn:E0.
  - apply Z.eqb_eq in E0. subst biased.
    destruct frac as [|m|m]; [| |lia].
    + cbn [Struct.bits_of_b32]. congruence.
    + cbn [Struct.bits_of_b32].
      destruct (8388608 <=? Z.pos m) eqn:E; [apply Z.leb_le in E; lia|].
      congruence.
  - apply Z.eqb_neq in E0.
    destruct (biased =? 255) eqn:E1.
    + apply Z.eqb_eq in E1. subst biased.
      destruct (frac =? 0) eqn:E2.
      * apply Z.eqb_eq in E2. subst frac.
        cbn [Struct.bits_of_b32]. congruence.
      * cbn [Struct.bits_of_b32]. rewrite (Hnan eq_refl). reflexivity.
    + apply Z.eqb_neq in E1.
      destruct (frac + 8388608) as [|m|m] eqn:Em; [lia| |lia].
      cbn [Struct.bits_of_b32].
      destruct (8388608 <=? Z.pos m) eqn:E; [|apply Z.leb_gt in E; lia].
      replace (biased - 150 + 150) with biased by lia.
      replace (Z.pos m - 8388608) with frac by lia. congruence.
Qed.

(** A canonical cell holds the bytes of a value of its type. *)
Lemma canonical_cell_value (t : BusType) (cell : list Z) :
  canonical_cell t cell ->
  exists v, representable t v /\ cell_of t v = cell.
Proof.
  destruct t; cbn [canonical_cell].
  - (* BOOL *)
    intros [->| ->]; [exists (VBool false)|exists (VBool true)];
      split; reflexivity.
  - (* INT *)
    intros [Hlen Hb].
    pose proof (le_decode_range cell Hb) as Hr. rewrite Hlen in Hr.
    change (256 ^ Z.of_nat 4) with 4294967296 in Hr.
    pose proof (le_bytes_le_decode cell Hb) as Hbytes.
    rewrite Hlen in Hbytes.
    destruct (Z.lt_ge_cases (Struct.le_decode cell) 2147483648) as [Hlt|Hge].
    + exists (VInt (Struct.le_decode cell)).
      split; [cbn; lia|exact Hbytes].
    + exists (VInt (Struct.le_decode cell - 4294967296)).
      split; [cbn; lia|]. cbn [cell_of].
      rewrite <- Hbytes at 2.
      exact (le_bytes_shift 4 (Struct.le_decode cell) (-1)).
  - (* FLOAT *)
    intros (Hlen & Hb & Hnan).
    pose proof (le_decode_range cell Hb) as Hr. rewrite Hlen in Hr.
    change (256 ^ Z.of_nat 4) with 4294967296 in Hr.
    destruct (bits_of_b32_of_bits _ Hr Hnan) as [Hv Hbits].
    exists (VFloat (Struct.widen
                      (Struct.b32_of_bits (Struct.le_decode cell)))).
    split; [cbn; eauto|]. cbn [cell_of].
    rewrite (StructFacts.narrow_widen _ Hv), Hbits.
    pose proof (le_bytes_le_decode cell Hb) as Hbytes.
    rewrite Hlen in Hbytes. exact Hbytes.
  - (* STR *)
    intros [].
  - (* BYTE *)
    intros (z & -> & Hz). exists (VInt z).
    split; [exact Hz|]. cbn [cell_of]. rewrite Z.mod_small by exact Hz.
    reflexivity.
Qed.
End ReadWriteBack.

(** X12. Reading a register and writing the value back leaves a loopback
    device as it was: for a register of any type but string whose cell is
    canonical for the type, [_read_register] returns a value, and
    [_write_register] of that value succeeds and stores the same bytes in
    the register, every other register being untouched. *)
Theorem read_then_write_back (t : BusType) (cell : list Z) (r : Z)
    (self : FilaMan Loopback) :
  bus self r = cell -> canonical_cell t cell ->
  exists v s1 s2,
    _read_register (RegVal r t) self = (Ok v, s1)
    /\ _write_register (RegVal r t) v s1 = (Ok tt, s2)
    /\ forall r', bus s2 r' = bus self r'.
Proof.
  intros Hcell Hcan.
  destruct (canonical_cell_value t cell Hcan) as (v & Hrep & Hv).
  destruct (read_register_loopback t v r self Hrep) as [c1 Hr];
    [congruence|].
  destruct (write_register_loopback t v r (called self (bus self) c1) Hrep)
    as [c2 Hw].
  eexists v, _, _. split; [exact Hr|]. split; [exact Hw|].
  intros r'. cbn [bus called].
  destruct (Z.eq_dec r' r) as [->|Hne].
  - rewrite loopback_store_eq. congruence.
  - apply loopback_store_ne. exact Hne.
Qed.

Lemma read_then_write_back_witness :
  exists v s1 s2,
    _read_register (RegVal 0x02 INT) (FilaMan_init device_bit7 0x50)
    = (Ok v, s1)
    /\ _write_register (RegVal 0x02 INT) v s1 = (Ok tt, s2)
    /\ forall r', bus s2 r' = bus (FilaMan_init device_bit7 0x50) r'.
Proof.
  apply (read_then_write_back INT [7; 0; 0; 0]).
  - reflexivity.
  - split; reflexivity.
Defined.

(** ** The UTF-8 codec *)
Module Utf8Inverse.
Import Utf8.

Lemma lor_disjoint (p k q : Z) :
  0 <= k -> 0 <= q < 2 ^ k -> Z.lor (Z.shiftl p k) q = p * 2 ^ k + q.
Proof.
  intros Hk Hq.
  assert (Z.land (Z.shiftl p k) q = 0) as Hland.
  { apply Z.bits_inj'. intros n Hn. rewrite Z.land_spec, Z.bits_0.
    destruct (Z.lt_ge_cases n k) as [Hlt|Hge].
    - rewrite Z.shiftl_spec_low by exact Hlt. reflexivity.
    - assert (Z.testbit q n = false) as ->; [|apply andb_false_r].
      destruct (Z.eq_dec q 0) as [->|Hq0]; [apply Z.bits_0|].
      apply Z.bits_above_log2; [lia|].
      apply Z.lt_le_trans with k; [|exact Hge].
      apply Z.log2_lt_pow2; lia. }
  rewrite <- Z.lxor_lor by exact Hland.
  rewrite <- Z.add_nocarry_lxor by exact Hland.
  rewrite Z.shiftl_mul_pow2 by exact Hk. reflexivity.
Qed.

Lemma cont_low (x : Z) : cont x = 128 + x mod 64.
Proof.
  unfold cont. change 63 with (Z.ones 6). rewrite Z.land_ones by lia.
  change 128 with (Z.shiftl 2 6).
  rewrite lor_disjoint by (try lia; apply Z.mod_pos_bound; lia).
  reflexivity.
Qed.

Lemma payload_cont (b : Z) :
  is_cont b = true -> payload b = b - 128 /\ 0 <= b - 128 < 64.
Proof.
  unfold is_cont, payload. intros Hb.
  apply andb_true_iff in Hb as [H1 H2].
  apply Z.leb_le in H1. apply Z.leb_le in H2.
  change 63 with (Z.ones 6). rewrite Z.land_ones by lia.
  change (2 ^ 6) with 64. split; [|lia].
  symmetry. apply (Z.mod_unique _ _ 2); lia.
Qed.

Lemma lead_low (b base k : Z) :
  0 <= k -> 0 <= base -> base mod 2 ^ k = 0 ->
  base <= b < base + 2 ^ k ->
  Z.land b (Z.ones k) = b - base /\ Z.lor base (b - base) = b.
Proof.
  intros Hk Hbase Hmod Hb.
  assert (0 < 2 ^ k) as Hpos by (apply Z.pow_pos_nonneg; lia).
  pose proof (Z.div_mod base (2 ^ k) ltac:(lia)) as Hdm.
  rewrite Hmod, Z.add_0_r in Hdm.
  split.
  - rewrite Z.land_ones by exact Hk. symmetry.
    apply (Z.mod_unique _ _ (base / 2 ^ k)); lia.
  - rewrite Hdm at 1. rewrite Z.mul_comm, <- Z.shiftl_mul_pow2 by exact Hk.
    rewrite lor_disjoint by lia. lia.
Qed.

Lemma shiftr_div (c k : Z) : 0 <= k -> Z.shiftr c k = c / 2 ^ k.
Proof. intros Hk. apply Z.shiftr_div_pow2. exact Hk. Qed.

Lemma encode_cp_2 (b0 b1 : Z) :
  (194 <=? b0) && (b0 <=? 223) = true -> is_cont b1 = true ->
  encode_cp (Z.lor (Z.shiftl (Z.land b0 31) 6) (payload b1))
  = Ok [b0; b1].
Proof.
  intros H0 H1. apply andb_true_iff in H0 as [Hlo Hhi].
  apply Z.leb_le in Hlo. apply Z.leb_le in Hhi.
  destruct (payload_cont b1 H1) as [-> Hp1].
  destruct (lead_low b0 192 5 ltac:(lia) ltac:(lia) eq_refl ltac:(simpl; lia))
    as [Hl0 Hr0].
  change (Z.ones 5) with 31 in Hl0. rewrite Hl0.
  rewrite lor_disjoint by (simpl; lia). change (2 ^ 6) with 64.
  set (c := (b0 - 192) * 64 + (b1 - 128)).
  assert (128 <= c < 2048) as Hc by (unfold c; lia).
  unfold encode_cp.
  destruct (c <? 0) eqn:E1; [apply Z.ltb_lt in E1; lia|].
  destruct (c <? 128) eqn:E2; [apply Z.ltb_lt in E2; lia|].
  destruct (c <? 2048) eqn:E3; [|apply Z.ltb_ge in E3; lia].
  rewrite cont_low, shiftr_div by lia. change (2 ^ 6) with 64.
  assert (c / 64 = b0 - 192) as ->
    by (symmetry; apply (Z.div_unique _ _ _ (b1 - 128)); unfold c; lia).
  assert (c mod 64 = b1 - 128) as ->
    by (symmetry; apply (Z.mod_unique _ _ (b0 - 192)); unfold c; lia).
  rewrite Hr0. repeat f_equal; lia.
Qed.

Lemma encode_cp_3 (b0 b1 b2 : Z) :
  (224 <=? b0) && (b0 <=? 239) = true ->
  is_cont b1 = true -> is_cont b2 = true ->
  let c := Z.lor (Z.shiftl (Z.land b0 15) 12)
             (Z.lor (Z.shiftl (payload b1) 6) (payload b2)) in
  (2048 <=? c) = true ->
  negb ((55296 <=? c) && (c <=? 57343)) = true ->
  encode_cp c = Ok [b0; b1; b2].
Proof.
  intros H0 H1 H2. apply andb_true_iff in H0 as [Hlo Hhi].
  apply Z.leb_le in Hlo. apply Z.leb_le in Hhi.
  destruct (payload_cont b1 H1) as [-> Hp1].
  destruct (payload_cont b2 H2) as [-> Hp2].
  destruct (lead_low b0 224 4 ltac:(lia) ltac:(lia) eq_refl ltac:(simpl; lia))
    as [Hl0 Hr0].
  change (Z.ones 4) with 15 in Hl0. rewrite Hl0.
  rewrite (lor_disjoint (b1 - 128) 6) by (simpl; lia).
  rewrite lor_disjoint by (simpl; lia).
  change (2 ^ 6) with 64. change (2 ^ 12) with 4096.
  set (c := (b0 - 224) * 4096 + ((b1 - 128) * 64 + (b2 - 128))).
  cbv zeta. intros Hmin Hsur. apply Z.leb_le in Hmin.
  assert (c < 65536) as Hmax by (unfold c; lia).
  unfold encode_cp.
  destruct (c <? 0) eqn:E1; [apply Z.ltb_lt in E1; lia|].
  destruct (c <? 128) eqn:E2; [apply Z.ltb_lt in E2; lia|].
  destruct (c <? 2048) eqn:E3; [apply Z.ltb_lt in E3; lia|].
  destruct (c <? 65536) eqn:E4; [|apply Z.ltb_ge in E4; lia].
  apply negb_true_iff in Hsur. rewrite Hsur.
  rewrite !cont_low, !shiftr_div by lia.
  change (2 ^ 6) with 64. change (2 ^ 12) with 4096.
  assert (c / 4096 = b0 - 224) as ->
    by (symmetry;
        apply (Z.div_unique _ _ _ ((b1 - 128) * 64 + (b2 - 128)));
        unfold c; lia).
  assert (c / 64 = (b0 - 224) * 64 + (b1 - 128)) as ->
    by (symmetry; apply (Z.div_unique _ _ _ (b2 - 128)); unfold c; lia).
  assert (((b0 - 224) * 64 + (b1 - 128)) mod 64 = b1 - 128) as ->
    by (symmetry; apply (Z.mod_unique _ _ (b0 - 224)); lia).
  assert (c mod 64 = b2 - 128) as ->
    by (symmetry;
        apply (Z.mod_unique _ _ ((b0 - 224) * 64 + (b1 - 128)));
        unfold c; lia).
  rewrite Hr0. repeat f_equal; lia.
Qed.

Lemma encode_cp_4 (b0 b1 b2 b3 : Z) :
  (240 <=? b0) && (b0 <=? 244) = true ->
  is_cont b1 = true -> is_cont b2 = true -> is_cont b3 = true ->
  let c := Z.lor (Z.shiftl (Z.land b0 7) 18)
             (Z.lor (Z.shiftl (payload b1) 12)
                (Z.lor (Z.shiftl (payload b2) 6) (payload b3))) in
  (65536 <=? c) = true -> (c <? 1114112) = true ->
  encode_cp c = Ok [b0; b1; b2; b3].
Proof.
  intros H0 H1 H2 H3. apply andb_true_iff in H0 as [Hlo Hhi].
  apply Z.leb_le in Hlo. apply Z.leb_le in Hhi.
  destruct (payload_cont b1 H1) as [-> Hp1].
  destruct (payload_cont b2 H2) as [-> Hp2].
  destruct (payload_cont b3 H3) as [-> Hp3].
  destruct (lead_low b0 240 3 ltac:(lia) ltac:(lia) eq_refl ltac:(simpl; lia))
    as [Hl0 Hr0].
  change (Z.ones 3) with 7 in Hl0. rewrite Hl0.
  rewrite (lor_disjoint (b2 - 128) 6) by (simpl; lia).
  rewrite (lor_disjoint (b1 - 128) 12) by (simpl; lia).
  rewrite lor_disjoint by (simpl; lia).
  change (2 ^ 6) with 64. change (2 ^ 12) with 4096.
  change (2 ^ 18) with 262144.
  set (c := (b0 - 240) * 262144
            + ((b1 - 128) * 4096 + ((b2 - 128) * 64 + (b3 - 128)))).
  cbv zeta. intros Hmin Hmax.
  apply Z.leb_le in Hmin. apply Z.ltb_lt in Hmax.
  unfold encode_cp.
  destruct (c <? 0) eqn:E1; [apply Z.ltb_lt in E1; lia|].
  destruct (c <? 128) eqn:E2; [apply Z.ltb_lt in E2; lia|].
  destruct (c <? 2048) eqn:E3; [apply Z.ltb_lt in E3; lia|].
  destruct (c <? 65536) eqn:E4; [apply Z.ltb_lt in E4; lia|].
  destruct (c <? 1114112) eqn:E5; [|apply Z.ltb_ge in E5; lia].
  rewrite !cont_low, !shiftr_div by lia.
  change (2 ^ 6) with 64. change (2 ^ 12) with 4096.
  change (2 ^ 18) with 262144.
  assert (c / 262144 = b0 - 240) as ->
    by (symmetry;
        apply (Z.div_unique _ _ _
                 ((b1 - 128) * 4096 + ((b2 - 128) * 64 + (b3 - 128))));
        unfold c; lia).
  assert (c / 4096 = (b0 - 240) * 64 + (b1 - 128)) as ->
    by (symmetry;
        apply (Z.div_unique _ _ _ ((b2 - 128) * 64 + (b3 - 128)));
        unfold c; lia).
  assert (c / 64 = ((b0 - 240) * 64 + (b1 - 128)) * 64 + (b2 - 128)) as ->
    by (symmetry; apply (Z.div_unique _ _ _ (b3 - 128)); unfold c; lia).
  assert (((b0 - 240) * 64 + (b1 - 128)) mod 64 = b1 - 128) as ->
    by (symmetry; apply (Z.mod_unique _ _ (b0 - 240)); lia).
  assert ((((b0 - 240) * 64 + (b1 - 128)) * 64 + (b2 - 128)) mod 64
          = b2 - 128) as ->
    by (symmetry;
        apply (Z.mod_unique _ _ ((b0 - 240) * 64 + (b1 - 128))); lia).
  assert (c mod 64 = b3 - 128) as ->
    by (symmetry;
        apply (Z.mod_unique _ _
                 (((b0 - 240) * 64 + (b1 - 128)) * 64 + (b2 - 128)));
        unfold c; lia).
  rewrite Hr0. repeat f_equal; lia.
Qed.

Lemma encode_cons (c : Z) (s bc bs : list Z) :
  encode_cp c = Ok bc -> encode s = Ok bs ->
  encode (c :: s) = Ok (bc ++ bs).
Proof. intros Hc Hs. cbn [encode]. rewrite Hc, Hs. reflexivity. Qed.

Lemma emit_ok_inv (ok : bool) (c : Z) (rest : result (list Z))
    (s : list Z) :
  (if ok then match rest with Ok s => Ok (c :: s) | Raise e => Raise e end
   else Raise UnicodeDecodeError) = Ok s ->
  ok = true /\ exists s', rest = Ok s' /\ s = c :: s'.
Proof.
  destruct ok; [|discriminate]. destruct rest as [s'|e]; [|discriminate].
  intros E. apply Ok_inj in E. eauto.
Qed.

(** What decodes is the encoding of the result. *)
Lemma decode_encode_bounded (n : nat) :
  forall b s, (length b <= n)%nat -> decode b = Ok s -> encode s = Ok b.
Proof.
  induction n as [|n IH]; intros b s Hlen E.
  - destruct b; [|cbn in Hlen; lia].
    apply Ok_inj in E. subst s. reflexivity.
  - destruct b as [|b0 r0].
    { apply Ok_inj in E. subst s. reflexivity. }
    cbn [decode] in E. cbn [length] in Hlen.
    destruct ((0 <=? b0) && (b0 <? 128)) eqn:H1.
    { apply (emit_ok_inv true) in E as (_ & s' & Hs' & ->).
      apply IH in Hs'; [|lia].
      apply andb_true_iff in H1 as [Hlo Hhi].
      apply Z.leb_le in Hlo. apply Z.ltb_lt in Hhi.
      apply (encode_cons b0 s' [b0] r0); [|exact Hs'].
      unfold encode_cp.
      destruct (b0 <? 0) eqn:E1; [apply Z.ltb_lt in E1; lia|].
      destruct (b0 <? 128) eqn:E2; [|apply Z.ltb_ge in E2; lia].
      reflexivity. }
    destruct ((194 <=? b0) && (b0 <=? 223)) eqn:H2.
    { destruct r0 as [|b1 r1]; [discriminate|].
      apply emit_ok_inv in E as (Hok & s' & Hs' & ->).
      cbn [length] in Hlen. apply IH in Hs'; [|lia].
      apply (encode_cons _ s' [b0; b1] r1); [|exact Hs'].
      apply encode_cp_2; assumption. }
    destruct ((224 <=? b0) && (b0 <=? 239)) eqn:H3.
    { destruct r0 as [|b1 [|b2 r2]]; [discriminate|discriminate|].
      apply emit_ok_inv in E as (Hok & s' & Hs' & ->).
      cbn [length] in Hlen. apply IH in Hs'; [|lia].
      apply andb_true_iff in Hok as [Hok Hsur].
      apply andb_true_iff in Hok as [Hok Hmin].
      apply andb_true_iff in Hok as [Hc1 Hc2].
      apply (encode_cons _ s' [b0; b1; b2] r2); [|exact Hs'].
      apply encode_cp_3; assumption. }
    destruct ((240 <=? b0) && (b0 <=? 244)) eqn:H4; [|discriminate].
    destruct r0 as [|b1 [|b2 [|b3 r3]]]; try discriminate.
    apply emit_ok_inv in E as (Hok & s' & Hs' & ->).
    cbn [length] in Hlen. apply IH in Hs'; [|lia].
    apply andb_true_iff in Hok as [Hok Hmax].
    apply andb_true_iff in Hok as [Hok Hmin].
    apply andb_true_iff in Hok as [Hok Hc3].
    apply andb_true_iff in Hok as [Hc1 Hc2].
    apply (encode_cons _ s' [b0; b1; b2; b3] r3); [|exact Hs'].
    apply encode_cp_4; assumption.
Qed.

Lemma decode_encode (b s : list Z) : decode b = Ok s -> encode s = Ok b.
Proof. apply (decode_encode_bounded (length b)). lia. Qed.

Lemma encode_cp_length (c : Z) (bc : list Z) :
  encode_cp c = Ok bc ->
  (1 <= length bc <= 4)%nat /\ (length bc = 1%nat -> 0 <= c < 128).
Proof.
  unfold encode_cp.
  destruct (c <? 0) eqn:E0; [discriminate|]. apply Z.ltb_ge in E0.
  destruct (c <? 128) eqn:E1.
  { apply Z.ltb_lt in E1. intros E. apply Ok_inj in E. subst bc.
    cbn. split; [lia|]. intros _. lia. }
  destruct (c <? 2048).
  { intros E. apply Ok_inj in E. subst bc. cbn. split; [lia|]. lia. }
  destruct (c <? 65536).
  { destruct ((55296 <=? c) && (c <=? 57343)); [discriminate|].
    intros E. apply Ok_inj in E. subst bc. cbn. split; [lia|]. lia. }
  destruct (c <? 1114112); [|discriminate].
  intros E. apply Ok_inj in E. subst bc. cbn. split; [lia|]. lia.
Qed.

Lemma encode_ok_inv (c : Z) (s b : list Z) :
  encode (c :: s) = Ok b ->
  exists bc bs, encode_cp c = Ok bc /\ encode s = Ok bs /\ b = bc ++ bs.
Proof.
  cbn [encode]. destruct (encode_cp c) as [bc|e]; [|discriminate].
  destruct (encode s) as [bs|e]; [|discriminate].
  intros E. apply Ok_inj in E. eauto.
Qed.

(** The encoding has between one and four bytes for each code point, and
    one byte for each exactly when the string is ASCII. *)
Lemma encode_length (s b : list Z) :
  encode s = Ok b ->
  (length s <= length b <= 4 * length s)%nat
  /\ (length b = length s -> Utf8Facts.ascii s).
Proof.
  revert b. induction s as [|c s IH]; intros b E.
  - apply Ok_inj in E. subst b. cbn. split; [lia|]. intros _. constructor.
  - apply encode_ok_inv in E as (bc & bs & Hc & Hs & ->).
    destruct (encode_cp_length c bc Hc) as [Hlen Hone].
    destruct (IH bs Hs) as [Hbs Hasc].
    rewrite length_app. cbn [length]. split; [lia|].
    intros Heq. constructor; [apply Hone; lia|apply Hasc; lia].
Qed.
End Utf8Inverse.

(** ** Writing a name *)
Section WriteStr.
Context {B : Type} `{SMBus B}.
Implicit Types self : FilaMan B.

Lemma sliced_len_range (s : list Z) : 0 <= sliced_len s <= 32.
Proof.
  unfold sliced_len, sliced. pose proof (firstn_le_length 32 s). lia.
Qed.

Lemma pack_sliced_len (s : list Z) :
  Struct.pack_i (VInt (sliced_len s))
  = Ok (Struct.le_bytes 4 (sliced_len s)).
Proof.
  apply StructFacts.unpack_pack_i. pose proof (sliced_len_range s). lia.
Qed.

(** [_write_str] on a str, step by step. *)
Lemma write_str_run (r rl : Z) (s : list Z) self :
  _write_str r (VStr s) rl self
  = let c1 := WriteBlock (dev_addr self) rl
                (Struct.le_bytes 4 (sliced_len s)) in
    match write_i2c_block_data (bus self) (dev_addr self) rl
            (Struct.le_bytes 4 (sliced_len s)) with
    | (Ok _, b1) =>
        match Utf8.encode (sliced s) with
        | Ok b =>
            let '(res, b2) :=
              write_i2c_block_data b1 (dev_addr self) r b in
            (res, called (called self b1 c1) b2
                    (WriteBlock (dev_addr self) r b))
        | Raise e => (Raise e, called self b1 c1)
        end
    | (Raise e, b1) => (Raise e, called self b1 c1)
    end.
Proof.
  unfold _write_str. rewrite Utf8Facts.slice_32.
  fold (sliced s). fold (sliced_len s).
  unfold _write_int, bind, lift. rewrite pack_sliced_len.
  unfold bus_write_i2c_block_data. cbv zeta.
  destruct (write_i2c_block_data (bus self) (dev_addr self) rl _)
    as [[[]|e] b1]; [|reflexivity].
  destruct (Utf8.encode (sliced s)) as [b|e]; reflexivity.
Qed.

Lemma encode_raises (s : list Z) (e : exn) :
  Utf8.encode s = Raise e -> e = UnicodeEncodeError.
Proof.
  induction s as [|c s IH]; [discriminate|]. cbn [Utf8.encode].
  destruct (Utf8.encode_cp c) as [bc|e'] eqn:Ec.
  - destruct (Utf8.encode s) as [bs|e'']; [discriminate|].
    intros E. inversion E; subst. apply IH. reflexivity.
  - intros E. inversion E; subst. clear E. unfold Utf8.encode_cp in Ec.
    repeat match type of Ec with
           | (if ?c then _ else _) = _ => destruct c
           end; congruence.
Qed.
End WriteStr.

(** X13. Whenever [_write_str] returns, on any bus, it made exactly two
    block writes: the number [n] of code points of [value[:32]] as a
    little-endian integer to the length register, then the UTF-8 bytes of
    [value[:32]] to the name register. The bytes are at least [n] and at
    most [4 * n], so up to 128, and they are [n] exactly when
    [value[:32]] is ASCII: only then is the length written a byte count. *)
Theorem write_str_length_gap {B : Type} `{SMBus B} (r rl : Z) (s : pystr)
    (self self' : FilaMan B) :
  _write_str r (VStr s) rl self = (Ok tt, self') ->
  exists b,
    Utf8.encode (sliced s) = Ok b
    /\ issued self self'
         [WriteBlock (dev_addr self) rl (Struct.le_bytes 4 (sliced_len s));
          WriteBlock (dev_addr self) r b]
    /\ sliced_len s <= Z.of_nat (length b) <= 4 * sliced_len s
    /\ sliced_len s <= 32
    /\ (Z.of_nat (length b) = sliced_len s
        <-> Forall (fun c => 0 <= c < 128) (sliced s)).
Proof.
  rewrite write_str_run. cbv zeta.
  destruct (write_i2c_block_data (bus self) (dev_addr self) rl _)
    as [[[]|e] b1]; [|discriminate].
  destruct (Utf8.encode (sliced s)) as [b|e] eqn:Eb; [|discriminate].
  destruct (write_i2c_block_data b1 (dev_addr self) r b) as [res b2].
  intros E. inversion E; subst. clear E.
  destruct (Utf8Inverse.encode_length _ _ Eb) as [Hlen Hasc].
  exists b. split; [reflexivity|].
  split; [unfold issued; cbn [bus_log called]; rewrite <- app_assoc;
          reflexivity|].
  unfold sliced_len. split; [lia|].
  split; [pose proof (firstn_le_length 32 s); unfold sliced; lia|].
  split.
  - intros Heq. apply Hasc. lia.
  - intros Ha. rewrite (Utf8Facts.encode_ascii _ Ha) in Eb.
    apply Ok_inj in Eb. subst b. reflexivity.
Qed.

Lemma write_str_length_gap_witness :
  exists self' b,
    _write_str 0x04 (VStr (repeat 233 20)) 0x03 fresh_loopback = (Ok tt, self')
    /\ Utf8.encode (sliced (repeat 233 20)) = Ok b
    /\ issued fresh_loopback self'
         [WriteBlock (dev_addr fresh_loopback) 0x03
            (Struct.le_bytes 4 (sliced_len (repeat 233 20)));
          WriteBlock (dev_addr fresh_loopback) 0x04 b]
    /\ sliced_len (repeat 233 20) <= Z.of_nat (length b)
       <= 4 * sliced_len (repeat 233 20)
    /\ sliced_len (repeat 233 20) <= 32
    /\ (Z.of_nat (length b) = sliced_len (repeat 233 20)
        <-> Forall (fun c => 0 <= c < 128) (sliced (repeat 233 20))).
Proof.
  assert (_write_str 0x04 (VStr (repeat 233 20)) 0x03 fresh_loopback
          = (Ok tt,
             snd (_write_str 0x04 (VStr (repeat 233 20)) 0x03
                    fresh_loopback))) as E
    by (vm_compute; reflexivity).
  destruct (write_str_length_gap _ _ _ _ _ E) as (b & Hb).
  eexists _, b. split; [exact E|exact Hb].
Defined.

(** X14. A str that cannot be encoded leaves a half-written name: when
    [value[:32]] holds a code point that UTF-8 does not encode (a lone
    surrogate) and the bus accepts the first write, [_write_str] raises
    [UnicodeEncodeError] after it has written the length register, and it
    makes no write to the name register. *)
Theorem write_str_unencodable {B : Type} `{SMBus B} (r rl : Z) (s : pystr)
    (e : exn) (self : FilaMan B) :
  Utf8.encode (sliced s) = Raise e ->
  fst (write_i2c_block_data (bus self) (dev_addr self) rl
         (Struct.le_bytes 4 (sliced_len s))) = Ok tt ->
  exists self',
    _write_str r (VStr s) rl self = (Raise UnicodeEncodeError, self')
    /\ issued self self'
         [WriteBlock (dev_addr self) rl (Struct.le_bytes 4 (sliced_len s))].
Proof.
  intros Hene Hbus. rewrite write_str_run. cbv zeta.
  destruct (write_i2c_block_data (bus self) (dev_addr self) rl _)
    as [res b1].
  cbn [fst] in Hbus. subst res. rewrite Hene.
  rewrite (encode_raises _ _ Hene).
  eexists. split; reflexivity.
Qed.

Lemma write_str_unencodable_witness :
  exists self',
    _write_str 0x04 (VStr lone_surrogate) 0x03 fresh_loopback
    = (Raise UnicodeEncodeError, self')
    /\ issued fresh_loopback self'
         [WriteBlock (dev_addr fresh_loopback) 0x03
            (Struct.le_bytes 4 (sliced_len lone_surrogate))].
Proof.
  apply (write_str_unencodable 0x04 0x03 lone_surrogate UnicodeEncodeError);
    reflexivity.
Defined.

(** ** A name written and read back *)
Section NameRoundtrip.
Implicit Types self : FilaMan Loopback.

Lemma firstn_padded (n : nat) (b : list Z) :
  (n <= length b)%nat ->
  firstn n (b ++ repeat 0 n) = firstn n b.
Proof.
  intros Hn. rewrite firstn_app.
  replace (n - length b)%nat with 0%nat by lia.
  cbn [firstn]. apply app_nil_r.
Qed.

(** What the round trip returns when the name can be encoded: the
    decoding of the first [len(value[:32])] bytes of the encoding. *)
Lemma name_roundtrip_run (s b : list Z) self :
  Utf8.encode (sliced s) = Ok b ->
  fst (name_roundtrip s self)
  = match Struct.bytearray (firstn (length (sliced s)) b) with
    | Ok bb =>
        match Utf8.decode bb with
        | Ok s' => Ok (VStr s')
        | Raise e => Raise e
        end
    | Raise e => Raise e
    end.
Proof.
  intros Eb. unfold name_roundtrip.
  step_refl. step_refl. cbn [reg].
  rewrite (bind_ok _ _ self tt
             (called
                (called self
                   (loopback_store (bus self) 0x03
                      (Struct.le_bytes 4 (sliced_len s)))
                   (WriteBlock (dev_addr self) 0x03
                      (Struct.le_bytes 4 (sliced_len s))))
                (loopback_store
                   (loopback_store (bus self) 0x03
                      (Struct.le_bytes 4 (sliced_len s))) 0x04 b)
                (WriteBlock (dev_addr self) 0x04 b)))
    by (rewrite write_str_run; cbv zeta;
        cbn [write_i2c_block_data loopback_bus]; rewrite Eb; reflexivity).
  pose proof (sliced_len_range s) as Hrange.
  match goal with
  | |- fst (bind _ _ ?st) = _ =>
      destruct (read_register_loopback INT (VInt (sliced_len s)) 0x03 st)
        as [c Hread]
  end.
  { cbn. lia. }
  { cbn [bus called cell_of]. rewrite loopback_store_ne by lia.
    apply loopback_store_eq. }
  rewrite (bind_ok _ _ _ _ _ Hread).
  destruct (Utf8Inverse.encode_length _ _ Eb) as [[Hlen _] _].
  unfold _read_str.
  rewrite (bind_ok (as_int (VInt (sliced_len s))) _ _ (sliced_len s) _
             eq_refl).
  rewrite Z.min_r by lia.
  unfold bind at 1. unfold bus_read_i2c_block_data.
  cbn [read_i2c_block_data loopback_bus bus called].
  rewrite loopback_store_eq. unfold sliced_len. rewrite Nat2Z.id.
  rewrite (firstn_padded _ _ Hlen).
  unfold bind, lift, ret.
  destruct (Struct.bytearray _) as [bb|e]; [|reflexivity].
  destruct (Utf8.decode bb); reflexivity.
Qed.

Lemma name_roundtrip_unencodable (s : list Z) (e : exn) self :
  Utf8.encode (sliced s) = Raise e ->
  fst (name_roundtrip s self) = Raise e.
Proof.
  intros Eb. unfold name_roundtrip.
  step_refl. step_refl. cbn [reg].
  unfold bind at 1. rewrite write_str_run. cbv zeta.
  cbn [write_i2c_block_data loopback_bus]. rewrite Eb. reflexivity.
Qed.
End NameRoundtrip.

(** X15. The name of a record survives a write followed by a read on a
    loopback device exactly when it is an ASCII string of at most 32
    characters: for every str [s], writing it with [_write_str], reading
    the length register and reading the name with [_read_str] returns [s]
    if and only if [s] has at most 32 code points, all below 128. *)
Theorem name_roundtrip_iff_ascii (s : pystr) (self : FilaMan Loopback) :
  fst (name_roundtrip s self) = Ok (VStr s)
  <-> (length s <= 32)%nat /\ Forall (fun c => 0 <= c < 128) s.
Proof.
  split.
  - intros E.
    destruct (Utf8.encode (sliced s)) as [b|e] eqn:Eb.
    2: { rewrite (name_roundtrip_unencodable s e self Eb) in E.
         discriminate. }
    rewrite (name_roundtrip_run s b self Eb) in E.
    destruct (Struct.bytearray _) as [bb|e] eqn:Ebb; [|discriminate].
    apply bytearray_ok_inv in Ebb as [-> _].
    destruct (Utf8.decode _) as [s'|e] eqn:Ed; [|discriminate].
    assert (s' = s) as -> by (inversion E; reflexivity).
    apply Utf8Inverse.decode_encode in Ed.
    destruct (Utf8Inverse.encode_length _ _ Ed) as [[Hlo _] Hasc].
    pose proof (firstn_le_length (length (sliced s)) b) as Hcut.
    pose proof (firstn_le_length 32 s) as H32.
    assert (length (sliced s) <= length s)%nat as Hsl
      by (unfold sliced; rewrite length_firstn; lia).
    unfold sliced in *.
    split; [lia|]. apply Hasc. lia.
  - intros [Hlen Hasc].
    assert (sliced s = s) as Hs by (apply firstn_all2; exact Hlen).
    assert (Utf8.encode (sliced s) = Ok s) as Eb
      by (rewrite Hs; apply Utf8Facts.encode_ascii; exact Hasc).
    rewrite (name_roundtrip_run s s self Eb), Hs, firstn_all.
    rewrite (Utf8Facts.bytearray_ascii s Hasc).
    rewrite (Utf8Facts.decode_ascii s Hasc). reflexivity.
Qed.

(** ** Values read from a register *)
Section ReadValues.
Context {B : Type} `{SMBus B}.
Implicit Types self : FilaMan B.

Lemma read_float_value (r : Z) self v self' :
  _read_float r self = (Ok v, self') ->
  exists x, valid_binary Struct.prec32 Struct.emax32 x = true
            /\ v = VFloat (Struct.widen x).
Proof.
  unfold _read_float. intros E.
  apply bind_ok_inv in E as (buf & s1 & _ & E).
  apply bind_ok_inv in E as (b & s2 & E2 & E).
  apply lift_ok_inv in E2 as [E2 _].
  apply bytearray_ok_inv in E2 as [_ Hb].
  apply bind_ok_inv in E as (x & s3 & E3 & E).
  apply lift_ok_inv in E3 as [E3 _]. inversion E; subst. clear E.
  unfold Struct.unpack_f in E3.
  destruct (length b =? 4)%nat eqn:Hlen; [|discriminate].
  apply Nat.eqb_eq in Hlen. apply Ok_inj in E3. subst x.
  pose proof (le_decode_range b Hb) as Hr. rewrite Hlen in Hr.
  change (256 ^ Z.of_nat 4) with 4294967296 in Hr.
  eexists. split; [exact (b32_of_bits_valid _ Hr)|reflexivity].
Qed.

(** A value that a register read returned is a value its register
    holds, except that a byte register returns whatever integer the bus
    reports. *)
Lemma read_register_representable (rv : reg_val) self v self' :
  _read_register rv self = (Ok v, self') ->
  match type rv with
  | BYTE => exists z, v = VInt z
  | t => representable t v
  end.
Proof.
  intros E. pose proof (read_register_value rv self v self' E) as Hv.
  unfold _read_register in E. destruct (type rv).
  - destruct Hv as [b ->]. exact I.
  - destruct Hv as (z & -> & Hz). exact Hz.
  - destruct (read_float_value _ _ _ _ E) as (x & Hx & ->).
    cbn. eauto.
  - exact Hv.
  - exact Hv.
Qed.

Lemma write_register_reaches_bus (rv : reg_val) (v : value) self :
  match type rv with
  | BYTE => exists z, v = VInt z
  | t => representable t v
  end ->
  exists c, issued self (snd (_write_register rv v self)) [c]
            /\ write_to (reg rv) c.
Proof.
  unfold _write_register.
  destruct (type rv); intros Hv.
  - destruct (_write_bool (reg rv) v self) as [res s'] eqn:E.
    unfold _write_bool in E. apply bus_write_byte_calls in E as [_ Hi].
    eexists. split; [exact Hi|]. split; reflexivity.
  - destruct v as [| |z| |]; cbn in Hv; try contradiction.
    destruct (_write_int (reg rv) (VInt z) self) as [res s'] eqn:E.
    unfold _write_int, bind, lift in E.
    destruct (StructFacts.unpack_pack_i z Hv) as [Hp _].
    rewrite Hp in E. apply bus_write_block_calls in E as [_ Hi].
    eexists. split; [exact Hi|]. split; reflexivity.
  - destruct v as [| | |f|]; cbn in Hv; try contradiction.
    destruct Hv as (x & Hx & ->).
    destruct (_write_float (reg rv) (VFloat (Struct.widen x)) self)
      as [res s'] eqn:E.
    unfold _write_float, bind, lift in E. cbn [Struct.pack_f] in E.
    rewrite (StructFacts.pack_f32_widen x Hx) in E.
    apply bus_write_block_calls in E as [_ Hi].
    eexists. split; [exact Hi|]. split; reflexivity.
  - contradiction.
  - destruct (_write_byte (reg rv) v self) as [res s'] eqn:E.
    unfold _write_byte in E. apply bus_write_byte_calls in E as [_ Hi].
    eexists. split; [exact Hi|]. split; reflexivity.
Qed.
End ReadValues.

(** X16. What the generic read path returns, the generic write path
    accepts: on any bus, a value that [_read_register] returned for a
    register is one that the register holds (a bool, a signed 32-bit
    integer, the float of a binary32 datum, or the integer the bus reported
    for a byte register), and [_write_register] of that value to the same
    register, in any state, is not rejected by [struct.pack]: it makes
    exactly one call on the bus, a write to that register. *)
Theorem read_value_writable {B : Type} `{SMBus B} (rv : reg_val)
    (self self' s : FilaMan B) (v : value) :
  _read_register rv self = (Ok v, self') ->
  match type rv with
  | BYTE => exists z, v = VInt z
  | t => representable t v
  end
  /\ exists c, issued s (snd (_write_register rv v s)) [c]
               /\ write_to (reg rv) c.
Proof.
  intros E. pose proof (read_register_representable rv self v self' E) as Hv.
  split; [exact Hv|]. exact (write_register_reaches_bus rv v s Hv).
Qed.

Lemma read_value_writable_witness :
  exists v self',
    _read_register (RegVal 0x09 FLOAT) fresh_loopback = (Ok v, self')
    /\ representable FLOAT v
    /\ exists c,
         issued fresh_loopback
           (snd (_write_register (RegVal 0x09 FLOAT) v fresh_loopback)) [c]
         /\ write_to 0x09 c.
Proof.
  assert (_read_register (RegVal 0x09 FLOAT) fresh_loopback
          = (Ok (VFloat (S754_zero false)),
             snd (_read_register (RegVal 0x09 FLOAT) fresh_loopback))) as E
    by (vm_compute; reflexivity).
  eexists _, _. split; [exact E|].
  exact (read_value_writable (RegVal 0x09 FLOAT) _ _ fresh_loopback _ E).
Defined.
